(** * Comment harvester: cache, credentials, API client, tree extractor, scoring

    A shallow embedding of the harvesting-and-ranking pipeline that lives in
    two near-identical copies, [server/routes.ts] and the client-side module
    (the file with [processCommentsWithSearchTerms]).  The pieces the two
    copies share verbatim ([SearchCache], [getRedditAccessToken],
    [redditApiRequest], [extractComments], [mockComments]) are modelled once;
    the two [searchComments] functions are modelled separately in the modules
    [Client] and [Server].

    Conventions.
    - Instants ([Date.now()], [timestamp] fields) are integers, milliseconds
      since the epoch; an ISO-8601 string is represented by the instant it
      denotes.
    - Integer-valued JavaScript numbers (upvotes, awards, counters, the limit
      and page of the client, which are whole by construction) are [Z] or
      [nat]; computed scores are [jsnum], the reals extended with [NaN] and
      the two infinities (rounding is not modelled); the numbers the server
      route converts from the query string are [Num.t], the whole numbers
      with [NaN] and the two infinities.
    - Strings are [string].  The case mappings ([toLowerCase], the [i] flag
      of a regular expression) are modelled on the ASCII letters, where the
      two agree; statements that compare the two foldings are made for ASCII
      text ([isAscii]).
    - A thrown exception is the [Throw] case of [result]. *)

From Stdlib Require Import String Ascii List ZArith Lia Bool Arith PeanoNat.
From Stdlib Require Import Permutation Sorted Reals Lra DecimalString.
From Equations Require Import Equations.
Import ListNotations.

Local Open Scope string_scope.
Local Open Scope list_scope.
Local Open Scope Z_scope.

(* ------------------------------------------------------------------------- *)
(** ** Exceptions *)

Inductive JsError : Type :=
  | TypeError
  | RangeError
  | ErrorMsg (message : string)
  | AxiosError (status : option Z).

Inductive result (A : Type) : Type :=
  | Ok (a : A)
  | Throw (e : JsError).
Arguments Ok {A} a.
Arguments Throw {A} e.

(* ------------------------------------------------------------------------- *)
(** ** Strings *)

Definition lowerChar (c : ascii) : ascii :=
  let n := nat_of_ascii c in
  if ((65 <=? n) && (n <=? 90))%nat then ascii_of_nat (n + 32) else c.

Fixpoint toLowerCase (s : string) : string :=
  match s with
  | EmptyString => EmptyString
  | String c r => String (lowerChar c) (toLowerCase r)
  end.

(** [String.prototype.startsWith]. *)
Fixpoint startsWith (s p : string) : bool :=
  match p, s with
  | EmptyString, _ => true
  | String _ _, EmptyString => false
  | String a p', String b s' => Ascii.eqb a b && startsWith s' p'
  end.

(** [String.prototype.includes]. *)
Fixpoint includes (s p : string) : bool :=
  startsWith s p ||
  match s with
  | EmptyString => false
  | String _ r => includes r p
  end.

(** The characters matched by [\s] and stripped by [trim], within ASCII. *)
Definition isSpace (c : ascii) : bool :=
  let n := nat_of_ascii c in
  ((n =? 32) || ((9 <=? n) && (n <=? 13)))%nat.

Fixpoint trimStart (s : string) : string :=
  match s with
  | EmptyString => EmptyString
  | String c r => if isSpace c then trimStart r else s
  end.

Fixpoint trimEnd (s : string) : string :=
  match s with
  | EmptyString => EmptyString
  | String c r =>
      match trimEnd r with
      | EmptyString => if isSpace c then EmptyString else String c EmptyString
      | r' => String c r'
      end
  end.

Definition trim (s : string) : string := trimEnd (trimStart s).

(** [s.split(/\s+/)]: [cur] is the piece being read, [inws] tells whether the
    previous character belonged to a separator. *)
Fixpoint splitWs_from (cur : string) (inws : bool) (s : string) : list string :=
  match s with
  | EmptyString => [cur]
  | String c r =>
      if isSpace c then
        if inws then splitWs_from cur true r
        else cur :: splitWs_from EmptyString true r
      else splitWs_from (cur ++ String c EmptyString) false r
  end.

Definition splitWs (s : string) : list string := splitWs_from EmptyString false s.

(** A number inside a template literal. *)
Definition showZ (z : Z) : string := NilZero.string_of_int (Z.to_int z).
Definition showNat (n : nat) : string := showZ (Z.of_nat n).

(* ------------------------------------------------------------------------- *)
(** ** [Array.prototype.sort]

    The sort is stable; [le a b] is the test [compare(a, b) <= 0]. *)

Section Sort.
Context {A : Type} (le : A -> A -> bool).

Fixpoint sort_insert (x : A) (l : list A) : list A :=
  match l with
  | [] => [x]
  | y :: r => if le x y then x :: l else y :: sort_insert x r
  end.

Fixpoint jsSort (l : list A) : list A :=
  match l with
  | [] => []
  | x :: r => sort_insert x (jsSort r)
  end.
End Sort.

(* ------------------------------------------------------------------------- *)
(** ** Numbers that may be [NaN] or infinite *)

Inductive jsnum : Type :=
  | Fin (r : R)
  | NaN
  | PInf
  | NInf.

(* ------------------------------------------------------------------------- *)
(** ** Numbers converted from request parameters

    What [Number(...)] makes of a parameter of the query string: a whole
    number, or [NaN] (text that is no number) or an infinity.  Whole numbers
    are taken exactly; a fractional parameter is not modelled. *)

Module Num.

Inductive t : Type :=
  | Int (z : Z)
  | NaN
  | PosInf
  | NegInf.

(** The number inside a template literal. *)
Definition show (n : t) : string :=
  match n with
  | Int z => showZ z
  | NaN => "NaN"
  | PosInf => "Infinity"
  | NegInf => "-Infinity"
  end.

(** [a < n] and [a >= n] for a whole number [a]; both are false of [NaN]. *)
Definition int_lt (a : Z) (n : t) : bool :=
  match n with
  | Int z => a <? z
  | PosInf => true
  | NaN | NegInf => false
  end.

Definition int_ge (a : Z) (n : t) : bool :=
  match n with
  | Int z => z <=? a
  | NegInf => true
  | NaN | PosInf => false
  end.

Definition add (a b : t) : t :=
  match a, b with
  | NaN, _ | _, NaN => NaN
  | Int x, Int y => Int (x + y)
  | PosInf, NegInf | NegInf, PosInf => NaN
  | PosInf, _ | _, PosInf => PosInf
  | NegInf, _ | _, NegInf => NegInf
  end.

Definition neg (a : t) : t :=
  match a with
  | Int x => Int (- x)
  | NaN => NaN
  | PosInf => NegInf
  | NegInf => PosInf
  end.

Definition sub (a b : t) : t := add a (neg b).

(** An infinity times a whole number: [NaN] for 0, else by the sign. *)
Definition scaleInf (positive : bool) (x : Z) : t :=
  if x =? 0 then NaN
  else if Bool.eqb positive (0 <? x) then PosInf else NegInf.

Definition mul (a b : t) : t :=
  match a, b with
  | NaN, _ | _, NaN => NaN
  | Int x, Int y => Int (x * y)
  | Int x, PosInf | PosInf, Int x => scaleInf true x
  | Int x, NegInf | NegInf, Int x => scaleInf false x
  | PosInf, PosInf | NegInf, NegInf => PosInf
  | PosInf, NegInf | NegInf, PosInf => NegInf
  end.

(** The position [slice] makes of a bound, for an array of length [len]:
    [NaN] counts as 0, a negative bound is taken from the end, and the
    result is clamped to the array. *)
Definition sliceIndex (len : Z) (n : t) : Z :=
  match n with
  | Int z => if z <? 0 then Z.max (len + z) 0 else Z.min z len
  | NaN => 0
  | PosInf => len
  | NegInf => 0
  end.

End Num.

(* ------------------------------------------------------------------------- *)
(** ** [RedditComment] *)

Inductive Sentiment : Type := positive | negative | neutral.

Record RedditComment : Type := mkComment {
  id : string;
  author : string;
  body : string;
  subreddit : string;
  upvotes : Z;
  timestamp : Z;
  permalink : option string;
  matchScore : option jsnum;
  score : option jsnum;
  awards : option Z;
  sentiment : option Sentiment
}.

Definition ids (l : list RedditComment) : list string := map id l.

(* ------------------------------------------------------------------------- *)
(** ** [SearchCache]

    The [Map] keeps its entries in insertion order; [Map.set] on a key that is
    present replaces the value where it stands. *)

Module SearchCache.

Record Entry : Type := mkEntry {
  e_timestamp : Z;
  e_results : list RedditComment
}.

Definition JsMap : Type := list (string * Entry).

Fixpoint map_get (k : string) (m : JsMap) : option Entry :=
  match m with
  | [] => None
  | (k', e) :: r => if String.eqb k k' then Some e else map_get k r
  end.

Fixpoint map_delete (k : string) (m : JsMap) : JsMap :=
  match m with
  | [] => []
  | (k', e) :: r =>
      if String.eqb k k' then map_delete k r else (k', e) :: map_delete k r
  end.

Fixpoint map_set (k : string) (e : Entry) (m : JsMap) : JsMap :=
  match m with
  | [] => [(k, e)]
  | (k', e') :: r =>
      if String.eqb k k' then (k, e) :: r else (k', e') :: map_set k e r
  end.

Record t : Type := mkCache {
  cache : JsMap;
  maxSize : nat;
  ttl : Z
}.

(** [new SearchCache(maxSize, ttlMs)]; the defaults are 100 and five minutes. *)
Definition new (maxSize : nat) (ttlMs : Z) : t := mkCache [] maxSize ttlMs.
Definition default : t := new 100 (5 * 60 * 1000).

Definition with_cache (c : t) (m : JsMap) : t := mkCache m (maxSize c) (ttl c).

(** [get(key)] at the instant [now]. *)
Definition get (now : Z) (key : string) (c : t) : option (list RedditComment) * t :=
  match map_get key (cache c) with
  | None => (None, c)
  | Some entry =>
      if now - e_timestamp entry >? ttl c
      then (None, with_cache c (map_delete key (cache c)))
      else (Some (e_results entry), c)
  end.

Definition byTimestamp (a b : string * Entry) : bool :=
  e_timestamp (snd a) - e_timestamp (snd b) <=? 0.

(** [set(key, results)] at the instant [now].  Indexing [[0][0]] into an
    empty sorted array is a [TypeError]. *)
Definition set (now : Z) (key : string) (res : list RedditComment) (c : t) : result t :=
  if (maxSize c <=? length (cache c))%nat then
    match jsSort byTimestamp (cache c) with
    | [] => Throw TypeError
    | (oldestKey, _) :: _ =>
        Ok (with_cache c (map_set key (mkEntry now res) (map_delete oldestKey (cache c))))
    end
  else Ok (with_cache c (map_set key (mkEntry now res) (cache c))).

Definition clear (c : t) : t := with_cache c [].
Definition size (c : t) : nat := length (cache c).

(** A [Map] never holds a key twice. *)
Definition wf (c : t) : Prop := NoDup (map fst (cache c)).

(** What the cache is left as when a call is made and a throw is ignored. *)
Definition set_state (now : Z) (key : string) (res : list RedditComment) (c : t) : t :=
  match set now key res c with
  | Ok c' => c'
  | Throw _ => c
  end.

Inductive Op : Type :=
  | OpGet (now : Z) (key : string)
  | OpSet (now : Z) (key : string) (res : list RedditComment).

Definition step (c : t) (o : Op) : t :=
  match o with
  | OpGet now key => snd (get now key c)
  | OpSet now key res => set_state now key res c
  end.

Definition run (ops : list Op) (c : t) : t := fold_left step ops c.

End SearchCache.

(* ------------------------------------------------------------------------- *)
(** ** Data returned by the content API

    A node of a reply tree: [kind] and an optional [data] payload, whose
    [replies] field, when it is a listing, carries the children. *)

Record Payload (I : Type) : Type := mkPayload {
  d_id : string;
  d_author : option string;
  d_body : option string;
  d_subreddit : option string;
  d_ups : option Z;
  d_created_utc : option Z;
  d_permalink : option string;
  d_total_awards_received : option Z;
  d_replies : option (list I)
}.
Arguments mkPayload {I}.
Arguments d_id {I}.
Arguments d_author {I}.
Arguments d_body {I}.
Arguments d_subreddit {I}.
Arguments d_ups {I}.
Arguments d_created_utc {I}.
Arguments d_permalink {I}.
Arguments d_total_awards_received {I}.
Arguments d_replies {I}.

#[local] Unset Elimination Schemes.
Inductive Item : Type :=
  | mkItem (kind : string) (data : option (Payload Item)).

#[local] Set Elimination Schemes.

Definition kind (i : Item) : string := match i with mkItem k _ => k end.
Definition data (i : Item) : option (Payload Item) := match i with mkItem _ d => d end.

(** The body of a response: an object with [data.children], an array whose
    elements may carry [data.children], or anything else. *)
Inductive ApiData : Type :=
  | Listing (children : list Item)
  | ArrayOf (elements : list (option (list Item)))
  | OtherData.

Inductive ExchangeReply : Type :=
  | Granted (access_token : string) (expires_in : Z)
  | ExchangeFailed.

Inductive GetReply : Type :=
  | Body (d : ApiData)
  | HttpError (status : Z)
  | NetworkError.

(** Everything outside the process: the reply to the n-th POST to the token
    endpoint, the reply to the n-th GET, how long each takes, and the n-th
    draw of [Math.floor(Math.random() * 4)]. *)
Record World : Type := mkWorld {
  exchange : nat -> ExchangeReply;
  exchangeTime : nat -> Z;
  fetch : nat -> string -> GetReply;
  fetchTime : nat -> Z;
  random4 : nat -> nat
}.

Inductive Event : Type :=
  | Sleep (ms : Z)
  | Post
  | Get (url : string).

(** The module-level variables [accessToken], [tokenExpiration] and
    [tokenRetryCount], the clock, and what has been done so far. *)
Record State : Type := mkState {
  accessToken : option string;
  tokenExpiration : Z;
  tokenRetryCount : nat;
  clock : Z;
  posts : nat;
  gets : nat;
  draws : nat;
  trace : list Event
}.

Definition initialState (now : Z) : State := mkState None 0 0 now 0 0 0 [].

Definition setToken (tok : option string) (exp : Z) (n : nat) (s : State) : State :=
  mkState tok exp n (clock s) (posts s) (gets s) (draws s) (trace s).

Definition setRetryCount (n : nat) (s : State) : State :=
  setToken (accessToken s) (tokenExpiration s) n s.

(** [await new Promise(resolve => setTimeout(resolve, ms))]. *)
Definition sleep (ms : Z) (s : State) : State :=
  mkState (accessToken s) (tokenExpiration s) (tokenRetryCount s)
          (clock s + ms) (posts s) (gets s) (draws s) (trace s ++ [Sleep ms]).

Definition axiosPost (w : World) (s : State) : ExchangeReply * State :=
  (exchange w (posts s),
   mkState (accessToken s) (tokenExpiration s) (tokenRetryCount s)
           (clock s + exchangeTime w (posts s)) (S (posts s)) (gets s) (draws s)
           (trace s ++ [Post])).

Definition axiosGet (w : World) (url : string) (s : State) : GetReply * State :=
  (fetch w (gets s) url,
   mkState (accessToken s) (tokenExpiration s) (tokenRetryCount s)
           (clock s + fetchTime w (gets s)) (posts s) (S (gets s)) (draws s)
           (trace s ++ [Get url])).

Definition truthy (s : option string) : bool :=
  match s with
  | Some (String _ _) => true
  | _ => false
  end.

Definition backoffTime (retryCount : nat) : Z :=
  if (retryCount =? 0)%nat then 0 else Z.min (1000 * 2 ^ Z.of_nat retryCount) 30000.

Definition authFailed : JsError :=
  ErrorMsg "Failed to authenticate with Reddit API".
Definition authExhausted : JsError :=
  ErrorMsg "Failed to authenticate with Reddit API after multiple attempts".

(** The [try]/[catch] of [getRedditAccessToken]: back off, exchange the client
    credentials, and account for the outcome. *)
Definition exchangeCredentials (w : World) (s : State) : result string * State :=
  let s1 := if backoffTime (tokenRetryCount s) >? 0
            then sleep (backoffTime (tokenRetryCount s)) s else s in
  let (reply, s2) := axiosPost w s1 in
  match reply with
  | Granted tok expires_in =>
      (Ok tok, setToken (Some tok) (clock s2 + expires_in * 1000 - 60000) 0 s2)
  | ExchangeFailed =>
      if (3 <? S (tokenRetryCount s2))%nat
      then (Throw authExhausted, setRetryCount 0 s2)
      else (Throw authFailed, setToken None 0 (S (tokenRetryCount s2)) s2)
  end.

(** [getRedditAccessToken()]. *)
Definition getRedditAccessToken (w : World) (s : State) : result string * State :=
  match accessToken s with
  | Some tok =>
      if truthy (accessToken s) && (clock s <? tokenExpiration s)
      then (Ok tok, s)
      else exchangeCredentials w s
  | None => exchangeCredentials w s
  end.

(** [n] calls of [getRedditAccessToken], one after the other, with their
    outcomes in order. *)
Fixpoint getTokenRepeatedly (w : World) (n : nat) (s : State)
  : list (result string) * State :=
  match n with
  | O => ([], s)
  | S k =>
      let (r, s1) := getRedditAccessToken w s in
      let (rs, s2) := getTokenRepeatedly w k s1 in
      (r :: rs, s2)
  end.

(** The token is usable: it is truthy and has not reached its expiration. *)
Definition tokenValid (s : State) : bool :=
  truthy (accessToken s) && (clock s <? tokenExpiration s).

(** What the start of an attempt adds to the trace. *)
Definition backoffEvents (retryCount : nat) : list Event :=
  if backoffTime retryCount >? 0 then [Sleep (backoffTime retryCount)] else [].

(** The result and state that the lemmas on a failed exchange compare
    [exchangeCredentials] with. *)
Definition failedOutcome (w : World) (s : State) : result string * State :=
  (if (3 <=? tokenRetryCount s)%nat then Throw authExhausted else Throw authFailed,
   mkState (if (3 <=? tokenRetryCount s)%nat then accessToken s else None)
           (if (3 <=? tokenRetryCount s)%nat then tokenExpiration s else 0)
           (if (3 <=? tokenRetryCount s)%nat then 0%nat else S (tokenRetryCount s))
           (clock s + backoffTime (tokenRetryCount s) + exchangeTime w (posts s))
           (S (posts s)) (gets s) (draws s)
           (trace s ++ backoffEvents (tokenRetryCount s) ++ [Post])).

(* ------------------------------------------------------------------------- *)
(** ** [redditApiRequest] *)

Definition maxAttempts : nat := 3.

Definition rateLimited : JsError :=
  ErrorMsg "Rate limited by Reddit API. Please try again later.".

(** The [try] block: obtain the token, then issue the GET.  A reply with an
    HTTP error status is an axios error that carries a response; a network
    failure or timeout is one that does not. *)
Definition requestOnce (w : World) (url : string) (s : State) : result ApiData * State :=
  match getRedditAccessToken w s with
  | (Throw e, s1) => (Throw e, s1)
  | (Ok _, s1) =>
      match axiosGet w url s1 with
      | (Body d, s2) => (Ok d, s2)
      | (HttpError status, s2) => (Throw (AxiosError (Some status)), s2)
      | (NetworkError, s2) => (Throw (AxiosError None), s2)
      end
  end.

(** [axios.isAxiosError(error) && error.response && error.response.status === n]. *)
Definition hasStatus (n : Z) (e : JsError) : bool :=
  match e with
  | AxiosError (Some status) => status =? n
  | _ => false
  end.

Definition clearToken (s : State) : State := setToken None 0 (tokenRetryCount s) s.

Equations? redditApiRequest (w : World) (url : string) (attempt : nat) (s : State)
  : result ApiData * State by wf (maxAttempts - attempt)%nat lt :=
redditApiRequest w url attempt s with requestOnce w url s => {
  | (Ok d, s1) => (Ok d, s1)
  | (Throw error, s1) with hasStatus 429 error => {
    | true with lt_dec attempt maxAttempts => {
      | left _ => redditApiRequest w url (S attempt) (sleep (2 ^ Z.of_nat attempt * 1000) s1)
      | right _ => (Throw rateLimited, s1) }
    | false with hasStatus 401 error => {
      | true with lt_dec attempt maxAttempts => {
        | left _ => redditApiRequest w url (S attempt) (clearToken s1)
        | right _ => (Throw error, clearToken s1) }
      | false => (Throw error, s1) } } }.
Proof.
  all: unfold maxAttempts in *; destruct attempt as [|[|[|n]]]; lia.
Qed.

(* ------------------------------------------------------------------------- *)
(** ** [extractComments] *)

(** [\w]. *)
Definition isWordChar (c : ascii) : bool :=
  let n := nat_of_ascii c in
  (((48 <=? n) && (n <=? 57)) || ((65 <=? n) && (n <=? 90)) ||
   ((97 <=? n) && (n <=? 122)) || (n =? 95))%nat.

(** Does [w] stand at the head of [s], followed by a word boundary? *)
Fixpoint wordAtHead (w s : string) : bool :=
  match w, s with
  | EmptyString, EmptyString => true
  | EmptyString, String c _ => negb (isWordChar c)
  | String _ _, EmptyString => false
  | String a w', String b s' => Ascii.eqb a b && wordAtHead w' s'
  end.

(** [/\b(w1|w2|...)\b/.test(s)] for words made of word characters;
    [prevWord] tells whether the character before [s] is a word character. *)
Fixpoint testWords_from (prevWord : bool) (ws : list string) (s : string) : bool :=
  (negb prevWord && existsb (fun w => wordAtHead w s) ws) ||
  match s with
  | EmptyString => false
  | String c r => testWords_from (isWordChar c) ws r
  end.

Definition testWords (ws : list string) (s : string) : bool := testWords_from false ws s.

Definition positiveWords : list string :=
  ["great"; "good"; "love"; "awesome"; "excellent"; "amazing"; "best"; "nice";
   "perfect"; "happy"].
Definition negativeWords : list string :=
  ["bad"; "awful"; "hate"; "terrible"; "worst"; "sucks"; "horrible"; "poor";
   "sad"; "angry"].

Definition classifySentiment (body : string) : Sentiment :=
  let text := toLowerCase body in
  if testWords positiveWords text then positive
  else if testWords negativeWords text then negative
  else neutral.

(** [s || d] for a string that may be missing. *)
Definition strOr (s : option string) (d : string) : string :=
  match s with
  | Some (String c r) => String c r
  | _ => d
  end.

(** [n || 0] for a number that may be missing. *)
Definition numOr0 (n : option Z) : Z :=
  match n with
  | Some z => z
  | None => 0
  end.

(** [new Date(ms).toISOString()] throws a RangeError outside the range of
    [Date], and on [NaN]. *)
Definition toISOString (ms : option Z) : result Z :=
  match ms with
  | Some t => if Z.abs t <=? 8640000000000000 then Ok t else Throw RangeError
  | None => Throw RangeError
  end.

Definition optMul1000 (t : option Z) : option Z :=
  match t with
  | Some z => Some (z * 1000)
  | None => None
  end.

Definition isDeleted (d : Payload Item) : bool :=
  match d_body d with
  | Some b => String.eqb b "[deleted]" || String.eqb b "[removed]"
  | None => false
  end ||
  match d_author d with
  | Some a => String.eqb a "[deleted]"
  | None => false
  end.

(** The comment built from a [t1] node. *)
Definition buildComment (subreddit postId : string) (d : Payload Item)
  : result RedditComment :=
  match toISOString (optMul1000 (d_created_utc d)) with
  | Throw e => Throw e
  | Ok ts =>
      Ok (mkComment (d_id d) (strOr (d_author d) "[deleted]") (strOr (d_body d) "")
            subreddit (numOr0 (d_ups d)) ts
            (Some ("/r/" ++ subreddit ++ "/comments/" ++ postId ++ "/" ++ d_id d)%string)
            None None (Some (numOr0 (d_total_awards_received d)))
            (Some (classifySentiment (strOr (d_body d) ""))))
  end.

Definition depthCap : nat := 10.

(** One turn of the [for] loop of [processComments] at recursion depth
    [depth]; [comments] is the array built so far. *)
Fixpoint processItem (subreddit postId : string) (depth : nat) (item : Item)
  (comments : list RedditComment) {struct item} : result (list RedditComment) :=
  match item with
  | mkItem kind data =>
      let replies (comments' : list RedditComment) : result (list RedditComment) :=
        match data with
        | Some d =>
            match d_replies d with
            | Some children =>
                if (depthCap <? S depth)%nat then Ok comments'
                else
                  (fix each (l : list Item) (acc : list RedditComment) :=
                     match l with
                     | [] => Ok acc
                     | i :: r =>
                         match processItem subreddit postId (S depth) i acc with
                         | Ok acc' => each r acc'
                         | Throw e => Throw e
                         end
                     end) children comments'
            | None => Ok comments'
            end
        | None => Ok comments'
        end in
      match data with
      | Some d =>
          if String.eqb kind "t1" then
            if isDeleted d then Ok comments
            else
              match buildComment subreddit postId d with
              | Throw e => Throw e
              | Ok c => replies (comments ++ [c])
              end
          else replies comments
      | None => replies comments
      end
  end.

Fixpoint processEach (subreddit postId : string) (depth : nat) (l : list Item)
  (comments : list RedditComment) : result (list RedditComment) :=
  match l with
  | [] => Ok comments
  | i :: r =>
      match processItem subreddit postId depth i comments with
      | Ok comments' => processEach subreddit postId depth r comments'
      | Throw e => Throw e
      end
  end.

(** [processComments(data, depth)]; [None] is a missing [data]. *)
Definition processComments (subreddit postId : string) (data : option (list Item))
  (depth : nat) (comments : list RedditComment) : result (list RedditComment) :=
  match data with
  | None => Ok comments
  | Some l =>
      if (depthCap <? depth)%nat then Ok comments
      else processEach subreddit postId depth l comments
  end.

Definition extractComments (commentData : option (list Item)) (subreddit postId : string)
  : result (list RedditComment) :=
  processComments subreddit postId commentData 0 [].

(** The reply tree cut below recursion depth [d]: a node keeps its payload,
    its replies are cut below [d - 1], and at [d = 0] it loses them. *)
Fixpoint truncateItem (d : nat) (item : Item) {struct item} : Item :=
  match item with
  | mkItem k None => mkItem k None
  | mkItem k (Some p) =>
      mkItem k (Some (mkPayload (d_id p) (d_author p) (d_body p) (d_subreddit p)
                        (d_ups p) (d_created_utc p) (d_permalink p)
                        (d_total_awards_received p)
                        match d, d_replies p with
                        | S d', Some children => Some (map (truncateItem d') children)
                        | _, _ => None
                        end))
  end.

(** The top-level nodes have depth 0. *)
Definition truncateTree (d : nat) (children : list Item) : list Item :=
  map (truncateItem d) children.

(** A thread of [S n] comments, each the only reply to the one before. *)
Fixpoint nestedThread (n : nat) : Item :=
  mkItem "t1"
    (Some (mkPayload ("c" ++ showNat n)%string (Some "user") (Some "text") None (Some 1)
             (Some 1700000000) None None
             match n with
             | O => None
             | S k => Some [nestedThread k]
             end)).

(* ------------------------------------------------------------------------- *)
(** ** [fetchCommentsFromPost] *)

Definition REDDIT_API_BASE : string := "https://oauth.reddit.com".

Definition drawRandom4 (w : World) (s : State) : nat * State :=
  ((random4 w (draws s) mod 4)%nat,
   mkState (accessToken s) (tokenExpiration s) (tokenRetryCount s)
           (clock s) (posts s) (gets s) (S (draws s)) (trace s)).

Definition commentSortMethods : list string := ["confidence"; "top"; "new"; "controversial"].

Definition commentsUrl (subreddit postId sortMethod : string) : string :=
  (REDDIT_API_BASE ++ "/r/" ++ subreddit ++ "/comments/" ++ postId ++
   ".json?limit=100&depth=5&sort=" ++ sortMethod)%string.

(** Every failure, of the request or of the extraction, gives the empty array. *)
Definition fetchCommentsFromPost (w : World) (postId subreddit : string) (s : State)
  : list RedditComment * State :=
  let (k, s1) := drawRandom4 w s in
  let sortMethod := nth k commentSortMethods "" in
  match redditApiRequest w (commentsUrl subreddit postId sortMethod) 1 s1 with
  | (Throw _, s2) => ([], s2)
  | (Ok (ArrayOf elements), s2) =>
      if (length elements <? 2)%nat then ([], s2)
      else
        match nth 1 elements None with
        | None => ([], s2)
        | Some children =>
            match extractComments (Some children) subreddit postId with
            | Ok comments => (comments, s2)
            | Throw _ => ([], s2)
            end
        end
  | (Ok _, s2) => ([], s2)
  end.

(* ------------------------------------------------------------------------- *)
(** ** Arithmetic on [jsnum] *)

Local Open Scope R_scope.

(** [Math.log10] on an integer-valued argument. *)
Definition log10 (n : Z) : jsnum :=
  if (n <? 0)%Z then NaN
  else if (n =? 0)%Z then NInf
  else Fin (ln (IZR n) / ln 10).

Definition jsAdd (a b : jsnum) : jsnum :=
  match a, b with
  | NaN, _ | _, NaN => NaN
  | PInf, NInf | NInf, PInf => NaN
  | PInf, _ | _, PInf => PInf
  | NInf, _ | _, NInf => NInf
  | Fin x, Fin y => Fin (x + y)
  end.

Definition jsNeg (a : jsnum) : jsnum :=
  match a with
  | Fin x => Fin (- x)
  | NaN => NaN
  | PInf => NInf
  | NInf => PInf
  end.

Definition jsSub (a b : jsnum) : jsnum := jsAdd a (jsNeg b).

(** [a * k] for a literal [k > 0]. *)
Definition jsScale (a : jsnum) (k : R) : jsnum :=
  match a with
  | Fin x => Fin (x * k)
  | other => other
  end.

(** [a < b]; any comparison with [NaN] is false. *)
Definition jsLt (a b : jsnum) : Prop :=
  match a, b with
  | NaN, _ | _, NaN => False
  | _, NInf => False
  | PInf, _ => False
  | NInf, _ => True
  | _, PInf => True
  | Fin x, Fin y => x < y
  end.

(** [v > 0] as the sort reads a comparator's result. *)
Definition jsPositive (v : jsnum) : bool :=
  match v with
  | Fin x => if Rlt_dec 0 x then true else false
  | PInf => true
  | _ => false
  end.

(** [x || 0] for a score that may be missing: [undefined], [NaN] and [0]
    are falsy. *)
Definition scoreOr0 (x : option jsnum) : jsnum :=
  match x with
  | Some (Fin r) => Fin r
  | Some PInf => PInf
  | Some NInf => NInf
  | _ => Fin 0
  end.

(* ------------------------------------------------------------------------- *)
(** ** Scoring helpers of the client module *)

Definition calculateRecencyScore (now : Z) (timestamp : Z) : R :=
  let ageInHours := IZR (now - timestamp) / (1000 * 60 * 60) in
  if Rlt_dec ageInHours 24 then 5 * (1 - ageInHours / 24) else 0.

Definition calculateBaseScore (now : Z) (comment : RedditComment) : jsnum :=
  let upvoteScore := jsScale (log10 (upvotes comment + 1)) 2 in
  let awardScore := jsScale (log10 (numOr0 (awards comment) + 1)) 3 in
  let recency := calculateRecencyScore now (timestamp comment) in
  jsAdd (jsAdd upvoteScore awardScore) (Fin recency).

Definition calculateScore (now : Z) (comment : RedditComment) (matchCount : Z) : jsnum :=
  let baseScore := calculateBaseScore now comment in
  let matchScore := jsScale (log10 (matchCount + 1)) 5 in
  jsAdd baseScore matchScore.

Local Close Scope R_scope.

Definition withScore (c : RedditComment) (s : jsnum) : RedditComment :=
  mkComment (id c) (author c) (body c) (subreddit c) (upvotes c) (timestamp c)
            (permalink c) (matchScore c) (Some s) (awards c) (sentiment c).

Definition withMatchScore (c : RedditComment) (m : jsnum) : RedditComment :=
  mkComment (id c) (author c) (body c) (subreddit c) (upvotes c) (timestamp c)
            (permalink c) (Some m) (score c) (awards c) (sentiment c).

(** The same comment with another upvote count, or another award count. *)
Definition withUpvotes (c : RedditComment) (u : Z) : RedditComment :=
  mkComment (id c) (author c) (body c) (subreddit c) u (timestamp c)
            (permalink c) (matchScore c) (score c) (awards c) (sentiment c).

Definition withAwards (c : RedditComment) (a : option Z) : RedditComment :=
  mkComment (id c) (author c) (body c) (subreddit c) (upvotes c) (timestamp c)
            (permalink c) (matchScore c) (score c) a (sentiment c).

(* ------------------------------------------------------------------------- *)
(** ** Regular expressions built from escaped search terms

    [new RegExp(escapeRegex(term), 'gi')] matches the term literally and
    without regard to case; the value below is the term.  The [i] flag is
    modelled on ASCII text, where a character matches another exactly when
    their lower cases agree; outside ASCII the flag folds case by another
    table than [toLowerCase], which the model does not follow. *)

Definition RegExp : Type := string.

(** Number of matches of [text.match(re)]: occurrences read left to right,
    none overlapping another.  [skip] characters are still covered by the
    previous match. *)
Fixpoint countMatches_from (skip : nat) (p s : string) : nat :=
  match s with
  | EmptyString => 0
  | String c r =>
      match skip with
      | S k => countMatches_from k p r
      | O =>
          if startsWith s p
          then S (countMatches_from (String.length p - 1) p r)
          else countMatches_from 0 p r
      end
  end.

Definition countMatches (re : RegExp) (text : string) : nat :=
  countMatches_from 0 (toLowerCase re) (toLowerCase text).

(** Position of the first occurrence of [p] in [s]. *)
Fixpoint indexOf (s p : string) : option nat :=
  if startsWith s p then Some 0%nat
  else
    match s with
    | EmptyString => None
    | String _ r => option_map S (indexOf r p)
    end.

Fixpoint dropChars (n : nat) (s : string) : string :=
  match n, s with
  | O, _ => s
  | S k, EmptyString => EmptyString
  | S k, String _ r => dropChars k r
  end.

(** [re.test(text)] for a global regular expression whose [lastIndex] is
    [lastIndex]: the search starts there; the result comes with the new
    [lastIndex]. *)
Definition regexTest (re : RegExp) (lastIndex : nat) (text : string) : bool * nat :=
  if (String.length text <? lastIndex)%nat then (false, 0%nat)
  else
    match indexOf (dropChars lastIndex (toLowerCase text)) (toLowerCase re) with
    | Some i => (true, (lastIndex + i + String.length re)%nat)
    | None => (false, 0%nat)
    end.

(* ------------------------------------------------------------------------- *)
(** ** Helpers shared by the two [searchComments] *)

(** The [query] field as it is at run time: a string, or a value of another
    type (a number, an array, [undefined], ...), on which [toLowerCase] is not
    a function. *)
Inductive QueryValue : Type :=
  | QString (s : string)
  | QOther.

(** [l.slice(start, end)] for integer bounds. *)
Definition jsSlice {A : Type} (start stop : Z) (l : list A) : list A :=
  let len := Z.of_nat (length l) in
  let k := if start <? 0 then Z.max (len + start) 0 else Z.min start len in
  let fin := if stop <? 0 then Z.max (len + stop) 0 else Z.min stop len in
  firstn (Z.to_nat (fin - k)) (skipn (Z.to_nat k) l).

(** [l.slice(start, end)] for bounds that may be [NaN] or infinite. *)
Definition jsSliceNum {A : Type} (start stop : Num.t) (l : list A) : list A :=
  let len := Z.of_nat (length l) in
  let k := Num.sliceIndex len start in
  let fin := Num.sliceIndex len stop in
  firstn (Z.to_nat (fin - k)) (skipn (Z.to_nat k) l).

(** [l.filter(f)] for a callback that may also update the element it keeps. *)
Fixpoint filterMap {A B : Type} (f : A -> option B) (l : list A) : list B :=
  match l with
  | [] => []
  | x :: r =>
      match f x with
      | Some y => y :: filterMap f r
      | None => filterMap f r
      end
  end.

(** [l.findIndex(p)]; [None] stands for -1. *)
Fixpoint findIndex {A : Type} (p : A -> bool) (l : list A) : option nat :=
  match l with
  | [] => None
  | x :: r => if p x then Some 0%nat else option_map S (findIndex p r)
  end.

(** [self.filter((c, i, self) => i === self.findIndex(d => d.id === c.id))]. *)
Definition firstOfItsId (self : list RedditComment) (ic : nat * RedditComment) : bool :=
  match findIndex (fun d => String.eqb (id d) (id (snd ic))) self with
  | Some j => (fst ic =? j)%nat
  | None => false
  end.

Definition removeDuplicates (self : list RedditComment) : list RedditComment :=
  map snd (filter (firstOfItsId self) (combine (seq 0 (length self)) self)).

(** The comparators of the [sortBy] switch, as tests [compare(a, b) <= 0]. *)
Definition byUpvotes (a b : RedditComment) : bool := upvotes b - upvotes a <=? 0.
Definition byTimestamp (a b : RedditComment) : bool := timestamp b - timestamp a <=? 0.
Definition byAwards (a b : RedditComment) : bool :=
  numOr0 (awards b) - numOr0 (awards a) <=? 0.
Definition byScore (a b : RedditComment) : bool :=
  negb (jsPositive (jsSub (scoreOr0 (score b)) (scoreOr0 (score a)))).
Definition byMatchScore (a b : RedditComment) : bool :=
  negb (jsPositive (jsSub (scoreOr0 (matchScore b)) (scoreOr0 (matchScore a)))).

(** The fixed demonstration dataset; its timestamps are the instant the
    module was loaded. *)
Definition mockComments (loadTime : Z) : list RedditComment :=
  [ mkComment "mock1" "tech_enthusiast"
      "Modern programming languages like Rust and Go are gaining popularity for their performance characteristics and safety features."
      "programming" 128 loadTime None None None (Some 2) (Some positive);
    mkComment "mock2" "science_lover"
      "The James Webb Space Telescope has revolutionized our understanding of distant galaxies. The images are absolutely stunning!"
      "science" 243 loadTime None None None (Some 5) (Some positive);
    mkComment "mock3" "design_thinker"
      "Apple prioritizes simplicity and user experience over feature bloat, which is why their products remain popular despite the premium pricing."
      "technology" 87 loadTime None None None (Some 1) (Some neutral);
    mkComment "mock4" "movie_critic"
      "The latest superhero movie was terrible. The CGI looked cheap and the plot had more holes than Swiss cheese."
      "movies" 54 loadTime None None None (Some 0) (Some negative);
    mkComment "mock5" "health_advisor"
      "Regular exercise and a balanced diet are still the best ways to maintain long-term health, despite all the fad diets that come and go."
      "health" 176 loadTime None None None (Some 3) (Some positive) ].

Definition queryMustBeString : JsError := ErrorMsg "Query must be a string".

(* ------------------------------------------------------------------------- *)
(** ** The client module: [processCommentsWithSearchTerms], [searchComments] *)

Module Client.

Record SearchParams : Type := mkParams {
  query : QueryValue;
  filterType : string;
  timeFrame : string;
  sortBy : string;
  minUpvotes : Z;
  limit : nat
}.

Definition getCacheKey (params : SearchParams) (page : nat) : result string :=
  match query params with
  | QString q =>
      Ok (toLowerCase q ++ "_" ++ filterType params ++ "_" ++ timeFrame params ++ "_"
          ++ sortBy params ++ "_" ++ showZ (minUpvotes params) ++ "_"
          ++ showNat (limit params) ++ "_" ++ showNat page)%string
  | QOther => Throw TypeError
  end.

Definition scored (now : Z) (comment : RedditComment) (matchCount : nat) : RedditComment :=
  withScore (withMatchScore comment (Fin (IZR (Z.of_nat matchCount))))
            (calculateScore now comment (Z.of_nat matchCount)).

(** The callback of the ['keyword'] case. *)
Definition keywordFilter (now : Z) (regexes : list RegExp) (comment : RedditComment)
  : option RedditComment :=
  let matchCount :=
    fold_left (fun n re => (n + countMatches re (body comment))%nat) regexes 0%nat in
  if (0 <? matchCount)%nat then Some (scored now comment matchCount) else None.

(** The exact-phrase test of the ['all'] case. *)
Definition exactPhraseBonus (query : string) (comment : RedditComment) : nat :=
  let commentText := toLowerCase (body comment) in
  if (3 <? String.length query)%nat && includes commentText (toLowerCase query)
  then 10%nat else 0%nat.

(** What one regular expression adds to [matchCount] in the ['all'] case:
    the matches in the body, then two [test] calls that share [lastIndex]. *)
Definition termMatches (comment : RedditComment) (re : RegExp) : nat :=
  let authorText := toLowerCase (author comment) in
  let subredditText := toLowerCase (subreddit comment) in
  let bodyMatches := countMatches re (body comment) in
  let (inAuthor, lastIndex) := regexTest re 0 authorText in
  let (inSubreddit, _) := regexTest re lastIndex subredditText in
  (bodyMatches + (if inAuthor then 2 else 0) + (if inSubreddit then 3 else 0))%nat.

(** The callback of the ['all'] and [default] cases. *)
Definition allFilter (now : Z) (searchTerms : list string) (regexes : list RegExp)
  (query : string) (comment : RedditComment) : option RedditComment :=
  match searchTerms with
  | [] => Some comment
  | _ :: _ =>
      let matchCount :=
        fold_left (fun n re => (n + termMatches comment re)%nat) regexes 0%nat in
      let finalMatchCount := (matchCount + exactPhraseBonus query comment)%nat in
      if (0 <? finalMatchCount)%nat then Some (scored now comment finalMatchCount) else None
  end.

Definition withBaseScore (now : Z) (comment : RedditComment) : RedditComment :=
  withScore comment (calculateBaseScore now comment).

Definition sortComments (sortBy : string) (l : list RedditComment) : list RedditComment :=
  if String.eqb sortBy "upvotes" then jsSort byUpvotes l
  else if String.eqb sortBy "timestamp" then jsSort byTimestamp l
  else if String.eqb sortBy "awards" then jsSort byAwards l
  else jsSort byScore l.

Definition isNil {A : Type} (l : list A) : bool :=
  match l with
  | [] => true
  | _ => false
  end.

(** [processCommentsWithSearchTerms]; [now] is the clock read by the scoring
    helpers during this synchronous pass. *)
Definition processCommentsWithSearchTerms (now : Z) (comments : list RedditComment)
  (searchTerms : list string) (regexes : list RegExp) (filterType : string)
  (query : string) (sortBy : string) (minUpvotes : Z) : list RedditComment :=
  let filteredComments := filter (fun c => minUpvotes <=? upvotes c) comments in
  let filteredComments :=
    if isNil searchTerms && String.eqb filterType "all"
    then map (withBaseScore now) filteredComments
    else if String.eqb filterType "keyword"
    then filterMap (keywordFilter now regexes) filteredComments
    else if String.eqb filterType "subreddit"
    then map (withBaseScore now)
           (filter (fun c => String.eqb (toLowerCase (subreddit c)) (toLowerCase query))
                   filteredComments)
    else if String.eqb filterType "author"
    then map (withBaseScore now)
           (filter (fun c => includes (toLowerCase (author c)) (toLowerCase query))
                   filteredComments)
    else filterMap (allFilter now searchTerms regexes query) filteredComments in
  removeDuplicates (sortComments sortBy filteredComments).

(** What the fan-out phase delivers.  The fetches of the sources run
    interleaved and race against the 8-second timer, so the model does not
    fix their schedule: [arrived] lists, in the order they were merged, the
    flattened comment arrays of the chunks that were merged before the race
    was settled, [late] those merged while the direct comment search was
    awaited, [searchReply] is the outcome of that search request and
    [elapsed] the time between the cache look-up and the processing. *)
Record Harvest : Type := mkHarvest {
  arrived : list (list RedditComment);
  late : list (list RedditComment);
  searchReply : result ApiData;
  elapsed : Z
}.

Definition hasId (allComments : list RedditComment) (i : string) : bool :=
  existsb (fun c => String.eqb (id c) i) allComments.

(** [if (!allComments.some(c => c.id === comment.id)) allComments.push(comment)]. *)
Definition pushUnique (allComments : list RedditComment) (comment : RedditComment)
  : list RedditComment :=
  if hasId allComments (id comment) then allComments else allComments ++ [comment].

(** [commentsArrays.flat().forEach(...)] for one chunk. *)
Definition mergeChunk (allComments chunk : list RedditComment) : list RedditComment :=
  fold_left pushUnique chunk allComments.

Definition mergeChunks (allComments : list RedditComment)
  (chunks : list (list RedditComment)) : list RedditComment :=
  fold_left mergeChunk chunks allComments.

(** The callback of the direct search's [forEach]. *)
Definition pushSearchItem (item : Item) (allComments : list RedditComment)
  : result (list RedditComment) :=
  match data item with
  | Some d =>
      if String.eqb (kind item) "t1" then
        if isDeleted d then Ok allComments
        else if hasId allComments (d_id d) then Ok allComments
        else
          match toISOString (optMul1000 (d_created_utc d)) with
          | Throw e => Throw e
          | Ok ts =>
              Ok (allComments ++
                  [mkComment (d_id d) (strOr (d_author d) "[deleted]")
                     (strOr (d_body d) "") (strOr (d_subreddit d) "")
                     (numOr0 (d_ups d)) ts (d_permalink d) None None
                     (Some (numOr0 (d_total_awards_received d))) None])
          end
      else Ok allComments
  | None => Ok allComments
  end.

(** The [forEach] inside its [try]: a throw ends the loop and keeps what was
    pushed before it. *)
Fixpoint pushSearchItems (children : list Item) (allComments : list RedditComment)
  : list RedditComment :=
  match children with
  | [] => allComments
  | item :: r =>
      match pushSearchItem item allComments with
      | Ok allComments' => pushSearchItems r allComments'
      | Throw _ => allComments
      end
  end.

Definition searchTermsOf (q : string) : list string :=
  filter (fun term => (0 <? String.length term)%nat) (splitWs (trim (toLowerCase q))).

(** The comments gathered when processing starts. *)
Definition harvest (h : Harvest) (limit : nat) (searchTerms : list string)
  : list RedditComment :=
  let allComments := mergeChunks [] (arrived h) in
  if (length allComments <? limit * 2)%nat && negb (isNil searchTerms) then
    let allComments := mergeChunks allComments (late h) in
    match searchReply h with
    | Ok (Listing children) => pushSearchItems children allComments
    | _ => allComments
    end
  else allComments.

Section SearchComments.
Variable loadTime : Z.

(** The [try] block of [searchComments], entered at the instant [now]. *)
Definition searchComments_try (h : Harvest) (params : SearchParams) (page : nat)
  (now : Z) (searchCache : SearchCache.t)
  : result (list RedditComment) * SearchCache.t :=
  match getCacheKey params page with
  | Throw e => (Throw e, searchCache)
  | Ok cacheKey =>
      match SearchCache.get now cacheKey searchCache with
      | (Some cachedResults, searchCache1) => (Ok cachedResults, searchCache1)
      | (None, searchCache1) =>
          match query params with
          | QOther => (Throw queryMustBeString, searchCache1)
          | QString q =>
              let searchTerms := searchTermsOf q in
              let regexes := searchTerms in
              let allComments := harvest h (limit params) searchTerms in
              let processedComments :=
                if isNil allComments then mockComments loadTime
                else processCommentsWithSearchTerms (now + elapsed h) allComments
                       searchTerms regexes (filterType params) q (sortBy params)
                       (minUpvotes params) in
              match SearchCache.set (now + elapsed h) cacheKey processedComments
                      searchCache1 with
              | Throw e => (Throw e, searchCache1)
              | Ok searchCache2 =>
                  (Ok (jsSlice 0 (Z.of_nat (limit params)) processedComments),
                   searchCache2)
              end
          end
      end
  end.

(** [searchComments(params, page)]: the [catch] turns every throw into the
    demonstration dataset, cut to [limit]. *)
Definition searchComments (h : Harvest) (params : SearchParams) (page : nat)
  (now : Z) (searchCache : SearchCache.t)
  : result (list RedditComment) * SearchCache.t :=
  match searchComments_try h params page now searchCache with
  | (Ok comments, searchCache') => (Ok comments, searchCache')
  | (Throw _, searchCache') =>
      (Ok (jsSlice 0 (Z.of_nat (limit params)) (mockComments loadTime)), searchCache')
  end.

End SearchComments.

(** The comments a call hands to its caller; [None] if it throws. *)
Definition returned (out : result (list RedditComment) * SearchCache.t)
  : option (list RedditComment) :=
  match out with
  | (Ok l, _) => Some l
  | (Throw _, _) => None
  end.

End Client.

(* ------------------------------------------------------------------------- *)
(** ** The server module: [searchComments] of [server/routes.ts] *)

Definition isUnreserved (c : ascii) : bool :=
  let n := nat_of_ascii c in
  (((48 <=? n) && (n <=? 57)) || ((65 <=? n) && (n <=? 90)) ||
   ((97 <=? n) && (n <=? 122)) ||
   existsb (Nat.eqb n) [45; 95; 46; 33; 126; 42; 39; 40; 41])%nat.

Definition hexDigit (n : nat) : ascii :=
  nth n (list_ascii_of_string "0123456789ABCDEF") "0"%char.

(** [encodeURIComponent] on the bytes of the string. *)
Fixpoint encodeURIComponent (s : string) : string :=
  match s with
  | EmptyString => EmptyString
  | String c r =>
      if isUnreserved c then String c (encodeURIComponent r)
      else
        let n := nat_of_ascii c in
        String "%" (String (hexDigit (n / 16)) (String (hexDigit (n mod 16))
          (encodeURIComponent r)))
  end.

(** [s.split(sep)] for a one-character separator. *)
Fixpoint splitOn_from (sep : ascii) (cur : string) (s : string) : list string :=
  match s with
  | EmptyString => [cur]
  | String c r =>
      if Ascii.eqb c sep then cur :: splitOn_from sep EmptyString r
      else splitOn_from sep (cur ++ String c EmptyString) r
  end.

Definition splitOn (sep : ascii) (s : string) : list string :=
  splitOn_from sep EmptyString s.

Module Server.

(** The parameters as the route builds them: [minUpvotes] and [limit] are
    [Number(...)] of what the request carries, not validated. *)
Record SearchParams : Type := mkParams {
  query : QueryValue;
  sortBy : string;
  minUpvotes : Num.t;
  limit : Num.t
}.

Record SearchResult : Type := mkResult {
  comments : list RedditComment;
  totalResults : nat;
  subreddits : nat;
  cacheSize : nat
}.

Definition getCacheKey (params : SearchParams) (page : Num.t) : result string :=
  match query params with
  | QString q =>
      Ok (toLowerCase q ++ "_" ++ sortBy params ++ "_" ++ Num.show (minUpvotes params)
          ++ "_" ++ Num.show (limit params) ++ "_" ++ Num.show page)%string
  | QOther => Throw TypeError
  end.

(** [Array.from(new Set(l.map(c => c.subreddit))).length]. *)
Definition countSubreddits (l : list RedditComment) : nat :=
  length (nodup string_dec (map subreddit l)).

Definition popularSubreddits : list string :=
  ["AskReddit"; "news"; "worldnews"; "politics"; "gaming";
   "movies"; "music"; "science"; "technology"; "books";
   "sports"; "ELI5"; "IAmA"; "TIL"; "LifeProTips";
   "Showerthoughts"; "askscience"; "history"; "space";
   "programming"; "javascript"; "python"; "reactjs"; "webdev"].

Record PostRef : Type := mkPost {
  post_id : string;
  post_subreddit : string
}.

(** [children.filter(post => post.kind === 't3').map(post => ({id: post.data.id,
    subreddit: post.data.subreddit}))]; reading [id] off a missing [data] is a
    TypeError.  A missing subreddit is printed as [undefined]. *)
Fixpoint postsOfChildren (children : list Item) : result (list PostRef) :=
  match children with
  | [] => Ok []
  | item :: r =>
      if String.eqb (kind item) "t3" then
        match data item with
        | None => Throw TypeError
        | Some d =>
            match postsOfChildren r with
            | Ok posts =>
                Ok (mkPost (d_id d)
                      (match d_subreddit d with Some s => s | None => "undefined" end)
                    :: posts)
            | Throw e => Throw e
            end
        end
      else postsOfChildren r
  end.

Definition postsOf (d : ApiData) : result (list PostRef) :=
  match d with
  | Listing children => postsOfChildren children
  | _ => Throw TypeError
  end.

Definition searchUrl (q : string) : string :=
  (REDDIT_API_BASE ++ "/search.json?q=" ++ encodeURIComponent q
   ++ "&sort=relevance&t=all&limit=15")%string.

Definition hotUrl (subreddit : string) : string :=
  (REDDIT_API_BASE ++ "/r/" ++ subreddit ++ "/hot.json?limit=5")%string.

(** The loop over the first five popular subreddits, each turn in its own
    [try]. *)
Fixpoint hotPosts (w : World) (subs : list string) (posts : list PostRef) (s : State)
  : list PostRef * State :=
  match subs with
  | [] => (posts, s)
  | subreddit :: r =>
      match axiosGet w (hotUrl subreddit) s with
      | (Body d, s1) =>
          match postsOf d with
          | Ok subredditPosts => hotPosts w r (posts ++ subredditPosts) s1
          | Throw _ => hotPosts w r posts s1
          end
      | (_, s1) => hotPosts w r posts s1
      end
  end.

(** The fetches of [Promise.all], taken one after the other in the order of
    the posts; the result is already flattened. *)
Fixpoint fetchAll (w : World) (posts : list PostRef) (s : State)
  : list RedditComment * State :=
  match posts with
  | [] => ([], s)
  | post :: r =>
      let (cs, s1) := fetchCommentsFromPost w (post_id post) (post_subreddit post) s in
      let (rest, s2) := fetchAll w r s1 in
      (cs ++ rest, s2)
  end.

Definition addMatchScore (queryLower : string) (comment : RedditComment)
  : RedditComment :=
  let bodyLower := toLowerCase (body comment) in
  let exact :=
    if includes bodyLower queryLower then
      10 + match indexOf bodyLower queryLower with
           | Some i => if (i <? 20)%nat then 5 else 0
           | None => 5
           end
    else 0 in
  let keywords :=
    filter (fun word => (3 <? String.length word)%nat) (splitOn " " queryLower) in
  let withKeywords :=
    fold_left (fun m keyword => if includes bodyLower keyword then m + 3 else m)
              keywords exact in
  withMatchScore comment
    (Fin (IZR withKeywords + Rmin (IZR (upvotes comment) / 100) 5
          + IZR (numOr0 (awards comment)) * 2)%R).

Definition sortComments (sortBy : string) (l : list RedditComment) : list RedditComment :=
  if String.eqb sortBy "upvotes" then jsSort byUpvotes l
  else if String.eqb sortBy "timestamp" then jsSort byTimestamp l
  else if String.eqb sortBy "awards" then jsSort byAwards l
  else jsSort byMatchScore l.

Definition isNil {A : Type} (l : list A) : bool :=
  match l with
  | [] => true
  | _ => false
  end.

(** Filtering, scoring and sorting of the fetched comments: the first
    filter rejects on [upvotes < minUpvotes], the second keeps on
    [upvotes >= minUpvotes]. *)
Definition rankComments (q : string) (sortBy : string) (minUpvotes : Num.t)
  (allComments : list RedditComment) : list RedditComment :=
  let queryLower := toLowerCase q in
  let filteredComments :=
    filter (fun c => negb (Num.int_lt (upvotes c) minUpvotes)
                     && includes (toLowerCase (body c)) queryLower) allComments in
  let filteredComments :=
    if isNil filteredComments
    then filter (fun c => Num.int_ge (upvotes c) minUpvotes) allComments
    else filteredComments in
  sortComments sortBy (map (addMatchScore queryLower) filteredComments).

Section SearchComments.
Variable loadTime : Z.

(** The [try] block of [searchComments]. *)
Definition searchComments_try (w : World) (params : SearchParams) (page : Num.t)
  (s : State) (searchCache : SearchCache.t)
  : result SearchResult * State * SearchCache.t :=
  match getCacheKey params page with
  | Throw e => (Throw e, s, searchCache)
  | Ok cacheKey =>
      match SearchCache.get (clock s) cacheKey searchCache with
      | (Some cachedResults, searchCache1) =>
          (Ok (mkResult cachedResults (length cachedResults * 3)
                 (countSubreddits cachedResults) (SearchCache.size searchCache1)),
           s, searchCache1)
      | (None, searchCache1) =>
          match query params with
          | QOther => (Throw queryMustBeString, s, searchCache1)
          | QString q =>
              match getRedditAccessToken w s with
              | (Throw e, s1) => (Throw e, s1, searchCache1)
              | (Ok _, s1) =>
                  match axiosGet w (searchUrl q) s1 with
                  | (HttpError status, s2) =>
                      (Throw (AxiosError (Some status)), s2, searchCache1)
                  | (NetworkError, s2) => (Throw (AxiosError None), s2, searchCache1)
                  | (Body d, s2) =>
                      match postsOf d with
                      | Throw e => (Throw e, s2, searchCache1)
                      | Ok posts =>
                          let (posts, s3) :=
                            if isNil posts
                            then hotPosts w (firstn 5 popularSubreddits) posts s2
                            else (posts, s2) in
                          let (allComments, s4) := fetchAll w (firstn 10 posts) s3 in
                          let filteredComments :=
                            rankComments q (sortBy params) (minUpvotes params)
                                         allComments in
                          let startIndex :=
                            Num.mul (Num.sub page (Num.Int 1)) (limit params) in
                          let paginatedResults :=
                            jsSliceNum startIndex (Num.add startIndex (limit params))
                                       filteredComments in
                          match SearchCache.set (clock s4) cacheKey paginatedResults
                                  searchCache1 with
                          | Throw e => (Throw e, s4, searchCache1)
                          | Ok searchCache2 =>
                              (Ok (mkResult paginatedResults (length filteredComments)
                                     (countSubreddits filteredComments)
                                     (SearchCache.size searchCache2)),
                               s4, searchCache2)
                          end
                      end
                  end
              end
          end
      end
  end.

(** [searchComments(params, page)]: on any throw, the demonstration dataset. *)
Definition searchComments (w : World) (params : SearchParams) (page : Num.t)
  (s : State) (searchCache : SearchCache.t)
  : result SearchResult * State * SearchCache.t :=
  match searchComments_try w params page s searchCache with
  | (Ok r, s', searchCache') => (Ok r, s', searchCache')
  | (Throw _, s', searchCache') =>
      (Ok (mkResult (mockComments loadTime) (length (mockComments loadTime))
             (countSubreddits (mockComments loadTime)) (SearchCache.size searchCache')),
       s', searchCache')
  end.

End SearchComments.

(** The comments a call hands to its caller; [None] if it throws. *)
Definition returned (out : result SearchResult * State * SearchCache.t)
  : option (list RedditComment) :=
  match out with
  | (Ok r, _, _) => Some (comments r)
  | (Throw _, _, _) => None
  end.

End Server.

(* ------------------------------------------------------------------------- *)
(** ** The client module: choice of the subreddits to search

    The first statements of [searchComments] after the search terms are
    built.  [rand n] is the n-th value of [Math.floor(Math.random() * k)]
    before it is reduced below [k]. *)

Definition topics : list (string * list string) :=
  [("tech", ["technology"; "programming"; "webdev"; "coding"; "compsci"]);
   ("science", ["science"; "askscience"; "physics"; "chemistry"; "biology"]);
   ("news", ["news"; "worldnews"; "politics"; "currentevents"]);
   ("entertainment", ["movies"; "television"; "music"; "gaming"]);
   ("sports", ["sports"; "nba"; "soccer"; "nfl"; "baseball"])].

(** Some search term is part of, or contains, one of the related names. *)
Definition topicMatches (relatedTerms searchTerms : list string) : bool :=
  existsb (fun term =>
             existsb (fun rt => includes rt term || includes term rt) relatedTerms)
          searchTerms.

(** The loop over [Object.entries(topics)]: one random name of each topic
    that matches. *)
Fixpoint pickTopics (rand : nat -> nat) (draw : nat) (ts : list (string * list string))
  (searchTerms : list string) : list string :=
  match ts with
  | [] => []
  | (_, relatedTerms) :: r =>
      if topicMatches relatedTerms searchTerms
      then nth (rand draw mod length relatedTerms) relatedTerms ""
           :: pickTopics rand (S draw) r searchTerms
      else pickTopics rand draw r searchTerms
  end.

(** [[...new Set(l)]]: the first occurrence of each string, in order. *)
Fixpoint uniqueFrom (seen l : list string) : list string :=
  match l with
  | [] => []
  | x :: r =>
      if existsb (String.eqb x) seen then uniqueFrom seen r
      else x :: uniqueFrom (x :: seen) r
  end.

Definition unique (l : list string) : list string := uniqueFrom [] l.

Definition nonEmpty (s : string) : bool :=
  match s with
  | EmptyString => false
  | _ => true
  end.

Definition selectSubreddits (rand : nat -> nat) (filterType query : string) (page : nat)
  (searchTerms : list string) : list string :=
  unique
    (if String.eqb filterType "subreddit" && nonEmpty (trim query)
     then [trim query]
     else "all" ::
          (if (page =? 1)%nat
           then "popular" :: "trending" :: pickTopics rand 0 topics searchTerms
           else [])).

(** [Math.ceil(limit / n)] for whole numbers, [n] not 0. *)
Definition ceilDiv (limit n : nat) : nat := ((limit + n - 1) / n)%nat.

Definition postsPerSubreddit (limit : nat) (subreddits : list string) : nat :=
  ceilDiv limit (length subreddits).

(* ------------------------------------------------------------------------- *)
(** ** The client module: what the search page does with results and votes *)


Inductive Direction : Type := up | down.

Definition Direction_eqb (a b : Direction) : bool :=
  match a, b with
  | up, up | down, down => true
  | _, _ => false
  end.

(** [userVotes], an object indexed by comment id. *)
Definition Votes : Type := string -> option Direction.

Definition noVotes : Votes := fun _ => None.

Definition voteOf (v : option Direction) (d : Direction) : bool :=
  match v with
  | Some d' => Direction_eqb d' d
  | None => false
  end.

(** [handleVote(id, direction)] on the [userVotes] and [comments] of the
    render the callback belongs to (it is made anew whenever [userVotes]
    changes), so that the [userVotes] it closes over and the one the state
    update receives are the same. *)
Definition handleVote (i : string) (direction : Direction)
  (st : Votes * list RedditComment) : Votes * list RedditComment :=
  let (userVotes, comments) := st in
  let currentVote := userVotes i in
  let newVotes : Votes :=
    if voteOf currentVote direction
    then fun j => if String.eqb j i then None else userVotes j
    else fun j => if String.eqb j i then Some direction else userVotes j in
  let update (comment : RedditComment) : RedditComment :=
    if negb (String.eqb (id comment) i) then comment
    else
      let updatedUpvotes := upvotes comment in
      let updatedUpvotes :=
        if voteOf currentVote up then updatedUpvotes - 1 else updatedUpvotes in
      let updatedUpvotes :=
        if voteOf currentVote down then updatedUpvotes + 1 else updatedUpvotes in
      let updatedUpvotes :=
        if Direction_eqb direction up then updatedUpvotes + 1 else updatedUpvotes in
      let updatedUpvotes :=
        if Direction_eqb direction down then updatedUpvotes - 1 else updatedUpvotes in
      withUpvotes comment updatedUpvotes in
  (newVotes, map update comments).

(** The update of [comments] when the results of a page arrive: page 1
    replaces the list, a later page is appended; then duplicates are
    filtered out. *)
Definition showResults (page : nat) (prevComments results : list RedditComment)
  : list RedditComment :=
  removeDuplicates (if (page =? 1)%nat then results else prevComments ++ results).

(** [setHasMore(results.length >= searchParams.limit)]. *)
Definition hasMore (results : list RedditComment) (limit : nat) : bool :=
  (limit <=? length results)%nat.

(** The first occurrence of each id, read off with the ids seen so far. *)
Fixpoint firstOccurrences (seen : list string) (l : list RedditComment)
  : list RedditComment :=
  match l with
  | [] => []
  | c :: r =>
      if existsb (String.eqb (id c)) seen then firstOccurrences seen r
      else c :: firstOccurrences (id c :: seen) r
  end.

(* ------------------------------------------------------------------------- *)
(** ** The client module: [highlightSearchTerms] *)

Inductive Part : Type :=
  | Plain (text : string)
  | Highlight (text : string).

Definition partText (p : Part) : string :=
  match p with
  | Plain t => t
  | Highlight t => t
  end.

Fixpoint takeChars (n : nat) (s : string) : string :=
  match n, s with
  | O, _ => EmptyString
  | S k, EmptyString => EmptyString
  | S k, String c r => String c (takeChars k r)
  end.

(** The length of the match of the first alternative of the combined
    expression that matches at the head of [s] (the [i] flag on ASCII text,
    as for [countMatches]). *)
Fixpoint firstMatch (terms : list string) (s : string) : option nat :=
  match terms with
  | [] => None
  | t :: r =>
      if startsWith (toLowerCase s) (toLowerCase t) then Some (String.length t)
      else firstMatch r s
  end.

Definition plainPart (plain : string) : list Part :=
  match plain with
  | EmptyString => []
  | _ => [Plain plain]
  end.

(** The loop over [text.matchAll(combinedRegex)] and the closing span:
    [skip] characters still belong to the last match, [plain] is the text
    read since. *)
Fixpoint highlightScan (terms : list string) (skip : nat) (plain : string) (s : string)
  : list Part :=
  match s with
  | EmptyString => plainPart plain
  | String c r =>
      match skip with
      | S k => highlightScan terms k plain r
      | O =>
          match firstMatch terms s with
          | Some (S n) =>
              plainPart plain ++
              Highlight (takeChars (S n) s) :: highlightScan terms n EmptyString r
          | _ => highlightScan terms 0 (plain ++ String c EmptyString) r
          end
      end
  end.

Definition highlightSearchTerms (text query : string) : list Part :=
  if negb (nonEmpty (trim query)) then [Plain text]
  else
    let terms := filter (fun term => (0 <? String.length term)%nat)
                        (splitWs (toLowerCase (trim query))) in
    match terms with
    | [] => [Plain text]
    | _ => highlightScan terms 0 EmptyString text
    end.

(* ------------------------------------------------------------------------- *)
(** ** The server module: the route [/api/reddit/comments] *)

(** The [query] parameter as Express hands it over. *)
Inductive RouteQuery : Type :=
  | QueryMissing
  | QueryText (s : string)
  | QueryRepeated.

Inductive Response : Type :=
  | Status400 (message : string)
  | Status200 (body : Server.SearchResult)
  | Status500 (error : JsError).

Definition optOr {A : Type} (o : option A) (d : A) : A :=
  match o with
  | Some a => a
  | None => d
  end.

(** The handler.  A numeric parameter that the request carries is given as
    what [Number(...)] makes of it, [None] standing for a parameter that is
    absent and takes its default; the answer 500 carries the error whose
    message it sends. *)
Definition commentsRoute (loadTime : Z) (w : World) (query : RouteQuery)
  (sortBy : option string) (minUpvotes limit page : option Num.t)
  (s : State) (searchCache : SearchCache.t) : Response * State * SearchCache.t :=
  match query with
  | QueryMissing | QueryText EmptyString =>
      (Status400 "Query parameter is required", s, searchCache)
  | _ =>
      let searchParams :=
        Server.mkParams match query with
                        | QueryText q => QString q
                        | _ => QOther
                        end
                        (optOr sortBy "relevance") (optOr minUpvotes (Num.Int 10))
                        (optOr limit (Num.Int 25)) in
      match Server.searchComments loadTime w searchParams (optOr page (Num.Int 1)) s
              searchCache with
      | (Ok results, s', searchCache') => (Status200 results, s', searchCache')
      | (Throw error, s', searchCache') => (Status500 error, s', searchCache')
      end
  end.

(* ------------------------------------------------------------------------- *)
(** ** Predicates and sample inputs used in the statements below *)

(** A cache of capacity 3 that is full; its oldest entry is the second. *)
Definition fullCache : SearchCache.t :=
  SearchCache.mkCache
    [("b", SearchCache.mkEntry 20 []); ("a", SearchCache.mkEntry 10 []);
     ("c", SearchCache.mkEntry 30 [])] 3 60000.

(** No token is granted and no request gets through. *)
Definition failingWorld : World :=
  mkWorld (fun _ => ExchangeFailed) (fun _ => 0) (fun _ _ => NetworkError)
          (fun _ => 0) (fun _ => 0%nat).

(** Tokens are granted, and every GET is answered with HTTP 429. *)
Definition rateLimitingWorld : World :=
  mkWorld (fun _ => Granted "token" 3600) (fun _ => 0) (fun _ _ => HttpError 429)
          (fun _ => 0) (fun _ => 0%nat).

(** [a] is below [b] as far as [<] can tell: [b < a] is false.  The relation
    holds as soon as one side is [NaN]. *)
Definition notAbove (a b : jsnum) : Prop :=
  match a, b with
  | NaN, _ | _, NaN => True
  | NInf, _ | _, PInf => True
  | Fin x, Fin y => (x <= y)%R
  | _, _ => False
  end.

(** A comment node and a post node as the content API serves them. *)
Definition rustComment : Item :=
  mkItem "t1" (Some (mkPayload "c1" (Some "alice") (Some "Rust is fast") None (Some 7)
                       (Some 1700000000) None (Some 0) None)).

Definition rustPost : Item :=
  mkItem "t3" (Some (mkPayload "p1" (Some "bob") None (Some "programming") (Some 10)
                       (Some 1700000000) None None None)).

(** A content API that lists the same post twice in the search result, and
    serves one comment for it. *)
Definition repeatingWorld : World :=
  mkWorld (fun _ => Granted "token" 3600) (fun _ => 0)
          (fun n _ => match n with
                      | O => Body (Listing [rustPost; rustPost])
                      | _ => Body (ArrayOf [Some []; Some [rustComment]])
                      end)
          (fun _ => 0) (fun _ => 0%nat).

Definition rustParams : Server.SearchParams :=
  Server.mkParams (QString "rust") "upvotes" (Num.Int 0) (Num.Int 25).

(** The same request with room for one comment only. *)
Definition rustOneParams : Server.SearchParams :=
  Server.mkParams (QString "rust") "upvotes" (Num.Int 0) (Num.Int 1).

(** Every list the cache holds has distinct ids. *)
Definition cacheUnique (c : SearchCache.t) : Prop :=
  forall k e, In (k, e) (SearchCache.cache c) -> NoDup (ids (SearchCache.e_results e)).

(** No source delivers a comment and the direct search fails. *)
Definition silentHarvest : Client.Harvest :=
  Client.mkHarvest [] [] (Throw (AxiosError None)) 0.

Definition oneResultParams : Client.SearchParams :=
  Client.mkParams (QString "zzz") "all" "week" "relevance" 0 1.

Definition twoResultsParams : Server.SearchParams :=
  Server.mkParams (QString "zzz") "relevance" (Num.Int 0) (Num.Int 2).

(** Tokens are granted; no GET gets through. *)
Definition grantingWorld : World :=
  mkWorld (fun _ => Granted "token" 3600) (fun _ => 0) (fun _ _ => NetworkError)
          (fun _ => 0) (fun _ => 0%nat).

(** The waits a caller can meet. *)
Definition usualBackoff (ev : Event) : Prop :=
  match ev with
  | Sleep ms => ms = 2000 \/ ms = 4000 \/ ms = 8000
  | _ => True
  end.

(** Tokens are granted, and every GET is answered with HTTP 500. *)
Definition brokenWorld : World :=
  mkWorld (fun _ => Granted "token" 3600) (fun _ => 0) (fun _ _ => HttpError 500)
          (fun _ => 0) (fun _ => 0%nat).

(** Tokens are granted; the first GET is answered with HTTP 401, the later
    ones with a body. *)
Definition expiredTokenWorld : World :=
  mkWorld (fun _ => Granted "token" 3600) (fun _ => 0)
          (fun n _ => match n with
                      | O => HttpError 401
                      | _ => Body OtherData
                      end)
          (fun _ => 0) (fun _ => 0%nat).

(** A removed comment that has one reply. *)
Definition deletedWithReply : Payload Item :=
  mkPayload "d1" (Some "someone") (Some "[removed]") None (Some 3) (Some 1700000000) None
            None (Some [rustComment]).

(** What every extracted comment looks like. *)
Definition wellFormedExtract (sub postId : string) (c : RedditComment) : Prop :=
  subreddit c = sub /\
  permalink c = Some ("/r/" ++ sub ++ "/comments/" ++ postId ++ "/" ++ id c)%string /\
  body c <> "[deleted]" /\ body c <> "[removed]" /\
  sentiment c = Some (classifySentiment (body c)) /\
  matchScore c = None /\ score c = None /\
  Z.abs (timestamp c) <= 8640000000000000.

(** A comment without [created_utc]. *)
Definition undatedComment : Payload Item :=
  mkPayload "c9" (Some "carol") (Some "no date") None (Some 1) None None None None.

(** The first, the last character of [s] is a word character. *)
Definition headIsWord (s : string) : bool :=
  match s with
  | EmptyString => false
  | String c _ => isWordChar c
  end.

Fixpoint lastIsWord (s : string) : bool :=
  match s with
  | EmptyString => false
  | String c EmptyString => isWordChar c
  | String _ r => lastIsWord r
  end.

(** [w], one of [ws], stands in [s] between two word boundaries. *)
Definition occursAsWord (ws : list string) (s : string) : Prop :=
  exists pre w post,
    s = (pre ++ w ++ post)%string /\ In w ws /\
    lastIsWord pre = false /\ headIsWord post = false.

(** [b] is [a] with, at most, other values in [matchScore] and [score]. *)
Definition sameButScores (a b : RedditComment) : Prop :=
  id b = id a /\ author b = author a /\ body b = body a /\ subreddit b = subreddit a /\
  upvotes b = upvotes a /\ timestamp b = timestamp a /\ permalink b = permalink a /\
  awards b = awards a /\ sentiment b = sentiment a.

(** Every character of [s] passes [f]. *)
Fixpoint allChars (f : ascii -> bool) (s : string) : bool :=
  match s with
  | EmptyString => true
  | String c r => f c && allChars f r
  end.

(** The text is ASCII: every character code is below 128. *)
Definition isAscii (s : string) : bool :=
  allChars (fun c => (nat_of_ascii c <? 128)%nat) s.

(** Tokens are granted, and every listing is empty. *)
Definition quietWorld : World :=
  mkWorld (fun _ => Granted "token" 3600) (fun _ => 0) (fun _ _ => Body (Listing []))
          (fun _ => 0) (fun _ => 0%nat).

(** The text of the fragments, put together. *)
Definition joinParts (parts : list Part) : string :=
  fold_right (fun p acc => (partText p ++ acc)%string) EmptyString parts.

(** What a recorded vote contributes to a count. *)
Definition voteValue (v : option Direction) : Z :=
  match v with
  | Some up => 1
  | Some down => -1
  | None => 0
  end.

(* ========================================================================= *)
(** * Properties *)

(* ------------------------------------------------------------------------- *)
(** ** The sort *)

Section SortFacts.
Context {A : Type} (le : A -> A -> bool).

Lemma sort_insert_perm x l : Permutation (x :: l) (sort_insert le x l).
Proof.
  induction l as [|y r IH]; simpl; [reflexivity|].
  destruct (le x y); [reflexivity|].
  rewrite perm_swap. now apply perm_skip.
Qed.

Lemma jsSort_perm l : Permutation l (jsSort le l).
Proof.
  induction l as [|x r IH]; simpl; [constructor|].
  rewrite <- sort_insert_perm. now apply perm_skip.
Qed.

Lemma jsSort_length l : length (jsSort le l) = length l.
Proof. symmetry. apply Permutation_length, jsSort_perm. Qed.

Lemma jsSort_nil_inv l : jsSort le l = [] -> l = [].
Proof.
  intros H. apply length_zero_iff_nil.
  rewrite <- jsSort_length, H. reflexivity.
Qed.

Hypothesis le_total : forall a b, le a b = true \/ le b a = true.
Hypothesis le_trans : forall a b c, le a b = true -> le b c = true -> le a c = true.

(** The element a sort by a total preorder puts first is a least one. *)
Lemma jsSort_head_least l m t :
  jsSort le l = m :: t -> In m l /\ forall y, In y l -> le m y = true.
Proof.
  revert m t. induction l as [|x r IH]; simpl; intros m t H; [discriminate|].
  destruct (jsSort le r) as [|m' t'] eqn:E.
  - apply jsSort_nil_inv in E. subst r. simpl in H. injection H as <- _.
    split; [now left|]. intros y [<-|[]]. destruct (le_total x x); assumption.
  - destruct (IH m' t' eq_refl) as [Hin Hmin]. simpl in H.
    destruct (le x m') eqn:Hle; injection H as <- _.
    + split; [now left|]. intros y [<-|Hy].
      * destruct (le_total x x); assumption.
      * eapply le_trans; [exact Hle|]. now apply Hmin.
    + split; [now right|]. intros y [<-|Hy].
      * destruct (le_total x m') as [H1|H1]; [congruence|exact H1].
      * now apply Hmin.
Qed.
End SortFacts.

(* ------------------------------------------------------------------------- *)
(** ** The cache *)

Module SearchCacheFacts.
Import SearchCache.

Lemma map_get_set_same k e m : map_get k (map_set k e m) = Some e.
Proof.
  induction m as [|[k' e'] r IH]; simpl.
  - now rewrite String.eqb_refl.
  - destruct (String.eqb k k') eqn:E; simpl; rewrite ?String.eqb_refl, ?E; auto.
Qed.

Lemma map_get_set_other k k' e m :
  k' <> k -> map_get k' (map_set k e m) = map_get k' m.
Proof.
  intros Hne. induction m as [|[k2 e2] r IH]; simpl.
  - destruct (String.eqb_spec k' k); [contradiction|reflexivity].
  - destruct (String.eqb_spec k k2) as [->|]; simpl.
    + destruct (String.eqb_spec k' k2); [contradiction|reflexivity].
    + destruct (String.eqb k' k2); auto.
Qed.

Lemma map_get_delete_same k m : map_get k (map_delete k m) = None.
Proof.
  induction m as [|[k' e'] r IH]; simpl; [reflexivity|].
  destruct (String.eqb k k') eqn:E; simpl; rewrite ?E; auto.
Qed.

Lemma map_get_delete_other k k' m :
  k' <> k -> map_get k' (map_delete k m) = map_get k' m.
Proof.
  intros Hne. induction m as [|[k2 e2] r IH]; simpl; [reflexivity|].
  destruct (String.eqb_spec k k2) as [->|]; simpl.
  - destruct (String.eqb_spec k' k2); [contradiction|exact IH].
  - destruct (String.eqb k' k2); auto.
Qed.

Lemma map_get_In k e m : map_get k m = Some e -> In (k, e) m.
Proof.
  induction m as [|[k' e'] r IH]; simpl; [discriminate|].
  destruct (String.eqb_spec k k') as [->|]; intros H.
  - injection H as ->. now left.
  - right. auto.
Qed.

Lemma map_get_None k m : map_get k m = None -> ~ In k (map fst m).
Proof.
  induction m as [|[k' e'] r IH]; simpl; [tauto|].
  destruct (String.eqb_spec k k') as [->|]; [discriminate|].
  intros H [Heq|Hin]; [congruence|]. now apply IH.
Qed.

Lemma In_map_get k e m : NoDup (map fst m) -> In (k, e) m -> map_get k m = Some e.
Proof.
  induction m as [|[k' e'] r IH]; simpl; [tauto|].
  intros Hnd [Heq|Hin].
  - injection Heq as -> ->. now rewrite String.eqb_refl.
  - inversion Hnd as [|? ? Hnotin Hnd']; subst.
    destruct (String.eqb_spec k k') as [->|]; [|auto].
    exfalso. apply Hnotin. now apply (in_map fst) in Hin.
Qed.

Lemma map_delete_keys k k' m : In k' (map fst (map_delete k m)) -> In k' (map fst m).
Proof.
  induction m as [|[k2 e2] r IH]; simpl; [tauto|].
  destruct (String.eqb k k2); simpl; tauto.
Qed.

Lemma map_delete_NoDup k m : NoDup (map fst m) -> NoDup (map fst (map_delete k m)).
Proof.
  induction m as [|[k2 e2] r IH]; simpl; [auto|].
  intros Hnd. inversion Hnd; subst.
  destruct (String.eqb k k2); simpl; [auto|].
  constructor; [|auto]. intros Hin. now apply map_delete_keys in Hin.
Qed.

Lemma map_delete_absent k m : ~ In k (map fst m) -> map_delete k m = m.
Proof.
  induction m as [|[k2 e2] r IH]; simpl; [reflexivity|].
  intros Hn. destruct (String.eqb_spec k k2) as [->|]; [tauto|].
  f_equal. apply IH. tauto.
Qed.

Lemma map_delete_length_le k m : (length (map_delete k m) <= length m)%nat.
Proof.
  induction m as [|[k2 e2] r IH]; simpl; [lia|].
  destruct (String.eqb k k2); simpl; lia.
Qed.

Lemma map_delete_length_lt k m :
  In k (map fst m) -> (length (map_delete k m) < length m)%nat.
Proof.
  induction m as [|[k2 e2] r IH]; simpl; [tauto|].
  intros Hin. destruct (String.eqb_spec k k2) as [->|].
  - pose proof (map_delete_length_le k2 r). lia.
  - simpl. destruct Hin as [Heq|Hin]; [congruence|]. specialize (IH Hin). lia.
Qed.

(** Deleting a key of a [Map] removes one entry. *)
Lemma map_delete_length k m :
  NoDup (map fst m) -> In k (map fst m) -> S (length (map_delete k m)) = length m.
Proof.
  induction m as [|[k2 e2] r IH]; simpl; [tauto|].
  intros Hnd Hin. inversion Hnd as [|? ? Hnotin Hnd']; subst.
  destruct (String.eqb_spec k k2) as [->|].
  - now rewrite map_delete_absent.
  - simpl. destruct Hin as [Heq|Hin]; [congruence|]. now rewrite IH.
Qed.

Lemma map_set_keys k e k' m :
  In k' (map fst (map_set k e m)) -> k' = k \/ In k' (map fst m).
Proof.
  induction m as [|[k2 e2] r IH]; simpl.
  - intros [H|[]]; auto.
  - destruct (String.eqb_spec k k2) as [->|]; simpl; intros [H|H]; auto.
    destruct (IH H); auto.
Qed.

Lemma map_set_NoDup k e m : NoDup (map fst m) -> NoDup (map fst (map_set k e m)).
Proof.
  induction m as [|[k2 e2] r IH]; simpl.
  - intros _. constructor; [tauto|constructor].
  - intros Hnd. inversion Hnd as [|? ? Hnotin Hnd']; subst.
    destruct (String.eqb_spec k k2) as [->|]; simpl.
    + now constructor.
    + constructor; [|auto]. intros Hin.
      apply map_set_keys in Hin. destruct Hin; [congruence|tauto].
Qed.

Lemma map_set_length_le k e m : (length (map_set k e m) <= S (length m))%nat.
Proof.
  induction m as [|[k2 e2] r IH]; simpl; [lia|].
  destruct (String.eqb k k2); simpl; lia.
Qed.

Lemma map_set_length_ge k e m : (length m <= length (map_set k e m))%nat.
Proof.
  induction m as [|[k2 e2] r IH]; simpl; [lia|].
  destruct (String.eqb k k2); simpl; lia.
Qed.

Lemma byTimestamp_total a b : byTimestamp a b = true \/ byTimestamp b a = true.
Proof. unfold byTimestamp. lia. Qed.

Lemma byTimestamp_trans a b c :
  byTimestamp a b = true -> byTimestamp b c = true -> byTimestamp a c = true.
Proof. unfold byTimestamp. lia. Qed.

(** The key [set] picks for eviction belongs to an entry of least timestamp. *)
Lemma oldest_is_least m oldestKey oldest rest :
  jsSort byTimestamp m = (oldestKey, oldest) :: rest ->
  In (oldestKey, oldest) m /\
  forall k e, In (k, e) m -> e_timestamp oldest <= e_timestamp e.
Proof.
  intros H.
  destruct (jsSort_head_least byTimestamp byTimestamp_total byTimestamp_trans _ _ _ H)
    as [Hin Hmin].
  split; [exact Hin|]. intros k e Hke. specialize (Hmin _ Hke).
  unfold byTimestamp in Hmin. simpl in Hmin. lia.
Qed.

Lemma get_keeps_config now key c :
  maxSize (snd (get now key c)) = maxSize c /\ ttl (snd (get now key c)) = ttl c.
Proof.
  unfold get. destruct (map_get key (cache c)); [|auto].
  destruct (_ >? _); auto.
Qed.

Lemma set_keeps_config now key res c c' :
  set now key res c = Ok c' -> maxSize c' = maxSize c /\ ttl c' = ttl c.
Proof.
  unfold set. destruct (_ <=? _)%nat.
  - destruct (jsSort _ _) as [|[k e] t]; [discriminate|].
    intros H; injection H as <-. auto.
  - intros H; injection H as <-. auto.
Qed.

Lemma get_wf now key c : wf c -> wf (snd (get now key c)).
Proof.
  unfold wf, get. intros H. destruct (map_get key (cache c)); [|exact H].
  destruct (_ >? _); simpl; [now apply map_delete_NoDup|exact H].
Qed.

Lemma get_size_le now key c : (size (snd (get now key c)) <= size c)%nat.
Proof.
  unfold size, get. destruct (map_get key (cache c)); [|simpl; lia].
  destruct (_ >? _); simpl; [apply map_delete_length_le|lia].
Qed.

Lemma set_wf now key res c c' : wf c -> set now key res c = Ok c' -> wf c'.
Proof.
  unfold wf, set. intros H. destruct (_ <=? _)%nat.
  - destruct (jsSort _ _) as [|[k e] t]; [discriminate|].
    intros E; injection E as <-. simpl. now apply map_set_NoDup, map_delete_NoDup.
  - intros E; injection E as <-. simpl. now apply map_set_NoDup.
Qed.

(** A successful [set] leaves at most [maxSize] entries when it started with
    at most that many. *)
Lemma set_size_le now key res c c' :
  (size c <= maxSize c)%nat -> set now key res c = Ok c' -> (size c' <= maxSize c)%nat.
Proof.
  unfold size, set. intros Hle.
  destruct (Nat.leb_spec (maxSize c) (length (cache c))) as [Hfull|Hroom].
  - destruct (jsSort _ _) as [|[k e] t] eqn:E; [discriminate|].
    intros H; injection H as <-. simpl.
    destruct (oldest_is_least _ _ _ _ E) as [Hin _].
    apply (in_map fst) in Hin. simpl in Hin.
    pose proof (map_delete_length_lt _ _ Hin).
    pose proof (map_set_length_le key (mkEntry now res) (map_delete k (cache c))). lia.
  - intros H; injection H as <-. simpl.
    pose proof (map_set_length_le key (mkEntry now res) (cache c)). lia.
Qed.

Lemma step_invariant c o :
  wf c -> (size c <= maxSize c)%nat ->
  wf (step c o) /\ (size (step c o) <= maxSize (step c o))%nat /\
  maxSize (step c o) = maxSize c.
Proof.
  intros Hwf Hle. destruct o as [now key|now key res]; simpl.
  - destruct (get_keeps_config now key c) as [Hm _].
    pose proof (get_size_le now key c). pose proof (get_wf now key c Hwf).
    repeat split; auto; lia.
  - unfold set_state. destruct (set now key res c) as [c'|e] eqn:E; [|auto].
    destruct (set_keeps_config _ _ _ _ _ E) as [Hm _].
    pose proof (set_size_le _ _ _ _ _ Hle E). pose proof (set_wf _ _ _ _ _ Hwf E).
    repeat split; auto; lia.
Qed.

Lemma run_invariant ops c :
  wf c -> (size c <= maxSize c)%nat ->
  wf (run ops c) /\ (size (run ops c) <= maxSize c)%nat /\
  maxSize (run ops c) = maxSize c.
Proof.
  revert c. induction ops as [|o r IH]; intros c Hwf Hle; simpl; [auto|].
  destruct (step_invariant c o Hwf Hle) as (H1 & H2 & H3).
  destruct (IH (step c o) H1 H2) as (H4 & H5 & H6).
  unfold run in *. rewrite H3 in *. auto.
Qed.

End SearchCacheFacts.

(** C5.  An entry written by [set] at the instant [T] is returned by a [get]
    of its key at [T + ttl - 1]; a [get] at [T + ttl + 1] returns nothing and
    leaves the cache with that entry deleted, so that the key is absent. *)
Theorem cache_ttl_boundary (c0 c : SearchCache.t) (T : Z) (key : string)
  (res : list RedditComment) :
  SearchCache.set T key res c0 = Ok c ->
  SearchCache.get (T + SearchCache.ttl c - 1) key c = (Some res, c) /\
  SearchCache.get (T + SearchCache.ttl c + 1) key c =
    (None, SearchCache.with_cache c (SearchCache.map_delete key (SearchCache.cache c))) /\
  SearchCache.map_get key
    (SearchCache.cache (snd (SearchCache.get (T + SearchCache.ttl c + 1) key c))) = None.
Proof.
  intros Hset.
  assert (Hget : SearchCache.map_get key (SearchCache.cache c)
                 = Some (SearchCache.mkEntry T res)).
  { unfold SearchCache.set in Hset. destruct (_ <=? _)%nat.
    - destruct (jsSort _ _) as [|[k e] t]; [discriminate|].
      injection Hset as <-. apply SearchCacheFacts.map_get_set_same.
    - injection Hset as <-. apply SearchCacheFacts.map_get_set_same. }
  assert (Hlive : SearchCache.get (T + SearchCache.ttl c - 1) key c = (Some res, c)).
  { unfold SearchCache.get. rewrite Hget. simpl.
    destruct (Z.gtb_spec (T + SearchCache.ttl c - 1 - T) (SearchCache.ttl c)); [lia|].
    reflexivity. }
  assert (Hdead : SearchCache.get (T + SearchCache.ttl c + 1) key c =
    (None, SearchCache.with_cache c (SearchCache.map_delete key (SearchCache.cache c)))).
  { unfold SearchCache.get. rewrite Hget. simpl.
    destruct (Z.gtb_spec (T + SearchCache.ttl c + 1 - T) (SearchCache.ttl c)); [|lia].
    reflexivity. }
  repeat split; [exact Hlive|exact Hdead|].
  rewrite Hdead. simpl. apply SearchCacheFacts.map_get_delete_same.
Qed.

Lemma cache_ttl_boundary_witness :
  exists c, SearchCache.set 1000 "k" (mockComments 0) SearchCache.default = Ok c /\
    SearchCache.get (1000 + SearchCache.ttl c - 1) "k" c = (Some (mockComments 0), c) /\
    SearchCache.get (1000 + SearchCache.ttl c + 1) "k" c =
      (None, SearchCache.with_cache c (SearchCache.map_delete "k" (SearchCache.cache c))) /\
    SearchCache.map_get "k"
      (SearchCache.cache (snd (SearchCache.get (1000 + SearchCache.ttl c + 1) "k" c)))
    = None.
Proof.
  eexists. split; [reflexivity|].
  apply (cache_ttl_boundary SearchCache.default _ 1000 "k" (mockComments 0)).
  reflexivity.
Defined.

(** C6.  On a cache that holds exactly [maxSize] entries (a positive number),
    [set] deletes one entry, whose timestamp is the smallest in the cache,
    keeps every other entry as it was, and then stores the new results under
    the key with the timestamp [now]; and whatever [get] and [set] calls
    follow, the cache never holds more than [maxSize] entries. *)
Theorem cache_evicts_oldest_and_stays_bounded (c : SearchCache.t) (now : Z)
  (key : string) (res : list RedditComment) :
  SearchCache.wf c ->
  SearchCache.size c = SearchCache.maxSize c ->
  (0 < SearchCache.maxSize c)%nat ->
  (exists oldestKey oldest c',
      SearchCache.map_get oldestKey (SearchCache.cache c) = Some oldest /\
      (forall k e, In (k, e) (SearchCache.cache c) ->
                   SearchCache.e_timestamp oldest <= SearchCache.e_timestamp e) /\
      S (length (SearchCache.map_delete oldestKey (SearchCache.cache c)))
        = SearchCache.maxSize c /\
      (forall k, k <> oldestKey ->
         SearchCache.map_get k (SearchCache.map_delete oldestKey (SearchCache.cache c))
         = SearchCache.map_get k (SearchCache.cache c)) /\
      SearchCache.set now key res c = Ok c' /\
      SearchCache.cache c' =
        SearchCache.map_set key (SearchCache.mkEntry now res)
          (SearchCache.map_delete oldestKey (SearchCache.cache c)) /\
      SearchCache.map_get key (SearchCache.cache c') = Some (SearchCache.mkEntry now res) /\
      (forall k, k <> key -> k <> oldestKey ->
         SearchCache.map_get k (SearchCache.cache c')
         = SearchCache.map_get k (SearchCache.cache c)) /\
      (oldestKey <> key -> SearchCache.map_get oldestKey (SearchCache.cache c') = None) /\
      (SearchCache.size c' <= SearchCache.maxSize c)%nat) /\
  (forall ops, (SearchCache.size (SearchCache.run ops c) <= SearchCache.maxSize c)%nat).
Proof.
  intros Hwf Hsize Hpos. split.
  - destruct (jsSort SearchCache.byTimestamp (SearchCache.cache c)) as [|[k0 e0] t] eqn:E.
    { apply jsSort_nil_inv in E. unfold SearchCache.size in Hsize. rewrite E in Hsize.
      simpl in Hsize. lia. }
    destruct (SearchCacheFacts.oldest_is_least _ _ _ _ E) as [Hin Hmin].
    assert (Hset : SearchCache.set now key res c =
      Ok (SearchCache.with_cache c
            (SearchCache.map_set key (SearchCache.mkEntry now res)
               (SearchCache.map_delete k0 (SearchCache.cache c))))).
    { unfold SearchCache.set. unfold SearchCache.size in Hsize. rewrite Hsize, E.
      rewrite Nat.leb_refl. reflexivity. }
    exists k0, e0, (SearchCache.with_cache c
            (SearchCache.map_set key (SearchCache.mkEntry now res)
               (SearchCache.map_delete k0 (SearchCache.cache c)))).
    repeat apply conj.
    + now apply SearchCacheFacts.In_map_get.
    + exact Hmin.
    + unfold SearchCache.size in Hsize. rewrite <- Hsize.
      apply SearchCacheFacts.map_delete_length; [exact Hwf|].
      now apply (in_map fst) in Hin.
    + intros k Hk. now apply SearchCacheFacts.map_get_delete_other.
    + exact Hset.
    + reflexivity.
    + simpl. apply SearchCacheFacts.map_get_set_same.
    + intros k Hk1 Hk2. simpl.
      rewrite SearchCacheFacts.map_get_set_other by exact Hk1.
      now apply SearchCacheFacts.map_get_delete_other.
    + intros Hne. simpl.
      rewrite SearchCacheFacts.map_get_set_other by exact Hne.
      apply SearchCacheFacts.map_get_delete_same.
    + apply (SearchCacheFacts.set_size_le now key res c); [lia|exact Hset].
  - intros ops.
    apply SearchCacheFacts.run_invariant; [exact Hwf|lia].
Qed.

Lemma cache_evicts_oldest_and_stays_bounded_witness :
  SearchCache.set 40 "d" [] fullCache =
    Ok (SearchCache.mkCache
          [("b", SearchCache.mkEntry 20 []); ("c", SearchCache.mkEntry 30 []);
           ("d", SearchCache.mkEntry 40 [])] 3 60000) /\
  (forall ops,
     (SearchCache.size (SearchCache.run ops fullCache) <= SearchCache.maxSize fullCache)%nat).
Proof.
  split; [reflexivity|].
  refine (proj2 (cache_evicts_oldest_and_stays_bounded fullCache 40 "d" [] _ _ _)).
  - unfold SearchCache.wf. simpl.
    repeat constructor; simpl; intuition discriminate.
  - reflexivity.
  - simpl. lia.
Defined.

(* ------------------------------------------------------------------------- *)
(** ** The credential manager *)

Ltac state_simpl :=
  cbn [accessToken tokenExpiration tokenRetryCount clock posts gets draws trace
       fst snd app] in *.

Lemma getRedditAccessToken_refresh w s :
  tokenValid s = false -> getRedditAccessToken w s = exchangeCredentials w s.
Proof.
  unfold tokenValid, getRedditAccessToken. intros H.
  destruct (accessToken s) as [tok|] eqn:E; [|reflexivity].
  now rewrite H.
Qed.

Lemma getRedditAccessToken_cached w s tok :
  accessToken s = Some tok -> tokenValid s = true ->
  getRedditAccessToken w s = (Ok tok, s).
Proof.
  unfold tokenValid, getRedditAccessToken. intros E H. rewrite E in *. now rewrite H.
Qed.

Lemma backoffTime_nonneg n : 0 <= backoffTime n.
Proof.
  unfold backoffTime. destruct (n =? 0)%nat; [lia|].
  apply Z.min_glb; [|lia]. apply Z.mul_nonneg_nonneg; [lia|].
  apply Z.pow_nonneg. lia.
Qed.

(** A failed exchange, whatever the counter. *)
Lemma exchange_failure w s :
  exchange w (posts s) = ExchangeFailed ->
  exchangeCredentials w s = failedOutcome w s.
Proof.
  intros Hfail. unfold failedOutcome, exchangeCredentials, backoffEvents.
  pose proof (backoffTime_nonneg (tokenRetryCount s)) as Hnn.
  remember (backoffTime (tokenRetryCount s)) as b eqn:Hb.
  change (3 <=? tokenRetryCount s)%nat with (3 <? S (tokenRetryCount s))%nat.
  destruct (Z.gtb_spec b 0) as [Hpos|Hzero].
  - unfold axiosPost, sleep. state_simpl. rewrite Hfail.
    destruct (3 <? S (tokenRetryCount s))%nat; unfold setRetryCount, setToken;
      state_simpl; rewrite <- app_assoc; reflexivity.
  - assert (Hz : b = 0) by lia.
    unfold axiosPost. state_simpl. rewrite Hfail, Hz, Z.add_0_r.
    destruct (3 <? S (tokenRetryCount s))%nat; unfold setRetryCount, setToken;
      state_simpl; reflexivity.
Qed.

(** The counter never leaves the range 0..3, whatever the exchange gives. *)
Lemma retryCount_bounded w s :
  (tokenRetryCount s <= 3)%nat ->
  (tokenRetryCount (snd (getRedditAccessToken w s)) <= 3)%nat.
Proof.
  intros Hle. unfold getRedditAccessToken.
  assert (Hex : (tokenRetryCount (snd (exchangeCredentials w s)) <= 3)%nat).
  { unfold exchangeCredentials.
    destruct (axiosPost w _) as [reply s2] eqn:E.
    assert (Hc : tokenRetryCount s2 = tokenRetryCount s).
    { unfold axiosPost in E. injection E as _ <-.
      destruct (_ >? _); reflexivity. }
    destruct reply; simpl; [lia|].
    destruct (Nat.ltb_spec 3 (S (tokenRetryCount s2))); simpl; lia. }
  destruct (accessToken s); [|exact Hex].
  destruct (_ && _); [exact Hle|exact Hex].
Qed.

(** C3.  A call of [getRedditAccessToken] that finds no usable token and
    whose exchange fails first waits [min(1000 * 2^counter, 30000)] ms when
    the counter is not 0, then makes the exchange, and waits for nothing
    after it; it increments the counter and, while the new counter is at most
    3, clears the token and throws the transient error, otherwise resets the
    counter to 0 and throws the terminal error.  So, starting from a counter
    of 0, three failing calls throw the transient error and the fourth
    failing call is the terminal one, after waits of 2000, 4000 and 8000 ms:
    no more than three attempts precede the terminal failure, and the counter
    stays within 0..3. *)
Theorem token_retry_episode (w : World) (s : State) :
  tokenValid s = false ->
  exchange w (posts s) = ExchangeFailed ->
  let r := fst (getRedditAccessToken w s) in
  let s' := snd (getRedditAccessToken w s) in
  trace s' = trace s ++ backoffEvents (tokenRetryCount s) ++ [Post] /\
  backoffTime (tokenRetryCount s) =
    (if (tokenRetryCount s =? 0)%nat then 0
     else Z.min (1000 * 2 ^ Z.of_nat (tokenRetryCount s)) 30000) /\
  ((S (tokenRetryCount s) <= 3)%nat ->
     r = Throw authFailed /\ tokenRetryCount s' = S (tokenRetryCount s) /\
     accessToken s' = None) /\
  ((3 < S (tokenRetryCount s))%nat ->
     r = Throw authExhausted /\ tokenRetryCount s' = 0%nat) /\
  ((tokenRetryCount s <= 3)%nat -> (tokenRetryCount s' <= 3)%nat) /\
  (tokenRetryCount s = 0%nat ->
   (forall i, (i < 4)%nat -> exchange w (posts s + i)%nat = ExchangeFailed) ->
   fst (getTokenRepeatedly w 4 s) =
     [Throw authFailed; Throw authFailed; Throw authFailed; Throw authExhausted] /\
   tokenRetryCount (snd (getTokenRepeatedly w 4 s)) = 0%nat /\
   posts (snd (getTokenRepeatedly w 4 s)) = (posts s + 4)%nat /\
   trace (snd (getTokenRepeatedly w 4 s)) =
     trace s ++ [Post; Sleep 2000; Post; Sleep 4000; Post; Sleep 8000; Post]).
Proof.
  intros Hinv Hfail r s'. subst r s'.
  rewrite (getRedditAccessToken_refresh w s Hinv), (exchange_failure w s Hfail).
  unfold failedOutcome. state_simpl.
  split; [reflexivity|]. split; [reflexivity|].
  split; [|split; [|split]].
  - intros Hle. destruct (Nat.leb_spec 3 (tokenRetryCount s)); [lia|]. auto.
  - intros Hgt. destruct (Nat.leb_spec 3 (tokenRetryCount s)); [|lia]. auto.
  - intros Hle. destruct (Nat.leb_spec 3 (tokenRetryCount s)); lia.
  - intros Hzero Hall.
    assert (step : forall st, accessToken st = None ->
              exchange w (posts st) = ExchangeFailed ->
              getRedditAccessToken w st = failedOutcome w st).
    { intros st Hnone Hf. rewrite getRedditAccessToken_refresh.
      - exact (exchange_failure w st Hf).
      - unfold tokenValid. now rewrite Hnone. }
    unfold getTokenRepeatedly.
    rewrite (getRedditAccessToken_refresh w s Hinv), (exchange_failure w s Hfail).
    unfold failedOutcome. rewrite Hzero. state_simpl. cbn [Nat.leb].
    rewrite step; [unfold failedOutcome; state_simpl; cbn [Nat.leb]
                  |reflexivity
                  |state_simpl; rewrite <- (Hall 1%nat) by lia; f_equal; lia].
    rewrite step; [unfold failedOutcome; state_simpl; cbn [Nat.leb]
                  |reflexivity
                  |state_simpl; rewrite <- (Hall 2%nat) by lia; f_equal; lia].
    rewrite step; [unfold failedOutcome; state_simpl; cbn [Nat.leb]
                  |reflexivity
                  |state_simpl; rewrite <- (Hall 3%nat) by lia; f_equal; lia].
    repeat split; [lia|].
    rewrite <- !app_assoc. reflexivity.
Qed.

Lemma token_retry_episode_witness :
  fst (getTokenRepeatedly failingWorld 4 (initialState 0)) =
    [Throw authFailed; Throw authFailed; Throw authFailed; Throw authExhausted] /\
  trace (snd (getTokenRepeatedly failingWorld 4 (initialState 0))) =
    [Post; Sleep 2000; Post; Sleep 4000; Post; Sleep 8000; Post].
Proof.
  destruct (token_retry_episode failingWorld (initialState 0) eq_refl eq_refl)
    as (_ & _ & _ & _ & _ & H).
  destruct (H eq_refl (fun _ _ => eq_refl)) as (H1 & _ & _ & H2).
  split; [exact H1|exact H2].
Defined.

(* ------------------------------------------------------------------------- *)
(** ** The rate-limited client *)

Lemma exchangeCredentials_counts w s :
  gets (snd (exchangeCredentials w s)) = gets s /\
  posts (snd (exchangeCredentials w s)) = S (posts s) /\
  forall st, fst (exchangeCredentials w s) <> Throw (AxiosError st).
Proof.
  unfold exchangeCredentials, axiosPost.
  destruct (backoffTime (tokenRetryCount s) >? 0); state_simpl;
    (destruct (exchange w _);
     [|destruct (3 <? S _)%nat]; unfold setRetryCount, setToken; state_simpl;
     repeat split; try reflexivity; intros st; discriminate).
Qed.

Lemma getRedditAccessToken_counts w s :
  gets (snd (getRedditAccessToken w s)) = gets s /\
  (posts (snd (getRedditAccessToken w s)) <= S (posts s))%nat /\
  forall st, fst (getRedditAccessToken w s) <> Throw (AxiosError st).
Proof.
  destruct (exchangeCredentials_counts w s) as (Hg & Hp & He).
  unfold getRedditAccessToken.
  destruct (accessToken s); [destruct (_ && _)|]; state_simpl;
    repeat split; try lia; try exact He; try (intros st; discriminate).
Qed.

Lemma requestOnce_counts w url s :
  (gets (snd (requestOnce w url s)) <= S (gets s))%nat /\
  (posts (snd (requestOnce w url s)) <= S (posts s))%nat.
Proof.
  destruct (getRedditAccessToken_counts w s) as (Hg & Hp & _).
  unfold requestOnce. destruct (getRedditAccessToken w s) as [[tok|e] s1]; state_simpl.
  - unfold axiosGet. destruct (fetch w (gets s1) url); state_simpl; lia.
  - lia.
Qed.

(** An error that carries an HTTP response comes from the GET of that attempt. *)
Lemma requestOnce_http_error w url s st s1 :
  requestOnce w url s = (Throw (AxiosError st), s1) -> gets s1 = S (gets s).
Proof.
  destruct (getRedditAccessToken_counts w s) as (Hg & _ & He).
  unfold requestOnce. destruct (getRedditAccessToken w s) as [[tok|e] s0]; state_simpl.
  - unfold axiosGet. destruct (fetch w (gets s0) url); intros H; inversion H; subst;
      state_simpl; lia.
  - intros H. inversion H; subst. exfalso. now apply (He st).
Qed.

Lemma redditApiRequest_counts w url attempt s :
  (gets (snd (redditApiRequest w url attempt s))
     <= gets s + S (maxAttempts - attempt))%nat /\
  (posts (snd (redditApiRequest w url attempt s))
     <= posts s + S (maxAttempts - attempt))%nat.
Proof.
  funelim (redditApiRequest w url attempt s);
    pose proof (requestOnce_counts w url s) as Hc;
    match goal with
    | H : requestOnce w url s = _ |- _ => rewrite H in Hc
    end;
    try match goal with
        | H : (_ <= _)%nat /\ (_ <= _)%nat |- _ => destruct H as [IH1 IH2]
        end;
    unfold sleep, clearToken, setToken, maxAttempts in *; state_simpl; lia.
Qed.

(** The body of [redditApiRequest], as one equation. *)
Lemma redditApiRequest_body w url attempt s :
  redditApiRequest w url attempt s =
  match requestOnce w url s with
  | (Ok d, s1) => (Ok d, s1)
  | (Throw error, s1) =>
      if hasStatus 429 error then
        if lt_dec attempt maxAttempts
        then redditApiRequest w url (S attempt) (sleep (2 ^ Z.of_nat attempt * 1000) s1)
        else (Throw rateLimited, s1)
      else if hasStatus 401 error then
        if lt_dec attempt maxAttempts
        then redditApiRequest w url (S attempt) (clearToken s1)
        else (Throw error, clearToken s1)
      else (Throw error, s1)
  end.
Proof.
  rewrite redditApiRequest_equation_1.
  destruct (requestOnce w url s) as [[d|error] s1]; simpl; [reflexivity|].
  destruct (hasStatus 429 error); simpl.
  - destruct (lt_dec attempt maxAttempts); reflexivity.
  - destruct (hasStatus 401 error); simpl; [|reflexivity].
    destruct (lt_dec attempt maxAttempts); reflexivity.
Qed.

(** C9.  A call [redditApiRequest(url)] issues at most three GET requests
    (and at most three token exchanges).  When an attempt ends in an HTTP 429
    and [attempt < 3], the call waits [2^attempt * 1000] ms and goes on as the
    call with [attempt + 1]; when it ends in a 429 and no attempt remains,
    the call throws the rate-limit error in the state that attempt left, with
    no outbound call after its GET. *)
Theorem request_retries_on_429 (w : World) (url : string) (s : State) :
  (gets (snd (redditApiRequest w url 1 s)) <= gets s + 3)%nat /\
  (posts (snd (redditApiRequest w url 1 s)) <= posts s + 3)%nat /\
  forall attempt s0 s1,
    requestOnce w url s0 = (Throw (AxiosError (Some 429)), s1) ->
    ((attempt < maxAttempts)%nat ->
       redditApiRequest w url attempt s0 =
       redditApiRequest w url (S attempt) (sleep (2 ^ Z.of_nat attempt * 1000) s1)) /\
    (~ (attempt < maxAttempts)%nat ->
       redditApiRequest w url attempt s0 = (Throw rateLimited, s1) /\
       gets s1 = S (gets s0) /\
       trace s1 = trace (snd (getRedditAccessToken w s0)) ++ [Get url]).
Proof.
  destruct (redditApiRequest_counts w url 1 s) as [Hg Hp].
  split; [exact Hg|]. split; [exact Hp|].
  intros attempt s0 s1 H429. split.
  - intros Hlt. rewrite (redditApiRequest_body w url attempt s0), H429. simpl.
    destruct (lt_dec attempt maxAttempts); [reflexivity|contradiction].
  - intros Hge. split; [|split].
    + rewrite (redditApiRequest_body w url attempt s0), H429. simpl.
      destruct (lt_dec attempt maxAttempts); [contradiction|reflexivity].
    + exact (requestOnce_http_error _ _ _ _ _ H429).
    + unfold requestOnce in H429.
      destruct (getRedditAccessToken w s0) as [[tok|e] s2] eqn:E.
      * unfold axiosGet in H429. destruct (fetch w (gets s2) url); inversion H429.
        reflexivity.
      * inversion H429; subst.
        destruct (getRedditAccessToken_counts w s0) as (_ & _ & He).
        rewrite E in He. exfalso. now apply (He (Some 429)).
Qed.

Lemma request_retries_on_429_witness :
  (gets (snd (redditApiRequest rateLimitingWorld "u" 1 (initialState 0))) <= 3)%nat /\
  redditApiRequest rateLimitingWorld "u" 3 (initialState 0) =
    (Throw rateLimited, snd (requestOnce rateLimitingWorld "u" (initialState 0))) /\
  fst (redditApiRequest rateLimitingWorld "u" 1 (initialState 0)) = Throw rateLimited /\
  trace (snd (redditApiRequest rateLimitingWorld "u" 1 (initialState 0))) =
    [Post; Get "u"; Sleep 2000; Get "u"; Sleep 4000; Get "u"].
Proof.
  destruct (request_retries_on_429 rateLimitingWorld "u" (initialState 0))
    as (Hg & _ & H).
  split; [exact Hg|]. split.
  - refine (proj1 (proj2 (H 3%nat (initialState 0) _ eq_refl) _)).
    unfold maxAttempts. lia.
  - split; vm_compute; reflexivity.
Defined.

(* ------------------------------------------------------------------------- *)
(** ** The tree extractor *)

(** Induction on a reply tree: the property may be assumed of the replies. *)
Lemma Item_nested_ind (P : Item -> Prop) :
  (forall k, P (mkItem k None)) ->
  (forall k p,
     match d_replies p with
     | Some children => Forall P children
     | None => True
     end -> P (mkItem k (Some p))) ->
  forall i, P i.
Proof.
  intros Hnone Hsome. fix IH 1. intros [k [p|]]; [|apply Hnone].
  apply Hsome. destruct p as [i a b sr u t pl aw r]. simpl.
  destruct r as [children|]; [|exact I].
  induction children as [|c rest IHrest]; constructor; [apply IH|exact IHrest].
Qed.

(** The loop over the replies inside [processItem] is [processEach]. *)
Lemma processItem_body subreddit postId depth k data comments :
  processItem subreddit postId depth (mkItem k data) comments =
  match data with
  | Some d =>
      if String.eqb k "t1" then
        if isDeleted d then Ok comments
        else
          match buildComment subreddit postId d with
          | Throw e => Throw e
          | Ok c => processComments subreddit postId (d_replies d) (S depth) (comments ++ [c])
          end
      else processComments subreddit postId (d_replies d) (S depth) comments
  | None => Ok comments
  end.
Proof.
  assert (Heach : forall l acc,
    (fix each (l : list Item) (acc : list RedditComment) :=
       match l with
       | [] => Ok acc
       | i :: r =>
           match processItem subreddit postId (S depth) i acc with
           | Ok acc' => each r acc'
           | Throw e => Throw e
           end
       end) l acc = processEach subreddit postId (S depth) l acc).
  { induction l as [|i r IHl]; intros acc; [reflexivity|].
    cbn [processEach]. destruct (processItem subreddit postId (S depth) i acc); auto. }
  unfold processComments. cbn [processItem].
  destruct data as [d|]; [|reflexivity].
  destruct (d_replies d) as [children|];
    destruct (String.eqb k "t1"); try destruct (isDeleted d); try reflexivity;
    try destruct (buildComment subreddit postId d); try reflexivity;
    destruct (depthCap <? S depth)%nat; try reflexivity; apply Heach.
Qed.

Lemma processItem_truncate subreddit postId item :
  forall depth comments, (depth <= depthCap)%nat ->
    processItem subreddit postId depth (truncateItem (depthCap - depth) item) comments
    = processItem subreddit postId depth item comments.
Proof.
  induction item as [k|k p IH] using Item_nested_ind; intros depth comments Hle;
    [reflexivity|].
  cbn [truncateItem]. rewrite !processItem_body.
  assert (Hb : forall d', buildComment subreddit postId
                 (mkPayload (d_id p) (d_author p) (d_body p) (d_subreddit p) (d_ups p)
                    (d_created_utc p) (d_permalink p) (d_total_awards_received p) d')
               = buildComment subreddit postId p) by reflexivity.
  assert (Hd : forall d', isDeleted
                 (mkPayload (d_id p) (d_author p) (d_body p) (d_subreddit p) (d_ups p)
                    (d_created_utc p) (d_permalink p) (d_total_awards_received p) d')
               = isDeleted p) by reflexivity.
  rewrite Hb, Hd. cbn [d_replies].
  assert (Hrep : forall acc,
    processComments subreddit postId
      match (depthCap - depth)%nat, d_replies p with
      | S d', Some children => Some (map (truncateItem d') children)
      | _, _ => None
      end (S depth) acc
    = processComments subreddit postId (d_replies p) (S depth) acc).
  { intros acc. unfold processComments.
    destruct (d_replies p) as [children|]; [|destruct (depthCap - depth)%nat; reflexivity].
    destruct (Nat.ltb_spec depthCap (S depth)) as [Hcut|Hgo].
    - destruct (depthCap - depth)%nat; [reflexivity|].
      destruct (Nat.ltb_spec depthCap (S depth)); [reflexivity|lia].
    - assert (Hs : (depthCap - depth = S (depthCap - S depth))%nat) by lia.
      rewrite Hs. destruct (Nat.ltb_spec depthCap (S depth)); [lia|].
      clear Hs. revert acc. induction IH as [|c rest Hc Hrest IHrest]; intros acc;
        [reflexivity|].
      cbn [map processEach]. rewrite Hc by lia.
      destruct (processItem subreddit postId (S depth) c acc); [apply IHrest|reflexivity]. }
  destruct (String.eqb k "t1"); [|apply Hrep].
  destruct (isDeleted p); [reflexivity|].
  destruct (buildComment subreddit postId p); [apply Hrep|reflexivity].
Qed.

Lemma processEach_truncate subreddit postId depth children :
  forall comments, (depth <= depthCap)%nat ->
    processEach subreddit postId depth (truncateTree (depthCap - depth) children) comments
    = processEach subreddit postId depth children comments.
Proof.
  induction children as [|c rest IH]; intros comments Hle; [reflexivity|].
  unfold truncateTree in *. cbn [map processEach].
  rewrite processItem_truncate by exact Hle.
  destruct (processItem subreddit postId depth c comments); [now apply IH|reflexivity].
Qed.

(** C4.  The extractor is a total function of the reply tree, and what it
    returns for a tree is what it returns for the tree cut below recursion
    depth 10 (the top-level nodes have depth 0): nodes nested deeper add
    nothing.  For a thread nested 50 deep both give the same 11 comments. *)
Theorem extraction_ignores_depth_beyond_cap (children : list Item)
  (subreddit postId : string) :
  extractComments (Some (truncateTree 10 children)) subreddit postId
    = extractComments (Some children) subreddit postId /\
  extractComments (Some (truncateTree 10 [nestedThread 49])) "s" "p"
    = extractComments (Some [nestedThread 49]) "s" "p" /\
  (exists comments, extractComments (Some [nestedThread 49]) "s" "p" = Ok comments /\
     ids comments = ["c49"; "c48"; "c47"; "c46"; "c45"; "c44"; "c43"; "c42"; "c41";
                     "c40"; "c39"]).
Proof.
  assert (H : forall l, extractComments (Some (truncateTree 10 l)) subreddit postId
                        = extractComments (Some l) subreddit postId).
  { intros l. unfold extractComments, processComments. cbn [Nat.ltb Nat.leb depthCap].
    apply (processEach_truncate subreddit postId 0 l []). unfold depthCap. lia. }
  split; [apply H|]. split.
  - unfold extractComments, processComments. cbn [Nat.ltb Nat.leb depthCap].
    apply (processEach_truncate "s" "p" 0 [nestedThread 49] []). unfold depthCap. lia.
  - eexists. split; [vm_compute; reflexivity|reflexivity].
Qed.

(* ------------------------------------------------------------------------- *)
(** ** Scores *)

Lemma notAbove_not_lt a b : notAbove a b -> ~ jsLt b a.
Proof. destruct a, b; simpl; intros H; try tauto; lra. Qed.

Lemma notAbove_add_r a b c : notAbove a b -> notAbove (jsAdd a c) (jsAdd b c).
Proof. destruct a, b, c; simpl; intros H; try tauto; lra. Qed.

Lemma notAbove_add_l a b c : notAbove a b -> notAbove (jsAdd c a) (jsAdd c b).
Proof. destruct a, b, c; simpl; intros H; try tauto; lra. Qed.

Lemma notAbove_scale a b k : (0 < k)%R -> notAbove a b -> notAbove (jsScale a k) (jsScale b k).
Proof.
  intros Hk. destruct a, b; simpl; intros H; try tauto.
  apply Rmult_le_compat_r; lra.
Qed.

Lemma ln_10_pos : (0 < ln 10)%R.
Proof. rewrite <- ln_1. apply ln_increasing; lra. Qed.

Lemma log10_monotone n n' : n <= n' -> notAbove (log10 n) (log10 n').
Proof.
  intros Hle. unfold log10.
  destruct (Z.ltb_spec n 0); [exact I|].
  destruct (Z.ltb_spec n' 0); [lia|].
  destruct (Z.eqb_spec n 0); [simpl; destruct (n' =? 0); exact I|].
  destruct (Z.eqb_spec n' 0); [lia|]. simpl.
  pose proof ln_10_pos as H10.
  assert (Hln : (ln (IZR n) <= ln (IZR n'))%R).
  { destruct (Z.eq_dec n n') as [->|Hne]; [lra|].
    left. apply ln_increasing; [apply IZR_lt; lia|apply IZR_lt; lia]. }
  unfold Rdiv. apply Rmult_le_compat_r; [|exact Hln].
  left. now apply Rinv_0_lt_compat.
Qed.

Lemma baseScore_upvotes now c u u' :
  u <= u' ->
  notAbove (calculateBaseScore now (withUpvotes c u))
           (calculateBaseScore now (withUpvotes c u')).
Proof.
  intros Hle. unfold calculateBaseScore. simpl.
  apply notAbove_add_r, notAbove_add_r, notAbove_scale; [lra|].
  apply log10_monotone. lia.
Qed.

Lemma baseScore_awards now c a a' :
  numOr0 a <= numOr0 a' ->
  notAbove (calculateBaseScore now (withAwards c a))
           (calculateBaseScore now (withAwards c a')).
Proof.
  intros Hle. unfold calculateBaseScore. simpl.
  apply notAbove_add_r, notAbove_add_l, notAbove_scale; [lra|].
  apply log10_monotone. lia.
Qed.

(** C7.  With the clock, the match count and every other field fixed, a
    comment with more upvotes (respectively more awards, a missing count being
    0) never has a smaller base score nor a smaller total score.  When the
    counts are not negative the base score is
    [log10(upvotes+1)*2 + log10(awards+1)*3 + recency] and the total adds
    [log10(matchCount+1)*5]. *)
Theorem score_monotone_in_upvotes_and_awards (now : Z) (c : RedditComment)
  (matchCount u u' : Z) (a a' : option Z) :
  u <= u' ->
  numOr0 a <= numOr0 a' ->
  ~ jsLt (calculateBaseScore now (withUpvotes c u'))
         (calculateBaseScore now (withUpvotes c u)) /\
  ~ jsLt (calculateScore now (withUpvotes c u') matchCount)
         (calculateScore now (withUpvotes c u) matchCount) /\
  ~ jsLt (calculateBaseScore now (withAwards c a'))
         (calculateBaseScore now (withAwards c a)) /\
  ~ jsLt (calculateScore now (withAwards c a') matchCount)
         (calculateScore now (withAwards c a) matchCount) /\
  (0 <= upvotes c -> 0 <= numOr0 (awards c) -> 0 <= matchCount ->
   calculateBaseScore now c =
     Fin (ln (IZR (upvotes c + 1)) / ln 10 * 2
          + ln (IZR (numOr0 (awards c) + 1)) / ln 10 * 3
          + calculateRecencyScore now (timestamp c))%R /\
   calculateScore now c matchCount =
     Fin (ln (IZR (upvotes c + 1)) / ln 10 * 2
          + ln (IZR (numOr0 (awards c) + 1)) / ln 10 * 3
          + calculateRecencyScore now (timestamp c)
          + ln (IZR (matchCount + 1)) / ln 10 * 5)%R).
Proof.
  intros Hu Ha.
  split; [apply notAbove_not_lt, baseScore_upvotes, Hu|].
  split; [apply notAbove_not_lt; unfold calculateScore;
          apply notAbove_add_r, baseScore_upvotes, Hu|].
  split; [apply notAbove_not_lt, baseScore_awards, Ha|].
  split; [apply notAbove_not_lt; unfold calculateScore;
          apply notAbove_add_r, baseScore_awards, Ha|].
  intros H1 H2 H3.
  assert (Hlog : forall n, 0 <= n -> log10 (n + 1) = Fin (ln (IZR (n + 1)) / ln 10)).
  { intros n Hn. unfold log10.
    destruct (Z.ltb_spec (n + 1) 0); [lia|].
    destruct (Z.eqb_spec (n + 1) 0); [lia|reflexivity]. }
  unfold calculateScore, calculateBaseScore.
  rewrite !Hlog by assumption. simpl. split; reflexivity.
Qed.

Lemma score_monotone_in_upvotes_and_awards_witness :
  ~ jsLt (calculateScore 0 (withUpvotes (mkComment "a" "b" "c" "d" 0 0 None None None None None) 5) 2)
         (calculateScore 0 (withUpvotes (mkComment "a" "b" "c" "d" 0 0 None None None None None) 1) 2).
Proof.
  refine (proj1 (proj2 (score_monotone_in_upvotes_and_awards 0
            (mkComment "a" "b" "c" "d" 0 0 None None None None None) 2 1 5 None (Some 3)
            _ _))); simpl; lia.
Defined.

(* ------------------------------------------------------------------------- *)
(** ** The exact-phrase bonus *)


Lemma client_sortComments_nil sortBy : Client.sortComments sortBy [] = [].
Proof.
  unfold Client.sortComments.
  repeat match goal with |- context [if ?b then _ else _] => destruct b end; reflexivity.
Qed.
















(* ------------------------------------------------------------------------- *)
(** ** The two [searchComments] at concrete inputs *)

(** C1, on the server copy: the comments of the fetched posts are
    concatenated and never compared by id, so a comment delivered twice is
    returned twice. *)
Theorem server_searchComments_returns_duplicate_ids :
  option_map ids
    (Server.returned
       (Server.searchComments 0 repeatingWorld rustParams (Num.Int 1) (initialState 0)
          SearchCache.default)) = Some ["c1"; "c1"] /\
  ~ NoDup ["c1"; "c1"].
Proof.
  split; [vm_compute; reflexivity|].
  intros H. inversion H as [|? ? Hn _]; subst. apply Hn. now left.
Qed.

(* ------------------------------------------------------------------------- *)
(** ** Deduplication in the client copy *)

Lemma findIndex_ext {A : Type} (p q : A -> bool) l :
  (forall x, p x = q x) -> findIndex p l = findIndex q l.
Proof.
  intros H. induction l as [|x r IH]; simpl; [reflexivity|].
  now rewrite H, IH.
Qed.

Lemma in_combine_seq {A : Type} (l : list A) :
  forall a i x, In (i, x) (combine (seq a (length l)) l) ->
                (a <= i)%nat /\ nth_error l (i - a) = Some x.
Proof.
  induction l as [|y r IH]; simpl; intros a i x Hin; [contradiction|].
  destruct Hin as [Heq|Hin].
  - injection Heq as <- <-. rewrite Nat.sub_diag. split; [lia|reflexivity].
  - destruct (IH _ _ _ Hin) as [Hle Hnth]. split; [lia|].
    replace (i - a)%nat with (S (i - S a)) by lia. exact Hnth.
Qed.

Lemma NoDup_of_fst {A B : Type} (l : list (A * B)) : NoDup (map fst l) -> NoDup l.
Proof.
  induction l as [|[a b] r IH]; simpl; intros H; [constructor|].
  inversion H as [|? ? Hn Hr]; subst. constructor; [|auto].
  intros Hin. apply Hn. now apply (in_map fst) in Hin.
Qed.

Lemma combine_seq_fst {A : Type} (l : list A) a :
  map fst (combine (seq a (length l)) l) = seq a (length l).
Proof.
  revert a. induction l as [|y r IH]; simpl; intros a; [reflexivity|].
  now rewrite IH.
Qed.

(** The final pass leaves no two comments with the same id. *)
Lemma removeDuplicates_NoDup self : NoDup (ids (removeDuplicates self)).
Proof.
  unfold ids, removeDuplicates. rewrite map_map.
  apply NoDup_map_NoDup_ForallPairs.
  - intros [i c] [j c'] Hi Hj Hid. simpl in Hid.
    apply filter_In in Hi, Hj. destruct Hi as [Hi Hki], Hj as [Hj Hkj].
    unfold firstOfItsId in Hki, Hkj. simpl in Hki, Hkj.
    rewrite (findIndex_ext _ (fun d => String.eqb (id d) (id c'))) in Hki
      by (intros x; now rewrite Hid).
    destruct (findIndex _ self) as [k|]; [|discriminate].
    apply Nat.eqb_eq in Hki, Hkj. subst i j.
    apply in_combine_seq in Hi, Hj. destruct Hi as [_ Hi], Hj as [_ Hj].
    rewrite Hi in Hj. now injection Hj as ->.
  - apply NoDup_filter, NoDup_of_fst. rewrite combine_seq_fst. apply seq_NoDup.
Qed.

(** It drops nothing but repeated ids, and adds nothing. *)
Lemma removeDuplicates_incl self c : In c (removeDuplicates self) -> In c self.
Proof.
  unfold removeDuplicates. intros H. apply in_map_iff in H.
  destruct H as [[i c'] [Heq Hin]]. simpl in Heq. subst c'.
  apply filter_In in Hin. destruct Hin as [Hin _]. now apply in_combine_r in Hin.
Qed.

Lemma hasId_In l i : Client.hasId l i = true <-> In i (ids l).
Proof.
  unfold Client.hasId, ids. rewrite existsb_exists. split.
  - intros [c [Hin Heq]]. apply String.eqb_eq in Heq. subst i. now apply in_map.
  - intros Hin. apply in_map_iff in Hin. destruct Hin as [c [Heq Hin]].
    exists c. split; [exact Hin|]. now apply String.eqb_eq.
Qed.

Lemma NoDup_ids_snoc l c :
  NoDup (ids l) -> Client.hasId l (id c) = false -> NoDup (ids (l ++ [c])).
Proof.
  intros Hnd Hno. unfold ids in *. rewrite map_app. simpl.
  apply NoDup_app; [exact Hnd|repeat constructor; tauto|].
  intros x Hx [<-|[]].
  assert (Client.hasId l (id c) = true) by now apply hasId_In.
  congruence.
Qed.

(** A comment whose id is already held is not pushed again. *)
Lemma pushUnique_NoDup l c : NoDup (ids l) -> NoDup (ids (Client.pushUnique l c)).
Proof.
  intros H. unfold Client.pushUnique.
  destruct (Client.hasId l (id c)) eqn:E; [exact H|now apply NoDup_ids_snoc].
Qed.

Lemma mergeChunk_NoDup chunk : forall l, NoDup (ids l) -> NoDup (ids (Client.mergeChunk l chunk)).
Proof.
  unfold Client.mergeChunk. induction chunk as [|c r IH]; simpl; intros l H; [exact H|].
  apply IH. now apply pushUnique_NoDup.
Qed.

Lemma mergeChunks_NoDup chunks :
  forall l, NoDup (ids l) -> NoDup (ids (Client.mergeChunks l chunks)).
Proof.
  unfold Client.mergeChunks. induction chunks as [|c r IH]; simpl; intros l H; [exact H|].
  apply IH. now apply mergeChunk_NoDup.
Qed.

Lemma pushSearchItem_NoDup item l l' :
  NoDup (ids l) -> Client.pushSearchItem item l = Ok l' -> NoDup (ids l').
Proof.
  intros H. unfold Client.pushSearchItem.
  destruct (data item) as [d|]; [|intros E; now injection E as <-].
  destruct (String.eqb (kind item) "t1"); [|intros E; now injection E as <-].
  destruct (isDeleted d); [intros E; now injection E as <-|].
  destruct (Client.hasId l (d_id d)) eqn:Hid; [intros E; now injection E as <-|].
  destruct (toISOString _); [|discriminate].
  intros E. injection E as <-. now apply NoDup_ids_snoc.
Qed.

Lemma pushSearchItems_NoDup children :
  forall l, NoDup (ids l) -> NoDup (ids (Client.pushSearchItems children l)).
Proof.
  induction children as [|item r IH]; simpl; intros l H; [exact H|].
  destruct (Client.pushSearchItem item l) as [l'|e] eqn:E; [|exact H].
  apply IH. eapply pushSearchItem_NoDup; eauto.
Qed.

(** Whatever the sources deliver and in whatever order, the gathered
    comments have distinct ids. *)
Lemma harvest_NoDup h limit searchTerms : NoDup (ids (Client.harvest h limit searchTerms)).
Proof.
  unfold Client.harvest.
  assert (H0 : NoDup (ids (Client.mergeChunks [] (Client.arrived h)))).
  { apply mergeChunks_NoDup. constructor. }
  destruct (_ && _); [|exact H0].
  assert (H1 : NoDup (ids (Client.mergeChunks (Client.mergeChunks [] (Client.arrived h))
                             (Client.late h)))).
  { now apply mergeChunks_NoDup. }
  destruct (Client.searchReply h) as [[children|elements|]|e]; try exact H1.
  now apply pushSearchItems_NoDup.
Qed.

Lemma mockComments_NoDup loadTime : NoDup (ids (mockComments loadTime)).
Proof.
  unfold ids. simpl. repeat constructor; simpl; intuition discriminate.
Qed.

Lemma jsSlice_ids start stop (l : list RedditComment) :
  ids (jsSlice start stop l) = jsSlice start stop (ids l).
Proof.
  unfold ids, jsSlice. rewrite length_map, skipn_map, firstn_map. reflexivity.
Qed.

Lemma jsSlice_NoDup {A : Type} start stop (l : list A) : NoDup l -> NoDup (jsSlice start stop l).
Proof.
  intros H. unfold jsSlice.
  set (k := Z.to_nat _). set (n := Z.to_nat _).
  assert (Hs : NoDup (skipn n l)).
  { rewrite <- (firstn_skipn n l) in H. now apply NoDup_app_remove_l in H. }
  rewrite <- (firstn_skipn k (skipn n l)) in Hs. now apply NoDup_app_remove_r in Hs.
Qed.

Lemma cacheUnique_delete k c :
  cacheUnique c ->
  cacheUnique (SearchCache.with_cache c (SearchCache.map_delete k (SearchCache.cache c))).
Proof.
  unfold cacheUnique. simpl. intros H k' e Hin. apply (H k' e).
  clear H. induction (SearchCache.cache c) as [|[k2 e2] r IH]; simpl in *; [tauto|].
  destruct (String.eqb k k2); simpl in *; tauto.
Qed.

Lemma cacheUnique_set_entry k e m :
  (forall k' e', In (k', e') m -> NoDup (ids (SearchCache.e_results e'))) ->
  NoDup (ids (SearchCache.e_results e)) ->
  forall k' e', In (k', e') (SearchCache.map_set k e m) ->
                NoDup (ids (SearchCache.e_results e')).
Proof.
  intros Hm He. induction m as [|[k2 e2] r IH]; simpl; intros k' e' Hin.
  - destruct Hin as [Heq|[]]. now injection Heq as <- <-.
  - destruct (String.eqb k k2); simpl in Hin; destruct Hin as [Heq|Hin].
    + now injection Heq as <- <-.
    + apply (Hm k' e'). now right.
    + injection Heq as <- <-. apply (Hm k2 e2). now left.
    + refine (IH _ k' e' Hin). intros k3 e3 H3. apply (Hm k3 e3). now right.
Qed.

Lemma cacheUnique_get now key c :
  cacheUnique c ->
  cacheUnique (snd (SearchCache.get now key c)) /\
  forall l, fst (SearchCache.get now key c) = Some l -> NoDup (ids l).
Proof.
  intros H. unfold SearchCache.get.
  destruct (SearchCache.map_get key (SearchCache.cache c)) as [e|] eqn:E;
    [|split; [exact H|discriminate]].
  destruct (_ >? _); simpl.
  - split; [now apply cacheUnique_delete|discriminate].
  - split; [exact H|]. intros l Hl. injection Hl as <-.
    apply (H key e). now apply SearchCacheFacts.map_get_In.
Qed.

Lemma cacheUnique_set now key res c c' :
  cacheUnique c -> NoDup (ids res) -> SearchCache.set now key res c = Ok c' ->
  cacheUnique c'.
Proof.
  intros H Hres. unfold SearchCache.set. destruct (_ <=? _)%nat.
  - destruct (jsSort _ _) as [|[k0 e0] t]; [discriminate|].
    intros E. injection E as <-. unfold cacheUnique. simpl.
    apply cacheUnique_set_entry; [|exact Hres].
    apply (cacheUnique_delete k0 c H).
  - intros E. injection E as <-. unfold cacheUnique. simpl.
    apply cacheUnique_set_entry; [exact H|exact Hres].
Qed.

(** X21.  The client copy of [searchComments] returns lists with distinct ids, on
    every path, as long as the cache only holds what it stored itself. *)
Lemma client_searchComments_distinct_ids loadTime h params page now c :
  cacheUnique c ->
  exists l c',
    Client.searchComments loadTime h params page now c = (Ok l, c') /\
    NoDup (ids l) /\ cacheUnique c'.
Proof.
  intros Hc. unfold Client.searchComments, Client.searchComments_try.
  assert (Hmock : forall n, NoDup (ids (jsSlice 0 n (mockComments loadTime)))).
  { intros n. rewrite jsSlice_ids. apply jsSlice_NoDup, mockComments_NoDup. }
  destruct (Client.getCacheKey params page) as [cacheKey|e].
  2: { do 2 eexists. split; [reflexivity|]. split; [apply Hmock|exact Hc]. }
  destruct (cacheUnique_get now cacheKey c Hc) as [Hc1 Hhit].
  destruct (SearchCache.get now cacheKey c) as [[cached|] c1]; simpl in Hc1, Hhit.
  { do 2 eexists. split; [reflexivity|]. split; [now apply Hhit|exact Hc1]. }
  destruct (Client.query params) as [q|].
  2: { do 2 eexists. split; [reflexivity|]. split; [apply Hmock|exact Hc1]. }
  set (processed := if Client.isNil _ then _ else _).
  assert (Hp : NoDup (ids processed)).
  { unfold processed. destruct (Client.isNil _); [apply mockComments_NoDup|].
    unfold Client.processCommentsWithSearchTerms. apply removeDuplicates_NoDup. }
  destruct (SearchCache.set _ cacheKey processed c1) as [c2|e] eqn:E.
  2: { do 2 eexists. split; [reflexivity|]. split; [apply Hmock|exact Hc1]. }
  do 2 eexists. split; [reflexivity|]. split.
  - rewrite jsSlice_ids. now apply jsSlice_NoDup.
  - eapply cacheUnique_set; eauto.
Qed.

(** C2, on both copies: a query that is not a string makes the cache-key
    computation throw inside the [try]; the [catch] answers with the
    demonstration dataset, and nothing is thrown to the caller. *)
Theorem searchComments_swallows_validation_error (loadTime : Z) :
  (forall h filterType timeFrame sortBy minUpvotes limit page now c,
     Client.searchComments loadTime h
       (Client.mkParams QOther filterType timeFrame sortBy minUpvotes limit) page now c
     = (Ok (jsSlice 0 (Z.of_nat limit) (mockComments loadTime)), c)) /\
  (forall w sortBy minUpvotes limit page s c,
     Server.searchComments loadTime w (Server.mkParams QOther sortBy minUpvotes limit)
       page s c
     = (Ok (Server.mkResult (mockComments loadTime) 5 5 (SearchCache.size c)), s, c)).
Proof. split; intros; reflexivity. Qed.

(** C10, at the two places where the bound fails.  In the client copy the
    cache stores the processed list before it is cut to [limit], and a cache
    hit returns what is stored: the second of two identical requests with
    [limit = 1] returns five comments.  In the server copy the fallback
    returns the whole demonstration dataset: with [limit = 2] and a failing
    token exchange it returns five comments. *)
Theorem searchComments_exceeds_limit :
  let first :=
    Client.searchComments 0 silentHarvest oneResultParams 1 1000 SearchCache.default in
  let second :=
    Client.searchComments 0 silentHarvest oneResultParams 1 2000 (snd first) in
  let fallback :=
    Server.searchComments 0 failingWorld twoResultsParams (Num.Int 1) (initialState 0)
      SearchCache.default in
  option_map ids (Client.returned first) = Some ["mock1"] /\
  option_map ids (Client.returned second)
    = Some ["mock1"; "mock2"; "mock3"; "mock4"; "mock5"] /\
  Client.limit oneResultParams = 1%nat /\
  option_map ids (Server.returned fallback)
    = Some ["mock1"; "mock2"; "mock3"; "mock4"; "mock5"] /\
  Server.limit twoResultsParams = Num.Int 2.
Proof.
  repeat split; vm_compute; reflexivity.
Qed.

(* ========================================================================= *)
(** * Further properties of the modelled code *)

(* ------------------------------------------------------------------------- *)
(** ** The cache, continued *)

Lemma set_stores now key res c c' :
  SearchCache.set now key res c = Ok c' ->
  SearchCache.map_get key (SearchCache.cache c') = Some (SearchCache.mkEntry now res).
Proof.
  unfold SearchCache.set. destruct (_ <=? _)%nat.
  - destruct (jsSort _ _) as [|[k e] t]; [discriminate|].
    intros H. injection H as <-. apply SearchCacheFacts.map_get_set_same.
  - intros H. injection H as <-. apply SearchCacheFacts.map_get_set_same.
Qed.

Lemma get_after_set_fresh c0 c T t key res :
  SearchCache.set T key res c0 = Ok c ->
  t - T <= SearchCache.ttl c ->
  SearchCache.get t key c = (Some res, c).
Proof.
  intros Hset Ht. pose proof (set_stores _ _ _ _ _ Hset) as Hget.
  unfold SearchCache.get. rewrite Hget. simpl.
  destruct (Z.gtb_spec (t - T) (SearchCache.ttl c)); [lia|reflexivity].
Qed.

(** X1.  What [set] stored is read back by [get] as long as no more than [ttl]
    milliseconds have passed, the bound included; after that the [get] returns
    nothing, removes that entry and leaves every other key as it was. *)
Theorem cache_get_after_set (c0 c : SearchCache.t) (T t : Z) (key : string)
  (res : list RedditComment) :
  SearchCache.set T key res c0 = Ok c ->
  (t - T <= SearchCache.ttl c -> SearchCache.get t key c = (Some res, c)) /\
  (SearchCache.ttl c < t - T ->
     fst (SearchCache.get t key c) = None /\
     SearchCache.map_get key (SearchCache.cache (snd (SearchCache.get t key c))) = None /\
     forall k, k <> key ->
       SearchCache.map_get k (SearchCache.cache (snd (SearchCache.get t key c)))
       = SearchCache.map_get k (SearchCache.cache c)).
Proof.
  intros Hset. split; intros Ht; [exact (get_after_set_fresh _ _ _ _ _ _ Hset Ht)|].
  pose proof (set_stores _ _ _ _ _ Hset) as Hget.
  unfold SearchCache.get. rewrite Hget. simpl.
  - destruct (Z.gtb_spec (t - T) (SearchCache.ttl c)); [|lia]. simpl.
    split; [reflexivity|]. split.
    + apply SearchCacheFacts.map_get_delete_same.
    + intros k Hk. now apply SearchCacheFacts.map_get_delete_other.
Qed.

Lemma cache_get_after_set_witness :
  SearchCache.get 301000 "k" (SearchCache.set_state 1000 "k" (mockComments 0) SearchCache.default)
  = (Some (mockComments 0),
     SearchCache.set_state 1000 "k" (mockComments 0) SearchCache.default).
Proof.
  refine (proj1 (cache_get_after_set SearchCache.default _ 1000 301000 "k"
                   (mockComments 0) eq_refl) _).
  simpl. lia.
Defined.

(** A [get] of a key the cache does not hold returns nothing and changes
    nothing. *)
Theorem cache_get_missing (c : SearchCache.t) (t : Z) (key : string) :
  SearchCache.map_get key (SearchCache.cache c) = None ->
  SearchCache.get t key c = (None, c).
Proof. intros H. unfold SearchCache.get. now rewrite H. Qed.

(** X2.  With a positive capacity [set] never throws; with capacity 0 it throws a
    TypeError on the empty cache, which then stays empty. *)
Theorem cache_set_throws_only_without_capacity (c : SearchCache.t) (now : Z)
  (key : string) (res : list RedditComment) :
  ((0 < SearchCache.maxSize c)%nat ->
     exists c', SearchCache.set now key res c = Ok c') /\
  (SearchCache.maxSize c = 0%nat -> SearchCache.cache c = [] ->
     SearchCache.set now key res c = Throw TypeError /\
     SearchCache.set_state now key res c = c).
Proof.
  split.
  - intros Hpos. unfold SearchCache.set.
    destruct (Nat.leb_spec (SearchCache.maxSize c) (length (SearchCache.cache c)));
      [|eauto].
    destruct (jsSort _ _) as [|[k e] t] eqn:E; [|eauto].
    apply jsSort_nil_inv in E. rewrite E in *. simpl in *. lia.
  - intros Hz He. unfold SearchCache.set_state, SearchCache.set. rewrite Hz, He.
    simpl. split; reflexivity.
Qed.

Lemma cache_set_throws_only_without_capacity_witness :
  (exists c', SearchCache.set 5 "k" [] fullCache = Ok c') /\
  SearchCache.set 5 "k" [] (SearchCache.new 0 1000) = Throw TypeError.
Proof.
  split.
  - apply (proj1 (cache_set_throws_only_without_capacity fullCache 5 "k" [])).
    simpl. lia.
  - apply (proj2 (cache_set_throws_only_without_capacity (SearchCache.new 0 1000) 5 "k" []));
      reflexivity.
Defined.

Lemma map_set_present_length k e e0 m :
  SearchCache.map_get k m = Some e0 -> length (SearchCache.map_set k e m) = length m.
Proof.
  induction m as [|[k2 e2] r IH]; simpl; [discriminate|].
  destruct (String.eqb k k2); simpl; [reflexivity|]. intros H. now rewrite IH.
Qed.

(** X3.  A full cache loses an entry when a key it already holds is written
    again: the oldest other entry is evicted although no room was needed. *)
Theorem cache_rewrite_at_capacity_shrinks (c c' : SearchCache.t) (now : Z)
  (key oldestKey : string) (old oldest : SearchCache.Entry)
  (rest : list (string * SearchCache.Entry)) (res : list RedditComment) :
  SearchCache.wf c ->
  SearchCache.size c = SearchCache.maxSize c ->
  SearchCache.map_get key (SearchCache.cache c) = Some old ->
  jsSort SearchCache.byTimestamp (SearchCache.cache c) = (oldestKey, oldest) :: rest ->
  oldestKey <> key ->
  SearchCache.set now key res c = Ok c' ->
  S (SearchCache.size c') = SearchCache.maxSize c /\
  SearchCache.map_get oldestKey (SearchCache.cache c') = None.
Proof.
  intros Hwf Hsize Hkey Hsort Hne Hset.
  destruct (SearchCacheFacts.oldest_is_least _ _ _ _ Hsort) as [Hin _].
  unfold SearchCache.set in Hset. unfold SearchCache.size in Hsize.
  rewrite Hsize, Nat.leb_refl, Hsort in Hset. injection Hset as <-.
  unfold SearchCache.size. simpl. split.
  - rewrite (map_set_present_length key _ old).
    + rewrite <- Hsize. apply SearchCacheFacts.map_delete_length; [exact Hwf|].
      now apply (in_map fst) in Hin.
    + rewrite SearchCacheFacts.map_get_delete_other by congruence. exact Hkey.
  - rewrite SearchCacheFacts.map_get_set_other by exact Hne.
    apply SearchCacheFacts.map_get_delete_same.
Qed.

Lemma cache_rewrite_at_capacity_shrinks_witness :
  S (SearchCache.size (SearchCache.set_state 40 "c" [] fullCache)) = 3%nat /\
  SearchCache.map_get "a" (SearchCache.cache (SearchCache.set_state 40 "c" [] fullCache))
  = None.
Proof.
  refine (cache_rewrite_at_capacity_shrinks fullCache _ 40 "c" "a"
            (SearchCache.mkEntry 30 []) (SearchCache.mkEntry 10 []) _ [] _ _ eq_refl
            eq_refl _ eq_refl).
  - unfold SearchCache.wf. simpl. repeat constructor; simpl; intuition discriminate.
  - reflexivity.
  - discriminate.
Defined.

Lemma jsSort_head_first {A : Type} (le : A -> A -> bool) x l :
  (forall y, In y l -> le x y = true) -> exists t, jsSort le (x :: l) = x :: t.
Proof.
  intros H. simpl. destruct (jsSort le l) as [|m t] eqn:E; simpl; [eauto|].
  assert (Hm : In m l).
  { apply (Permutation_in m (Permutation_sym (jsSort_perm le l))). rewrite E. now left. }
  rewrite (H m Hm). eauto.
Qed.

(** X4.  Among entries of equal (least) timestamp the one inserted first is the
    one evicted: if no entry is older than the first entry of the map, a
    [set] on the full cache deletes that first entry. *)
Theorem cache_evicts_first_inserted_on_ties (c : SearchCache.t) (now : Z)
  (key firstKey : string) (first : SearchCache.Entry)
  (rest : list (string * SearchCache.Entry)) (res : list RedditComment) :
  SearchCache.cache c = (firstKey, first) :: rest ->
  (forall k e, In (k, e) rest ->
     SearchCache.e_timestamp first <= SearchCache.e_timestamp e) ->
  (SearchCache.maxSize c <= SearchCache.size c)%nat ->
  SearchCache.set now key res c =
    Ok (SearchCache.with_cache c
          (SearchCache.map_set key (SearchCache.mkEntry now res)
             (SearchCache.map_delete firstKey (SearchCache.cache c)))).
Proof.
  intros Hc Hmin Hfull. unfold SearchCache.set. unfold SearchCache.size in Hfull.
  destruct (Nat.leb_spec (SearchCache.maxSize c) (length (SearchCache.cache c))); [|lia].
  rewrite Hc.
  destruct (jsSort_head_first SearchCache.byTimestamp (firstKey, first) rest) as [t Ht].
  - intros [k e] Hin. unfold SearchCache.byTimestamp. simpl.
    specialize (Hmin k e Hin). lia.
  - rewrite Ht. reflexivity.
Qed.

Lemma cache_evicts_first_inserted_on_ties_witness :
  SearchCache.set 9 "z" []
    (SearchCache.mkCache [("x", SearchCache.mkEntry 5 []); ("y", SearchCache.mkEntry 5 [])]
       2 1000)
  = Ok (SearchCache.mkCache [("y", SearchCache.mkEntry 5 []); ("z", SearchCache.mkEntry 9 [])]
          2 1000).
Proof.
  refine (cache_evicts_first_inserted_on_ties
            (SearchCache.mkCache
               [("x", SearchCache.mkEntry 5 []); ("y", SearchCache.mkEntry 5 [])] 2 1000)
            9 "z" "x" (SearchCache.mkEntry 5 [])
            [("y", SearchCache.mkEntry 5 [])] [] eq_refl _ _).
  - intros k e [H|[]]. injection H as <- <-. simpl. lia.
  - unfold SearchCache.size. simpl. lia.
Defined.

(* ------------------------------------------------------------------------- *)
(** ** The credential manager, continued *)

(** X5.  A granted token is stored with the expiry [now + expires_in - 60 s] and
    the counter reset; until that instant every call returns it without any
    outbound call or wait.  A grant of 60 seconds or less is expired as soon
    as it is stored. *)
Theorem token_reused_until_expiry (w : World) (s : State) (tok : string)
  (expires_in : Z) :
  tokenValid s = false ->
  exchange w (posts s) = Granted tok expires_in ->
  tok <> EmptyString ->
  let s1 := snd (getRedditAccessToken w s) in
  fst (getRedditAccessToken w s) = Ok tok /\
  accessToken s1 = Some tok /\
  tokenRetryCount s1 = 0%nat /\
  tokenExpiration s1 = clock s1 + expires_in * 1000 - 60000 /\
  (forall w' s2,
     accessToken s2 = Some tok -> tokenExpiration s2 = tokenExpiration s1 ->
     clock s2 < tokenExpiration s1 ->
     getRedditAccessToken w' s2 = (Ok tok, s2)) /\
  (expires_in * 1000 <= 60000 -> tokenValid s1 = false).
Proof.
  intros Hinv Hgrant Hne s1. subst s1.
  rewrite (getRedditAccessToken_refresh w s Hinv).
  unfold exchangeCredentials, axiosPost.
  destruct (backoffTime (tokenRetryCount s) >? 0); unfold sleep; state_simpl;
    rewrite Hgrant; unfold setToken; state_simpl.
  all: repeat split; try reflexivity.
  all: try (intros w' s2 Htok Hexp Hclk;
            unfold getRedditAccessToken; rewrite Htok; unfold truthy;
            destruct tok; [contradiction|]; rewrite Hexp;
            match goal with
            | |- context [?a <? ?b] => destruct (Z.ltb_spec a b); [reflexivity|lia]
            end).
  all: intros Hshort; unfold tokenValid; state_simpl;
       match goal with
       | |- context [?a <? ?b] => destruct (Z.ltb_spec a b); [lia|]
       end; apply andb_false_r.
Qed.

Lemma token_reused_until_expiry_witness :
  fst (getTokenRepeatedly grantingWorld 3 (initialState 0)) = [Ok "token"; Ok "token"; Ok "token"] /\
  fst (getRedditAccessToken grantingWorld (initialState 0)) = Ok "token".
Proof.
  split; [vm_compute; reflexivity|].
  refine (proj1 (token_reused_until_expiry grantingWorld (initialState 0) "token" 3600
                   eq_refl eq_refl _)).
  discriminate.
Defined.

Lemma getRedditAccessToken_trace w s :
  trace (snd (getRedditAccessToken w s)) = trace s \/
  trace (snd (getRedditAccessToken w s))
  = trace s ++ backoffEvents (tokenRetryCount s) ++ [Post].
Proof.
  unfold getRedditAccessToken.
  assert (Hex : trace (snd (exchangeCredentials w s))
                = trace s ++ backoffEvents (tokenRetryCount s) ++ [Post]).
  { unfold exchangeCredentials, backoffEvents, axiosPost.
    destruct (backoffTime (tokenRetryCount s) >? 0); unfold sleep; state_simpl;
      (destruct (exchange w _); [|destruct (3 <? S _)%nat]);
      unfold setToken, setRetryCount; state_simpl;
      rewrite <- ?app_assoc; reflexivity. }
  destruct (accessToken s); [destruct (_ && _)|]; state_simpl; auto.
Qed.

Lemma backoffEvents_usual n : (n <= 3)%nat -> Forall usualBackoff (backoffEvents n).
Proof.
  intros H. unfold backoffEvents.
  destruct n as [|[|[|[|n]]]]; try lia; cbv;
    [constructor|constructor; [auto|constructor]..].
Qed.

(** X6.  Starting from the initial state, whatever the token endpoint answers, the
    only waits ever made by the credential manager are 2000, 4000 and 8000
    ms: the 30000 ms cap is never reached. *)
Theorem token_backoff_values (w : World) (n : nat) (now : Z) :
  Forall usualBackoff (trace (snd (getTokenRepeatedly w n (initialState now)))) /\
  (tokenRetryCount (snd (getTokenRepeatedly w n (initialState now))) <= 3)%nat.
Proof.
  assert (H : forall n s, Forall usualBackoff (trace s) -> (tokenRetryCount s <= 3)%nat ->
            Forall usualBackoff (trace (snd (getTokenRepeatedly w n s))) /\
            (tokenRetryCount (snd (getTokenRepeatedly w n s)) <= 3)%nat).
  { clear n. induction n as [|n IH]; intros s Ht Hc; [simpl; auto|].
    cbn [getTokenRepeatedly].
    pose proof (getRedditAccessToken_trace w s) as Htr.
    pose proof (retryCount_bounded w s Hc) as Hc'.
    destruct (getRedditAccessToken w s) as [r s1]. state_simpl.
    assert (Ht1 : Forall usualBackoff (trace s1)).
    { destruct Htr as [-> | ->]; [exact Ht|].
      apply Forall_app. split; [exact Ht|].
      apply Forall_app. split; [now apply backoffEvents_usual|].
      repeat constructor. }
    specialize (IH s1 Ht1 Hc').
    destruct (getTokenRepeatedly w n s1) as [rs s2]. exact IH. }
  apply H; simpl; [constructor|lia].
Qed.

(* ------------------------------------------------------------------------- *)
(** ** The rate-limited client, continued *)

(** X7.  Only the statuses 429 and 401 are retried: an attempt that ends in any
    other error (another status, a network failure, a failed authentication)
    ends the call with that error, in the state the attempt left.  When the
    authentication is what failed, no GET was issued at all. *)
Theorem request_rethrows_other_errors (w : World) (url : string) (attempt : nat)
  (s s1 : State) (e : JsError) :
  requestOnce w url s = (Throw e, s1) ->
  hasStatus 429 e = false ->
  hasStatus 401 e = false ->
  redditApiRequest w url attempt s = (Throw e, s1) /\
  (gets s1 <= S (gets s))%nat /\
  (fst (getRedditAccessToken w s) = Throw e -> gets s1 = gets s).
Proof.
  intros Hreq H429 H401. split; [|split].
  - rewrite redditApiRequest_body, Hreq, H429, H401. reflexivity.
  - pose proof (requestOnce_counts w url s) as [Hg _]. now rewrite Hreq in Hg.
  - intros Hauth. destruct (getRedditAccessToken_counts w s) as (Hg & _ & _).
    unfold requestOnce in Hreq.
    destruct (getRedditAccessToken w s) as [[tok|e'] s0]; state_simpl;
      [discriminate|]. injection Hreq as _ <-. exact Hg.
Qed.

Lemma request_rethrows_other_errors_witness :
  redditApiRequest brokenWorld "u" 1 (initialState 0)
  = (Throw (AxiosError (Some 500)), snd (requestOnce brokenWorld "u" (initialState 0))).
Proof.
  refine (proj1 (request_rethrows_other_errors brokenWorld "u" 1 (initialState 0) _
                   (AxiosError (Some 500)) eq_refl eq_refl eq_refl)).
Defined.

(** X8.  On a 401 the stored token is dropped.  If attempts remain the call goes
    on at once (no wait) as the call with [attempt + 1], whose first step is
    a new credential exchange; otherwise the 401 is thrown. *)
Theorem request_refreshes_token_on_401 (w : World) (url : string) (attempt : nat)
  (s s1 : State) :
  requestOnce w url s = (Throw (AxiosError (Some 401)), s1) ->
  ((attempt < maxAttempts)%nat ->
     redditApiRequest w url attempt s
     = redditApiRequest w url (S attempt) (clearToken s1)) /\
  (~ (attempt < maxAttempts)%nat ->
     redditApiRequest w url attempt s = (Throw (AxiosError (Some 401)), clearToken s1)) /\
  accessToken (clearToken s1) = None /\
  trace (clearToken s1) = trace s1 /\
  getRedditAccessToken w (clearToken s1) = exchangeCredentials w (clearToken s1).
Proof.
  intros Hreq. repeat split.
  - intros Hlt. rewrite redditApiRequest_body, Hreq. simpl.
    destruct (lt_dec attempt maxAttempts); [reflexivity|contradiction].
  - intros Hge. rewrite redditApiRequest_body, Hreq. simpl.
    destruct (lt_dec attempt maxAttempts); [contradiction|reflexivity].
Qed.

Lemma request_refreshes_token_on_401_witness :
  fst (redditApiRequest expiredTokenWorld "u" 1 (initialState 0)) = Ok OtherData /\
  trace (snd (redditApiRequest expiredTokenWorld "u" 1 (initialState 0)))
  = [Post; Get "u"; Post; Get "u"] /\
  redditApiRequest expiredTokenWorld "u" 1 (initialState 0)
  = redditApiRequest expiredTokenWorld "u" 2
      (clearToken (snd (requestOnce expiredTokenWorld "u" (initialState 0)))).
Proof.
  split; [vm_compute; reflexivity|]. split; [vm_compute; reflexivity|].
  refine (proj1 (request_refreshes_token_on_401 expiredTokenWorld "u" 1 (initialState 0)
                   _ eq_refl) _).
  unfold maxAttempts. lia.
Defined.

(* ------------------------------------------------------------------------- *)
(** ** The tree extractor, continued *)

Lemma processEach_app subreddit postId depth l1 l2 comments :
  processEach subreddit postId depth (l1 ++ l2) comments =
  match processEach subreddit postId depth l1 comments with
  | Ok comments' => processEach subreddit postId depth l2 comments'
  | Throw e => Throw e
  end.
Proof.
  revert comments. induction l1 as [|i r IH]; intros comments; [reflexivity|].
  cbn [app processEach].
  destruct (processItem subreddit postId depth i comments); [apply IH|reflexivity].
Qed.

(** X9.  A deleted or removed comment is dropped together with all its replies:
    the extraction gives what it gives without that node. *)
Theorem extraction_drops_deleted_subtree (before after : list Item) (p : Payload Item)
  (subreddit postId : string) :
  isDeleted p = true ->
  extractComments (Some (before ++ mkItem "t1" (Some p) :: after)) subreddit postId
  = extractComments (Some (before ++ after)) subreddit postId.
Proof.
  intros Hdel. unfold extractComments, processComments. cbn [depthCap Nat.ltb Nat.leb].
  rewrite !processEach_app.
  destruct (processEach subreddit postId 0 before []) as [acc|e]; [|reflexivity].
  cbn [processEach]. rewrite processItem_body. cbn [String.eqb Ascii.eqb Bool.eqb].
  now rewrite Hdel.
Qed.

Lemma extraction_drops_deleted_subtree_witness :
  extractComments (Some [mkItem "t1" (Some deletedWithReply)]) "s" "p" = Ok [].
Proof.
  exact (extraction_drops_deleted_subtree [] [] deletedWithReply "s" "p" eq_refl).
Defined.

Lemma buildComment_wellFormed sub postId d c :
  isDeleted d = false -> buildComment sub postId d = Ok c ->
  wellFormedExtract sub postId c.
Proof.
  unfold buildComment, toISOString, isDeleted. intros Hdel.
  destruct (optMul1000 (d_created_utc d)) as [t|]; [|discriminate].
  destruct (Z.leb_spec (Z.abs t) 8640000000000000) as [Hrange|]; [|discriminate].
  intros Hc. injection Hc as <-. unfold wellFormedExtract. simpl.
  apply orb_false_elim in Hdel. destruct Hdel as [Hbody _].
  repeat split; try assumption.
  - destruct (d_body d) as [[|ch r]|]; simpl; try discriminate.
    apply orb_false_elim in Hbody. destruct Hbody as [Hb _].
    intros E. rewrite E in Hb. discriminate.
  - destruct (d_body d) as [[|ch r]|]; simpl; try discriminate.
    apply orb_false_elim in Hbody. destruct Hbody as [_ Hb].
    intros E. rewrite E in Hb. discriminate.
Qed.

Lemma processItem_wellFormed sub postId item :
  forall depth comments comments',
    Forall (wellFormedExtract sub postId) comments ->
    processItem sub postId depth item comments = Ok comments' ->
    Forall (wellFormedExtract sub postId) comments'.
Proof.
  induction item as [k|k p IH] using Item_nested_ind; intros depth comments comments' Hc;
    rewrite processItem_body; [intros H; now injection H as <-|].
  assert (Hrep : forall acc acc', Forall (wellFormedExtract sub postId) acc ->
            processComments sub postId (d_replies p) (S depth) acc = Ok acc' ->
            Forall (wellFormedExtract sub postId) acc').
  { unfold processComments. destruct (d_replies p) as [children|];
      [|intros acc acc' Ha H; now injection H as <-].
    destruct (depthCap <? S depth)%nat; [intros acc acc' Ha H; now injection H as <-|].
    induction IH as [|c rest Hc1 Hrest IHrest]; intros acc acc' Ha; cbn [processEach].
    - intros H; now injection H as <-.
    - destruct (processItem sub postId (S depth) c acc) as [acc1|e] eqn:E; [|discriminate].
      apply IHrest. eapply Hc1; eauto. }
  destruct (String.eqb k "t1"); [|apply Hrep, Hc].
  destruct (isDeleted p) eqn:Hdel; [intros H; now injection H as <-|].
  destruct (buildComment sub postId p) as [c|e] eqn:Hb; [|discriminate].
  apply Hrep. apply Forall_app. split; [exact Hc|].
  constructor; [|constructor]. eapply buildComment_wellFormed; eauto.
Qed.

(** X10.  Every comment the extractor returns carries the subreddit it was given
    and the permalink [/r/subreddit/comments/postId/id], has a body that is
    not a deletion sentinel, a sentiment, no score yet, and a timestamp in
    the range of [Date]. *)
Theorem extraction_output_well_formed (children : list Item) (sub postId : string)
  (comments : list RedditComment) :
  extractComments (Some children) sub postId = Ok comments ->
  Forall (wellFormedExtract sub postId) comments.
Proof.
  unfold extractComments, processComments. cbn [depthCap Nat.ltb Nat.leb].
  assert (H : forall l acc acc', Forall (wellFormedExtract sub postId) acc ->
            processEach sub postId 0 l acc = Ok acc' ->
            Forall (wellFormedExtract sub postId) acc').
  { induction l as [|i r IH]; intros acc acc' Ha; cbn [processEach].
    - intros E; now injection E as <-.
    - destruct (processItem sub postId 0 i acc) as [acc1|e] eqn:E; [|discriminate].
      apply IH. eapply processItem_wellFormed; eauto. }
  apply H. constructor.
Qed.

Lemma extraction_output_well_formed_witness :
  Forall (wellFormedExtract "s" "p")
    [mkComment "c1" "alice" "Rust is fast" "s" 7 1700000000000 (Some "/r/s/comments/p/c1")
       None None (Some 0) (Some neutral)].
Proof.
  apply (extraction_output_well_formed [rustComment] "s" "p"). reflexivity.
Defined.

(** The only exception the extractor throws is the RangeError of an unusable
    timestamp. *)
Lemma processItem_throws_RangeError sub postId item :
  forall depth comments e,
    processItem sub postId depth item comments = Throw e -> e = RangeError.
Proof.
  induction item as [k|k p IH] using Item_nested_ind; intros depth comments e;
    rewrite processItem_body; [discriminate|].
  assert (Hrep : forall acc e', processComments sub postId (d_replies p) (S depth) acc
                                = Throw e' -> e' = RangeError).
  { unfold processComments. destruct (d_replies p) as [children|]; [|discriminate].
    destruct (depthCap <? S depth)%nat; [discriminate|].
    induction IH as [|c rest Hc1 Hrest IHrest]; intros acc e'; cbn [processEach];
      [discriminate|].
    destruct (processItem sub postId (S depth) c acc) as [acc1|e1] eqn:E.
    - apply IHrest.
    - intros H. injection H as <-. eapply Hc1; eauto. }
  destruct (String.eqb k "t1"); [|apply Hrep].
  destruct (isDeleted p); [discriminate|].
  unfold buildComment, toISOString.
  destruct (optMul1000 (d_created_utc p)) as [t|].
  - destruct (Z.abs t <=? 8640000000000000); [apply Hrep|].
    intros H. now injection H as <-.
  - intros H. now injection H as <-.
Qed.

Lemma processEach_throws_RangeError sub postId depth l :
  forall comments e, processEach sub postId depth l comments = Throw e -> e = RangeError.
Proof.
  induction l as [|i r IH]; intros comments e; cbn [processEach]; [discriminate|].
  destruct (processItem sub postId depth i comments) as [acc|e1] eqn:E.
  - apply IH.
  - intros H. injection H as <-. eapply processItem_throws_RangeError; eauto.
Qed.

(** X11.  One live top-level comment without a usable [created_utc] makes the
    extraction throw, and [fetchCommentsFromPost] then returns no comment at
    all for the post, the good ones included. *)
Theorem extraction_fails_on_bad_timestamp (before after : list Item) (p : Payload Item)
  (sub postId : string) :
  isDeleted p = false ->
  toISOString (optMul1000 (d_created_utc p)) = Throw RangeError ->
  extractComments (Some (before ++ mkItem "t1" (Some p) :: after)) sub postId
  = Throw RangeError /\
  forall w s first,
    fst (redditApiRequest w
           (commentsUrl sub postId (nth (fst (drawRandom4 w s)) commentSortMethods ""))
           1 (snd (drawRandom4 w s)))
    = Ok (ArrayOf [first; Some (before ++ mkItem "t1" (Some p) :: after)]) ->
    fst (fetchCommentsFromPost w postId sub s) = [].
Proof.
  intros Hlive Hbad.
  assert (Hex : extractComments (Some (before ++ mkItem "t1" (Some p) :: after)) sub postId
                = Throw RangeError).
  { unfold extractComments, processComments. cbn [depthCap Nat.ltb Nat.leb].
    rewrite processEach_app.
    destruct (processEach sub postId 0 before []) as [acc|e] eqn:E.
    - cbn [processEach]. rewrite processItem_body. cbn [String.eqb Ascii.eqb Bool.eqb].
      rewrite Hlive. unfold buildComment. now rewrite Hbad.
    - f_equal. eapply processEach_throws_RangeError; eauto. }
  split; [exact Hex|].
  intros w s first Hreq. unfold fetchCommentsFromPost.
  destruct (drawRandom4 w s) as [k s1]. cbn [fst snd] in Hreq.
  destruct (redditApiRequest w _ 1 s1) as [r s2]. cbn [fst] in Hreq. subst r.
  cbn [length Nat.ltb Nat.leb nth]. now rewrite Hex.
Qed.

Lemma extraction_fails_on_bad_timestamp_witness :
  extractComments (Some [rustComment; mkItem "t1" (Some undatedComment)]) "s" "p"
  = Throw RangeError.
Proof.
  exact (proj1 (extraction_fails_on_bad_timestamp [rustComment] [] undatedComment "s" "p"
                  eq_refl eq_refl)).
Defined.

Lemma nestedThread_extract sub postId n :
  forall depth comments, (depth <= depthCap)%nat ->
    exists l, processItem sub postId depth (nestedThread n) comments = Ok (comments ++ l) /\
              length l = Nat.min (S n) (S depthCap - depth).
Proof.
  induction n as [|n IH]; intros depth comments Hle; cbn [nestedThread];
    rewrite processItem_body; cbn [String.eqb Ascii.eqb Bool.eqb];
    match goal with
    | |- context [isDeleted ?p] =>
        change (isDeleted p) with false; cbv iota;
        destruct (buildComment sub postId p) as [c|e] eqn:Hb; [|discriminate Hb]
    end; unfold processComments; cbn [d_replies].
  - exists [c]. split; [reflexivity|]. unfold depthCap in *. simpl length. lia.
  - destruct (Nat.ltb_spec depthCap (S depth)) as [Hcut|Hgo].
    + exists [c]. split; [reflexivity|]. unfold depthCap in *. simpl length. lia.
    + cbn [processEach].
      destruct (IH (S depth) (comments ++ [c]) Hgo) as [l [Hl Hlen]].
      rewrite Hl. exists (c :: l). split.
      * rewrite <- app_assoc. reflexivity.
      * simpl length. rewrite Hlen. unfold depthCap in *. lia.
Qed.

(** A thread of [n + 1] comments, each replying to the one before, yields
    [min(n + 1, 11)] comments: depths 0 to 10 are visited, and no more. *)
Theorem extraction_visits_eleven_levels (n : nat) (sub postId : string) :
  exists comments,
    extractComments (Some [nestedThread n]) sub postId = Ok comments /\
    length comments = Nat.min (S n) 11.
Proof.
  unfold extractComments, processComments. cbn [depthCap Nat.ltb Nat.leb processEach].
  destruct (nestedThread_extract sub postId n 0 []) as [l [Hl Hlen]];
    [unfold depthCap; lia|].
  rewrite Hl. exists l. split; [reflexivity|]. rewrite Hlen. reflexivity.
Qed.

(* ------------------------------------------------------------------------- *)
(** ** Sentiment *)

Lemma wordAtHead_spec w s :
  wordAtHead w s = true <-> exists post, s = (w ++ post)%string /\ headIsWord post = false.
Proof.
  revert s. induction w as [|a w IH]; intros s; simpl.
  - destruct s as [|c r]; simpl.
    + split; [exists EmptyString; auto|reflexivity].
    + split.
      * intros H. exists (String c r). split; [reflexivity|].
        simpl. now apply negb_true_iff in H.
      * intros [post [<- H]]. simpl in H. now rewrite H.
  - destruct s as [|c r].
    + split; [discriminate|intros [post [H _]]; discriminate].
    + rewrite andb_true_iff, IH. split.
      * intros [Heq [post [-> Hpost]]]. apply Ascii.eqb_eq in Heq. subst c. eauto.
      * intros [post [Heq Hpost]]. injection Heq as -> ->.
        split; [apply Ascii.eqb_refl|eauto].
Qed.

Lemma lastIsWord_cons c pre :
  lastIsWord (String c pre) = match pre with
                              | EmptyString => isWordChar c
                              | _ => lastIsWord pre
                              end.
Proof. reflexivity. Qed.

Lemma testWords_from_spec ws s :
  forall prev,
    testWords_from prev ws s = true <->
    exists pre w post,
      s = (pre ++ w ++ post)%string /\ In w ws /\
      match pre with
      | EmptyString => prev
      | _ => lastIsWord pre
      end = false /\ headIsWord post = false.
Proof.
  induction s as [|c r IH]; intros prev.
  - cbn [testWords_from]. rewrite orb_false_r, andb_true_iff, negb_true_iff,
      existsb_exists. split.
    + intros [Hprev [w [Hin Hw]]]. apply wordAtHead_spec in Hw.
      destruct Hw as [post [Hs Hpost]]. exists EmptyString, w, post. auto.
    + intros [pre [w [post (Hs & Hin & Hprev & Hpost)]]].
      destruct pre as [|a pre]; [|discriminate]. split; [exact Hprev|].
      exists w. split; [exact Hin|]. apply wordAtHead_spec. eauto.
  - cbn [testWords_from]. rewrite orb_true_iff, andb_true_iff, negb_true_iff,
      existsb_exists, IH. split.
    + intros [[Hprev [w [Hin Hw]]]|[pre [w [post (Hs & Hin & Hprev & Hpost)]]]].
      * apply wordAtHead_spec in Hw. destruct Hw as [post [Hs Hpost]].
        exists EmptyString, w, post. auto.
      * exists (String c pre), w, post. rewrite Hs.
        repeat split; auto; rewrite lastIsWord_cons; exact Hprev.
    + intros [pre [w [post (Hs & Hin & Hprev & Hpost)]]].
      destruct pre as [|a pre].
      * left. split; [exact Hprev|]. exists w. split; [exact Hin|].
        apply wordAtHead_spec. eauto.
      * right. simpl in Hs. injection Hs as -> ->.
        exists pre, w, post. repeat split; auto.
Qed.

Lemma testWords_spec ws s : testWords ws s = true <-> occursAsWord ws s.
Proof.
  unfold testWords, occursAsWord. rewrite testWords_from_spec.
  split; intros [pre [w [post (Hs & Hin & Hprev & Hpost)]]];
    exists pre, w, post; repeat split; auto; destruct pre; auto.
Qed.

(** X12.  The sentiment is positive exactly when one of the positive words stands
    as a whole word in the lower-cased body; negative when none does and a
    negative word does; neutral otherwise.  A positive word wins over a
    negative one. *)
Theorem sentiment_first_match_wins (body : string) :
  (classifySentiment body = positive <->
     occursAsWord positiveWords (toLowerCase body)) /\
  (classifySentiment body = negative <->
     ~ occursAsWord positiveWords (toLowerCase body) /\
     occursAsWord negativeWords (toLowerCase body)) /\
  (classifySentiment body = neutral <->
     ~ occursAsWord positiveWords (toLowerCase body) /\
     ~ occursAsWord negativeWords (toLowerCase body)).
Proof.
  unfold classifySentiment. rewrite <- !testWords_spec.
  destruct (testWords positiveWords (toLowerCase body));
    destruct (testWords negativeWords (toLowerCase body));
    repeat split; try congruence; try tauto; intros []; congruence.
Qed.

(* ------------------------------------------------------------------------- *)
(** ** Scores, continued *)

Lemma recency_cases now ts :
  let d := IZR (now - ts) in
  (d < 86400000 -> calculateRecencyScore now ts = 5 * (1 - d / 3600000 / 24))%R /\
  (86400000 <= d -> calculateRecencyScore now ts = 0)%R.
Proof.
  intros d. unfold calculateRecencyScore. fold d.
  destruct (Rlt_dec (d / (1000 * 60 * 60)) 24) as [H|H]; split; intros Hd;
    try reflexivity; lra.
Qed.

(** X13.  The recency bonus of a comment that is not dated in the future lies
    between 0 and 5, is 5 for a comment of this very instant and 0 from 24
    hours on; a newer comment never has a smaller bonus; a comment dated in
    the future gets more than 5. *)
Theorem recency_bonus_bounds (now ts ts' : Z) :
  (ts <= now ->
     (0 <= calculateRecencyScore now ts <= 5)%R) /\
  calculateRecencyScore now now = 5%R /\
  (86400000 <= now - ts -> calculateRecencyScore now ts = 0%R) /\
  (ts <= ts' -> (calculateRecencyScore now ts <= calculateRecencyScore now ts')%R) /\
  (now < ts -> (5 < calculateRecencyScore now ts)%R).
Proof.
  destruct (recency_cases now ts) as [Hlt Hge].
  destruct (recency_cases now ts') as [Hlt' Hge'].
  destruct (recency_cases now now) as [Hnow _].
  cbv zeta in *.
  assert (Hd : forall a b, a <= b -> (IZR a <= IZR b)%R) by (intros; now apply IZR_le).
  assert (Hs : forall a b, a < b -> (IZR a < IZR b)%R) by (intros; now apply IZR_lt).
  split; [|split; [|split; [|split]]].
  - intros Hle. pose proof (Hd 0 (now - ts) ltac:(lia)) as H0.
    destruct (Rlt_dec (IZR (now - ts)) 86400000) as [H|H];
      [rewrite Hlt by exact H|rewrite Hge by lra]; lra.
  - rewrite Hnow; replace (now - now) with 0 by lia; lra.
  - intros Hold. apply Hge. apply (Hd 86400000 (now - ts)). lia.
  - intros Hle. pose proof (Hd (now - ts') (now - ts) ltac:(lia)) as Hdd.
    destruct (Rlt_dec (IZR (now - ts)) 86400000) as [H|H];
      destruct (Rlt_dec (IZR (now - ts')) 86400000) as [H'|H'];
      rewrite ?Hlt, ?Hge, ?Hlt', ?Hge' by lra; lra.
  - intros Hfut. pose proof (Hs (now - ts) 0 ltac:(lia)) as Hneg.
    rewrite Hlt by lra. lra.
Qed.

Lemma recency_bonus_bounds_witness :
  (0 <= calculateRecencyScore 7200000 3600000 <= 5)%R.
Proof.
  apply (proj1 (recency_bonus_bounds 7200000 3600000 3600000)). lia.
Defined.

(** More matches never give a smaller score. *)
Theorem score_monotone_in_match_count (now : Z) (c : RedditComment) (m m' : Z) :
  m <= m' ->
  ~ jsLt (calculateScore now c m') (calculateScore now c m).
Proof.
  intros Hle. apply notAbove_not_lt. unfold calculateScore.
  apply notAbove_add_l, notAbove_scale; [lra|]. apply log10_monotone. lia.
Qed.

Lemma score_monotone_in_match_count_witness :
  ~ jsLt (calculateScore 0 (mkComment "a" "b" "c" "d" 0 0 None None None None None) 4)
         (calculateScore 0 (mkComment "a" "b" "c" "d" 0 0 None None None None None) 1).
Proof.
  apply (score_monotone_in_match_count 0
           (mkComment "a" "b" "c" "d" 0 0 None None None None None) 1 4). lia.
Defined.

(* ------------------------------------------------------------------------- *)
(** ** Filtering and sorting in the client copy *)

Section SortSorted.
Context {A : Type} (le : A -> A -> bool).
Hypothesis le_total : forall a b, le a b = true \/ le b a = true.
Hypothesis le_trans : forall a b c, le a b = true -> le b c = true -> le a c = true.

Lemma sort_insert_sorted x l :
  StronglySorted (fun a b => le a b = true) l ->
  StronglySorted (fun a b => le a b = true) (sort_insert le x l).
Proof.
  induction l as [|y r IH]; simpl; intros Hs.
  - constructor; [constructor|constructor].
  - inversion Hs as [|? ? Hr Hy]; subst.
    destruct (le x y) eqn:E.
    + constructor; [exact Hs|]. constructor; [exact E|].
      rewrite Forall_forall in *. intros z Hz. eapply le_trans; [exact E|auto].
    + constructor; [auto|].
      assert (Hyx : le y x = true) by (destruct (le_total x y); congruence).
      rewrite Forall_forall in *. intros z Hz.
      apply (Permutation_in z (Permutation_sym (sort_insert_perm le x r))) in Hz.
      destruct Hz as [<-|Hz]; auto.
Qed.

(** Sorting by a total preorder gives an ordered list. *)
Lemma jsSort_sorted l : StronglySorted (fun a b => le a b = true) (jsSort le l).
Proof.
  induction l as [|x r IH]; simpl; [constructor|]. now apply sort_insert_sorted.
Qed.
End SortSorted.

Lemma StronglySorted_sub {A B : Type} (R : A -> A -> Prop) (f : B * A -> bool) (l : list A) :
  forall idx : list B,
    StronglySorted R l -> StronglySorted R (map snd (filter f (combine idx l))).
Proof.
  induction l as [|x r IH]; intros idx Hs.
  - destruct idx; constructor.
  - destruct idx as [|i idx]; [constructor|]. simpl.
    inversion Hs as [|? ? Hr Hx]; subst.
    destruct (f (i, x)); simpl; [|auto].
    constructor; [auto|].
    rewrite Forall_forall in *. intros z Hz. apply Hx.
    apply in_map_iff in Hz. destruct Hz as [[j z'] [<- Hin]].
    apply filter_In in Hin. destruct Hin as [Hin _]. now apply in_combine_r in Hin.
Qed.

Lemma removeDuplicates_sorted (R : RedditComment -> RedditComment -> Prop) l :
  StronglySorted R l -> StronglySorted R (removeDuplicates l).
Proof. apply StronglySorted_sub. Qed.

Lemma removeDuplicates_length l : (length (removeDuplicates l) <= length l)%nat.
Proof.
  unfold removeDuplicates. rewrite length_map.
  etransitivity; [apply filter_length_le|].
  rewrite length_combine, length_seq. lia.
Qed.

Lemma client_sortComments_perm sortBy l : Permutation l (Client.sortComments sortBy l).
Proof.
  unfold Client.sortComments.
  repeat match goal with |- context [if ?b then _ else _] => destruct b end;
    apply jsSort_perm.
Qed.

Lemma filterMap_length {A B : Type} (f : A -> option B) l :
  (length (filterMap f l) <= length l)%nat.
Proof.
  induction l as [|x r IH]; simpl; [lia|]. destruct (f x); simpl; lia.
Qed.

Lemma filterMap_In {A B : Type} (f : A -> option B) l y :
  In y (filterMap f l) -> exists x, In x l /\ f x = Some y.
Proof.
  induction l as [|x r IH]; simpl; [tauto|].
  destruct (f x) as [y'|] eqn:E.
  - intros [<-|H]; [eauto|]. destruct (IH H) as [x' [H1 H2]]. eauto.
  - intros H. destruct (IH H) as [x' [H1 H2]]. eauto.
Qed.

Lemma sameButScores_refl a : sameButScores a a.
Proof. unfold sameButScores. repeat split. Qed.

Lemma scored_same now c n : sameButScores c (Client.scored now c n).
Proof. unfold sameButScores. repeat split. Qed.

Lemma withBaseScore_same now c : sameButScores c (Client.withBaseScore now c).
Proof. unfold sameButScores. repeat split. Qed.

Lemma client_stage_sound now comments searchTerms regexes filterType query minUpvotes c' :
  In c'
    (let filteredComments := filter (fun c => minUpvotes <=? upvotes c) comments in
     if Client.isNil searchTerms && String.eqb filterType "all"
     then map (Client.withBaseScore now) filteredComments
     else if String.eqb filterType "keyword"
     then filterMap (Client.keywordFilter now regexes) filteredComments
     else if String.eqb filterType "subreddit"
     then map (Client.withBaseScore now)
            (filter (fun c => String.eqb (toLowerCase (subreddit c)) (toLowerCase query))
                    filteredComments)
     else if String.eqb filterType "author"
     then map (Client.withBaseScore now)
            (filter (fun c => includes (toLowerCase (author c)) (toLowerCase query))
                    filteredComments)
     else filterMap (Client.allFilter now searchTerms regexes query) filteredComments) ->
  exists c, In c comments /\ sameButScores c c' /\ minUpvotes <= upvotes c'.
Proof.
  cbv zeta.
  assert (Hf : forall c, In c (filter (fun c => minUpvotes <=? upvotes c) comments) ->
                         In c comments /\ minUpvotes <= upvotes c).
  { intros c Hc. apply filter_In in Hc. destruct Hc as [H1 H2].
    split; [exact H1|]. now apply Z.leb_le. }
  assert (Hmap : forall l, (forall c, In c l -> In c comments /\ minUpvotes <= upvotes c) ->
            In c' (map (Client.withBaseScore now) l) ->
            exists c, In c comments /\ sameButScores c c' /\ minUpvotes <= upvotes c').
  { intros l Hl Hin. apply in_map_iff in Hin. destruct Hin as [c [<- Hc]].
    destruct (Hl c Hc). exists c. repeat split; auto. }
  destruct (_ && _); [now apply Hmap|].
  destruct (String.eqb filterType "keyword").
  { intros Hin. apply filterMap_In in Hin. destruct Hin as [c [Hc Hk]].
    destruct (Hf c Hc). unfold Client.keywordFilter in Hk.
    destruct (0 <? _)%nat; [|discriminate]. injection Hk as <-.
    exists c. split; [auto|]. split; [apply scored_same|auto]. }
  destruct (String.eqb filterType "subreddit").
  { apply Hmap. intros c Hc. apply filter_In in Hc. destruct Hc as [Hc _]. auto. }
  destruct (String.eqb filterType "author").
  { apply Hmap. intros c Hc. apply filter_In in Hc. destruct Hc as [Hc _]. auto. }
  intros Hin. apply filterMap_In in Hin. destruct Hin as [c [Hc Hk]].
  destruct (Hf c Hc). unfold Client.allFilter in Hk.
  destruct searchTerms.
  - injection Hk as <-. exists c. split; [auto|]. split; [apply sameButScores_refl|auto].
  - destruct (0 <? _)%nat; [|discriminate]. injection Hk as <-.
    exists c. split; [auto|]. split; [apply scored_same|auto].
Qed.

(** X14.  Whatever the filter mode and the sort criterion, the processed list has
    distinct ids, is no longer than the input, and each of its comments is
    one of the input comments (with scores filled in) whose upvotes reach
    [minUpvotes]. *)
Theorem processed_comments_come_from_input (now : Z) (comments : list RedditComment)
  (searchTerms : list string) (regexes : list RegExp)
  (filterType query sortBy : string) (minUpvotes : Z) :
  let out := Client.processCommentsWithSearchTerms now comments searchTerms regexes
               filterType query sortBy minUpvotes in
  NoDup (ids out) /\
  (length out <= length comments)%nat /\
  forall c', In c' out ->
    exists c, In c comments /\ sameButScores c c' /\ minUpvotes <= upvotes c'.
Proof.
  cbv zeta. unfold Client.processCommentsWithSearchTerms.
  split; [apply removeDuplicates_NoDup|]. split.
  - etransitivity; [apply removeDuplicates_length|].
    rewrite <- (Permutation_length (client_sortComments_perm sortBy _)).
    assert (Hfl : (length (filter (fun c => (minUpvotes <=? upvotes c)%Z) comments)
                   <= length comments)%nat) by apply filter_length_le.
    destruct (_ && _); [rewrite length_map; exact Hfl|].
    destruct (String.eqb filterType "keyword");
      [etransitivity; [apply filterMap_length|exact Hfl]|].
    destruct (String.eqb filterType "subreddit");
      [rewrite length_map; etransitivity; [apply filter_length_le|exact Hfl]|].
    destruct (String.eqb filterType "author");
      [rewrite length_map; etransitivity; [apply filter_length_le|exact Hfl]|].
    etransitivity; [apply filterMap_length|exact Hfl].
  - intros c' Hin. apply removeDuplicates_incl in Hin.
    apply (Permutation_in c' (Permutation_sym (client_sortComments_perm sortBy _))) in Hin.
    eapply client_stage_sound. exact Hin.
Qed.

Lemma StronglySorted_weaken {A : Type} (R S : A -> A -> Prop) l :
  (forall a b, R a b -> S a b) -> StronglySorted R l -> StronglySorted S l.
Proof.
  intros H. induction 1 as [|x r Hr IH Hx]; constructor; auto.
  rewrite Forall_forall in *. auto.
Qed.

Lemma byUpvotes_order :
  (forall a b, byUpvotes a b = true \/ byUpvotes b a = true) /\
  (forall a b c, byUpvotes a b = true -> byUpvotes b c = true -> byUpvotes a c = true).
Proof. unfold byUpvotes. split; intros; lia. Qed.

Lemma byTimestamp_order :
  (forall a b, byTimestamp a b = true \/ byTimestamp b a = true) /\
  (forall a b c, byTimestamp a b = true -> byTimestamp b c = true ->
                 byTimestamp a c = true).
Proof. unfold byTimestamp. split; intros; lia. Qed.

Lemma byAwards_order :
  (forall a b, byAwards a b = true \/ byAwards b a = true) /\
  (forall a b c, byAwards a b = true -> byAwards b c = true -> byAwards a c = true).
Proof. unfold byAwards. split; intros; lia. Qed.

Ltac score_cases :=
  repeat match goal with
         | |- context [Rlt_dec ?x ?y] => destruct (Rlt_dec x y)
         | H : context [Rlt_dec ?x ?y] |- _ => destruct (Rlt_dec x y)
         end;
  simpl in *; try tauto; try discriminate; try lra.

Lemma byScore_order :
  (forall a b, byScore a b = true \/ byScore b a = true) /\
  (forall a b c, byScore a b = true -> byScore b c = true -> byScore a c = true) /\
  (forall a b, byScore a b = true ->
               ~ jsLt (scoreOr0 (score a)) (scoreOr0 (score b))).
Proof.
  unfold byScore. repeat split.
  - intros a b. destruct (score a) as [[x| | |]|], (score b) as [[y| | |]|];
      simpl; score_cases.
  - intros a b c. destruct (score a) as [[x| | |]|], (score b) as [[y| | |]|],
      (score c) as [[z| | |]|]; simpl; score_cases.
  - intros a b. destruct (score a) as [[x| | |]|], (score b) as [[y| | |]|];
      simpl; score_cases.
Qed.

(** X15.  The processed list is in the order asked for: by upvotes, by timestamp
    or by awards (a missing count being 0), largest first; and for
    ['relevance'] by score, so that no comment is followed by one whose score
    compares greater. *)
Theorem processed_comments_sorted (now : Z) (comments : list RedditComment)
  (searchTerms : list string) (regexes : list RegExp) (filterType query : string)
  (minUpvotes : Z) :
  let out sortBy := Client.processCommentsWithSearchTerms now comments searchTerms
                      regexes filterType query sortBy minUpvotes in
  StronglySorted (fun a b => upvotes b <= upvotes a) (out "upvotes") /\
  StronglySorted (fun a b => timestamp b <= timestamp a) (out "timestamp") /\
  StronglySorted (fun a b => numOr0 (awards b) <= numOr0 (awards a)) (out "awards") /\
  StronglySorted (fun a b => ~ jsLt (scoreOr0 (score a)) (scoreOr0 (score b)))
    (out "relevance").
Proof.
  cbv zeta. unfold Client.processCommentsWithSearchTerms, Client.sortComments.
  cbn [String.eqb Ascii.eqb Bool.eqb].
  split; [|split; [|split]]; apply removeDuplicates_sorted.
  - eapply StronglySorted_weaken;
      [|apply (jsSort_sorted byUpvotes (proj1 byUpvotes_order) (proj2 byUpvotes_order))].
    unfold byUpvotes. intros a b H. lia.
  - eapply StronglySorted_weaken;
      [|apply (jsSort_sorted byTimestamp (proj1 byTimestamp_order)
                 (proj2 byTimestamp_order))].
    unfold byTimestamp. intros a b H. lia.
  - eapply StronglySorted_weaken;
      [|apply (jsSort_sorted byAwards (proj1 byAwards_order) (proj2 byAwards_order))].
    unfold byAwards. intros a b H. lia.
  - eapply StronglySorted_weaken;
      [|apply (jsSort_sorted byScore (proj1 byScore_order)
                 (proj1 (proj2 byScore_order)))].
    apply (proj2 (proj2 byScore_order)).
Qed.

Lemma findIndex_Some {A : Type} (p : A -> bool) l j :
  findIndex p l = Some j -> exists x, nth_error l j = Some x /\ p x = true.
Proof.
  revert j. induction l as [|y r IH]; simpl; intros j; [discriminate|].
  destruct (p y) eqn:E.
  - intros H. injection H as <-. exists y. auto.
  - destruct (findIndex p r) as [k|]; [|discriminate].
    intros H. injection H as <-. simpl. auto.
Qed.

Lemma findIndex_exists {A : Type} (p : A -> bool) l x :
  In x l -> p x = true -> exists j, findIndex p l = Some j.
Proof.
  induction l as [|y r IH]; simpl; [tauto|].
  intros Hin Hp. destruct (p y) eqn:E; [eauto|].
  destruct Hin as [->|Hin]; [congruence|].
  destruct (IH Hin Hp) as [j Hj]. rewrite Hj. simpl. eauto.
Qed.

Lemma nth_error_in_combine_seq {A : Type} (l : list A) :
  forall a j x, nth_error l j = Some x -> In ((a + j)%nat, x) (combine (seq a (length l)) l).
Proof.
  induction l as [|y r IH]; intros a j x; [destruct j; discriminate|].
  destruct j as [|j]; simpl.
  - intros H. injection H as ->. left. f_equal. lia.
  - intros H. right. replace (a + S j)%nat with (S a + j)%nat by lia. now apply IH.
Qed.

(** The final pass loses no id: every id of the list is an id of the result. *)
Lemma removeDuplicates_keeps_ids self i :
  In i (ids self) -> In i (ids (removeDuplicates self)).
Proof.
  unfold ids. intros Hin. apply in_map_iff in Hin. destruct Hin as [c [Hid Hc]].
  destruct (findIndex_exists (fun d => String.eqb (id d) i) self c Hc) as [j Hj];
    [now apply String.eqb_eq|].
  destruct (findIndex_Some _ _ _ Hj) as [c0 [Hnth Hp]]. apply String.eqb_eq in Hp.
  apply in_map_iff. exists c0. split; [exact Hp|].
  unfold removeDuplicates. apply in_map_iff. exists (j, c0). split; [reflexivity|].
  apply filter_In. split.
  - apply (nth_error_in_combine_seq self 0 j c0 Hnth).
  - unfold firstOfItsId. simpl. rewrite Hp, Hj. apply Nat.eqb_refl.
Qed.

(** In keyword mode nothing is kept when there is no search term, whatever
    the comments; in the ['all'] mode without search terms every comment
    whose upvotes reach [minUpvotes] is represented in the result. *)
Theorem keyword_mode_needs_terms (now : Z) (comments : list RedditComment)
  (query sortBy : string) (minUpvotes : Z) :
  Client.processCommentsWithSearchTerms now comments [] [] "keyword" query sortBy
    minUpvotes = [] /\
  forall c, In c comments -> minUpvotes <= upvotes c ->
    In (id c)
       (ids (Client.processCommentsWithSearchTerms now comments [] [] "all" query sortBy
               minUpvotes)).
Proof.
  split.
  - unfold Client.processCommentsWithSearchTerms. cbn [Client.isNil andb].
    cbn [String.eqb Ascii.eqb Bool.eqb].
    assert (H : forall l, filterMap (Client.keywordFilter now []) l = []).
    { induction l as [|c r IH]; [reflexivity|]. simpl. exact IH. }
    rewrite H, client_sortComments_nil. reflexivity.
  - intros c Hc Hup. unfold Client.processCommentsWithSearchTerms.
    cbn [Client.isNil andb String.eqb Ascii.eqb Bool.eqb].
    apply removeDuplicates_keeps_ids. unfold ids.
    apply (Permutation_in (id c)
             (Permutation_map id (client_sortComments_perm sortBy _))).
    rewrite map_map. apply in_map_iff. exists c. split; [reflexivity|].
    apply filter_In. split; [exact Hc|]. now apply Z.leb_le.
Qed.

Lemma keyword_mode_needs_terms_witness :
  In "mock1"
     (ids (Client.processCommentsWithSearchTerms 0 (mockComments 0) [] [] "all" ""
             "upvotes" 100)).
Proof.
  refine (proj2 (keyword_mode_needs_terms 0 (mockComments 0) "" "upvotes" 100)
            (nth 0 (mockComments 0) (mkComment "" "" "" "" 0 0 None None None None None))
            _ _).
  - simpl. auto.
  - simpl. lia.
Defined.

(* ------------------------------------------------------------------------- *)
(** ** Search terms and term matches *)

Lemma allChars_app f a b : allChars f (a ++ b) = allChars f a && allChars f b.
Proof.
  induction a as [|c r IH]; simpl; [reflexivity|]. now rewrite IH, andb_assoc.
Qed.

Lemma lowerChar_idem c : lowerChar (lowerChar c) = lowerChar c.
Proof. destruct c as [[] [] [] [] [] [] [] []]; reflexivity. Qed.

Lemma toLowerCase_lower s : allChars (fun c => Ascii.eqb (lowerChar c) c) (toLowerCase s) = true.
Proof.
  induction s as [|c r IH]; simpl; [reflexivity|].
  now rewrite lowerChar_idem, Ascii.eqb_refl, IH.
Qed.

Lemma allChars_lower_fixed s :
  allChars (fun c => Ascii.eqb (lowerChar c) c) s = true -> toLowerCase s = s.
Proof.
  induction s as [|c r IH]; simpl; [reflexivity|].
  intros H. apply andb_true_iff in H. destruct H as [Hc Hr].
  apply Ascii.eqb_eq in Hc. now rewrite Hc, IH.
Qed.

Lemma trimStart_chars f s : allChars f s = true -> allChars f (trimStart s) = true.
Proof.
  induction s as [|c r IH]; simpl; [reflexivity|].
  intros H. destruct (isSpace c); [|exact H].
  apply andb_true_iff in H. now apply IH.
Qed.

Lemma trimEnd_chars f s : allChars f s = true -> allChars f (trimEnd s) = true.
Proof.
  induction s as [|c r IH]; simpl; [reflexivity|].
  intros H. apply andb_true_iff in H. destruct H as [Hc Hr]. specialize (IH Hr).
  destruct (trimEnd r) as [|c' r']; simpl in *.
  - destruct (isSpace c); simpl; [reflexivity|now rewrite Hc].
  - now rewrite Hc.
Qed.

Lemma splitWs_from_pieces f s :
  forall cur inws t,
    allChars f s = true ->
    allChars (fun c => f c && negb (isSpace c)) cur = true ->
    In t (splitWs_from cur inws s) ->
    allChars (fun c => f c && negb (isSpace c)) t = true.
Proof.
  induction s as [|c r IH]; simpl; intros cur inws t Hs Hcur Hin.
  - destruct Hin as [<-|[]]. exact Hcur.
  - apply andb_true_iff in Hs. destruct Hs as [Hc Hr].
    destruct (isSpace c) eqn:Hsp.
    + destruct inws.
      * eapply IH; eauto.
      * destruct Hin as [<-|Hin]; [exact Hcur|]. eapply (IH EmptyString); eauto.
    + eapply (IH (cur ++ String c EmptyString)%string); eauto.
      rewrite allChars_app, Hcur. simpl. now rewrite Hc, Hsp.
Qed.

(** X16.  Every search term is non-empty, free of white space and in lower case. *)
Theorem search_terms_are_clean (q t : string) :
  In t (Client.searchTermsOf q) ->
  t <> EmptyString /\
  allChars (fun c => negb (isSpace c)) t = true /\
  toLowerCase t = t.
Proof.
  unfold Client.searchTermsOf, splitWs. intros Hin. apply filter_In in Hin.
  destruct Hin as [Hin Hlen].
  assert (Hp : allChars (fun c => Ascii.eqb (lowerChar c) c && negb (isSpace c)) t = true).
  { apply (splitWs_from_pieces (fun c => Ascii.eqb (lowerChar c) c)
             (trim (toLowerCase q)) EmptyString false t); [|reflexivity|exact Hin].
    unfold trim. apply trimEnd_chars, trimStart_chars, toLowerCase_lower. }
  split; [|split].
  - intros ->. discriminate.
  - clear Hin Hlen. induction t as [|c r IH]; simpl in *; [reflexivity|].
    apply andb_true_iff in Hp. destruct Hp as [Hc Hr].
    apply andb_true_iff in Hc. destruct Hc as [_ Hc]. now rewrite Hc, IH.
  - apply allChars_lower_fixed. clear Hin Hlen.
    induction t as [|c r IH]; simpl in *; [reflexivity|].
    apply andb_true_iff in Hp. destruct Hp as [Hc Hr].
    apply andb_true_iff in Hc. destruct Hc as [Hc _]. now rewrite Hc, IH.
Qed.

Lemma search_terms_are_clean_witness :
  Client.searchTermsOf "  Rust   GO " = ["rust"; "go"] /\ toLowerCase "go" = "go".
Proof.
  split; [reflexivity|].
  refine (proj2 (proj2 (search_terms_are_clean "  Rust   GO " "go" _))).
  simpl. auto.
Defined.

Lemma startsWith_length s p : startsWith s p = true -> (String.length p <= String.length s)%nat.
Proof.
  revert s. induction p as [|a p IH]; intros s; simpl; [lia|].
  destruct s as [|b s]; [discriminate|]. simpl.
  intros H. apply andb_true_iff in H. destruct H as [_ H]. specialize (IH s H). lia.
Qed.

Lemma toLowerCase_length s : String.length (toLowerCase s) = String.length s.
Proof. induction s as [|c r IH]; simpl; [reflexivity|]. now rewrite IH. Qed.

Lemma countMatches_from_includes p s :
  forall skip, (0 < countMatches_from skip p s)%nat -> includes s p = true.
Proof.
  induction s as [|c r IH]; intros skip; cbn [countMatches_from includes]; [lia|].
  destruct skip as [|k].
  - destruct (startsWith (String c r) p) eqn:E; [intros _; reflexivity|].
    intros H. rewrite (IH _ H). apply orb_true_r.
  - intros H. rewrite (IH _ H). apply orb_true_r.
Qed.

Lemma includes_countMatches p s :
  p <> EmptyString -> includes s p = true -> (0 < countMatches_from 0 p s)%nat.
Proof.
  intros Hp. induction s as [|c r IH].
  - destruct p; [contradiction|]. simpl. discriminate.
  - cbn [includes countMatches_from].
    destruct (startsWith (String c r) p); simpl; [lia|exact IH].
Qed.

Lemma countMatches_from_bound p s :
  p <> EmptyString ->
  forall skip, (skip <= String.length s)%nat ->
    (countMatches_from skip p s * String.length p + skip <= String.length s)%nat.
Proof.
  intros Hp. assert (Hlen : (1 <= String.length p)%nat).
  { destruct p; [contradiction|simpl; lia]. }
  induction s as [|c r IH]; intros skip Hskip;
    cbn [countMatches_from String.length] in *; [lia|].
  destruct skip as [|k].
  - destruct (startsWith (String c r) p) eqn:E.
    + apply startsWith_length in E. cbn [String.length] in E.
      specialize (IH (String.length p - 1)%nat ltac:(lia)).
      cbn [Nat.mul]. lia.
    + specialize (IH 0%nat ltac:(lia)). lia.
  - specialize (IH k ltac:(lia)). lia.
Qed.

Lemma countMatches_positive (re : RegExp) (text : string) :
  re <> EmptyString ->
  (0 < countMatches re text)%nat <->
  includes (toLowerCase text) (toLowerCase re) = true.
Proof.
  intros Hre. assert (Hl : toLowerCase re <> EmptyString).
  { destruct re; [contradiction|discriminate]. }
  unfold countMatches. split.
  - apply countMatches_from_includes.
  - now apply includes_countMatches.
Qed.

(** X17.  On ASCII text, for a non-empty ASCII term, the number of matches is
    positive exactly when the lower-cased text contains the lower-cased term,
    and the matches do not overlap: together they are no longer than the
    text. *)
Theorem term_matches_are_occurrences (re : RegExp) (text : string) :
  isAscii re = true ->
  isAscii text = true ->
  re <> EmptyString ->
  ((0 < countMatches re text)%nat <->
     includes (toLowerCase text) (toLowerCase re) = true) /\
  (countMatches re text * String.length re <= String.length text)%nat.
Proof.
  intros _ _ Hre. assert (Hl : toLowerCase re <> EmptyString).
  { destruct re; [contradiction|discriminate]. }
  split; [now apply countMatches_positive|]. unfold countMatches.
  - pose proof (countMatches_from_bound (toLowerCase re) (toLowerCase text) Hl 0%nat
                  ltac:(lia)) as H.
    rewrite !toLowerCase_length in H. lia.
Qed.

Lemma term_matches_are_occurrences_witness :
  (countMatches "go" "Go, go, GOGO" * 2 <= 12)%nat.
Proof.
  refine (proj2 (term_matches_are_occurrences "go" "Go, go, GOGO" _ _ _));
    [reflexivity|reflexivity|discriminate].
Defined.

Lemma fold_matches_positive {A : Type} (f : A -> nat) (l : list A) :
  forall n, (0 < fold_left (fun n x => (n + f x)%nat) l n)%nat <->
            (0 < n)%nat \/ exists x, In x l /\ (0 < f x)%nat.
Proof.
  induction l as [|x r IH]; intros n; simpl.
  - split; [auto|]. intros [H|[x [[] _]]]. exact H.
  - rewrite IH. split.
    + intros [H|[y [Hy Hf]]]; [|eauto].
      destruct (Nat.eq_dec n 0); [right; exists x; split; [auto|lia]|left; lia].
    + intros [H|[y [[<-|Hy] Hf]]]; [left; lia|left; lia|eauto].
Qed.

(** X18.  In keyword mode, when the body and the terms are ASCII and no term
    is empty, a comment is kept exactly when its lower-cased body contains
    one of the lower-cased terms. *)
Theorem keyword_filter_keeps_matching_bodies (now : Z) (regexes : list RegExp)
  (c : RedditComment) :
  isAscii (body c) = true ->
  Forall (fun re => isAscii re = true) regexes ->
  ~ In EmptyString regexes ->
  (Client.keywordFilter now regexes c <> None <->
   exists re, In re regexes /\
              includes (toLowerCase (body c)) (toLowerCase re) = true).
Proof.
  intros _ _ Hne. unfold Client.keywordFilter.
  destruct (Nat.ltb_spec 0
              (fold_left (fun n re => (n + countMatches re (body c))%nat) regexes 0%nat))
    as [Hpos|Hzero].
  - split; [intros _|discriminate].
    apply (fold_matches_positive (fun re => countMatches re (body c))) in Hpos.
    destruct Hpos as [H|[re [Hin Hre]]]; [lia|].
    exists re. split; [exact Hin|].
    apply (countMatches_positive re (body c)); [|exact Hre].
    intros ->. contradiction.
  - split; [congruence|]. intros [re [Hin Hinc]]. exfalso.
    assert (Hpos : (0 < fold_left (fun n re => (n + countMatches re (body c))%nat)
                           regexes 0%nat)%nat).
    { apply (fold_matches_positive (fun re => countMatches re (body c))).
      right. exists re. split; [exact Hin|].
      apply (countMatches_positive re (body c)); [|exact Hinc].
      intros ->. contradiction. }
    lia.
Qed.

Lemma keyword_filter_keeps_matching_bodies_witness :
  Client.keywordFilter 0 ["rust"]
    (mkComment "1" "u" "I like Rust" "s" 0 0 None None None None None) <> None.
Proof.
  refine (proj2 (keyword_filter_keeps_matching_bodies 0 ["rust"]
                   (mkComment "1" "u" "I like Rust" "s" 0 0 None None None None None)
                   _ _ _) _).
  - reflexivity.
  - repeat constructor.
  - simpl. intuition discriminate.
  - exists "rust". split; [simpl; auto|reflexivity].
Defined.

Lemma indexOf_includes s p : (exists i, indexOf s p = Some i) <-> includes s p = true.
Proof.
  induction s as [|c r IH]; cbn [indexOf includes].
  - destruct (startsWith EmptyString p); simpl.
    + split; [auto|eauto].
    + split; [intros [i H]; discriminate|discriminate].
  - destruct (startsWith (String c r) p); simpl.
    + split; [auto|eauto].
    + rewrite <- IH. split; intros [i H].
      * destruct (indexOf r p); [eauto|discriminate].
      * rewrite H. simpl. eauto.
Qed.

Lemma toLowerCase_idem s : toLowerCase (toLowerCase s) = toLowerCase s.
Proof.
  induction s as [|c r IH]; simpl; [reflexivity|]. now rewrite lowerChar_idem, IH.
Qed.

(** X19.  What a term adds in the ['all'] mode.  When the author does not match,
    the subreddit counts 3 if it contains the term.  When the author matches,
    the subreddit is searched only from the position where the match in the
    author ended, since both tests share the expression's [lastIndex]: a
    subreddit name no longer than that position adds nothing, whatever it
    contains. *)
Theorem subreddit_test_starts_at_last_index (c : RedditComment) (re : RegExp) :
  (fst (regexTest re 0 (toLowerCase (author c))) = false ->
     Client.termMatches c re =
     (countMatches re (body c)
      + if includes (toLowerCase (subreddit c)) (toLowerCase re) then 3 else 0)%nat) /\
  (fst (regexTest re 0 (toLowerCase (author c))) = true ->
   (String.length (subreddit c) < snd (regexTest re 0 (toLowerCase (author c))))%nat ->
     Client.termMatches c re = (countMatches re (body c) + 2)%nat).
Proof.
  unfold Client.termMatches. split.
  - intros Hno.
    destruct (regexTest re 0 (toLowerCase (author c))) as [inAuthor lastIndex] eqn:E.
    simpl in Hno. subst inAuthor.
    assert (Hl : lastIndex = 0%nat).
    { unfold regexTest in E. destruct (_ <? _)%nat; [now injection E|].
      destruct (indexOf _ _); [discriminate|now injection E]. }
    subst lastIndex. unfold regexTest at 1. cbn [Nat.ltb Nat.leb dropChars].
    rewrite !toLowerCase_idem.
    destruct (indexOf (toLowerCase (subreddit c)) (toLowerCase re)) as [i|] eqn:Hi.
    + assert (Hinc : includes (toLowerCase (subreddit c)) (toLowerCase re) = true)
        by (apply indexOf_includes; eauto).
      rewrite Hinc. lia.
    + destruct (includes (toLowerCase (subreddit c)) (toLowerCase re)) eqn:Hinc; [|lia].
      apply indexOf_includes in Hinc. destruct Hinc as [i Hi']. congruence.
  - intros Hyes Hshort.
    destruct (regexTest re 0 (toLowerCase (author c))) as [inAuthor lastIndex] eqn:E.
    simpl in Hyes, Hshort. subst inAuthor.
    unfold regexTest at 1. rewrite toLowerCase_length.
    destruct (Nat.ltb_spec (String.length (subreddit c)) lastIndex); [lia|lia].
Qed.

Lemma subreddit_test_starts_at_last_index_witness :
  Client.termMatches
    (mkComment "1" "xxrust" "nothing here" "rust" 0 0 None None None None None) "rust"
  = 2%nat.
Proof.
  refine (proj2 (subreddit_test_starts_at_last_index
                   (mkComment "1" "xxrust" "nothing here" "rust" 0 0 None None None None None)
                   "rust") eq_refl _).
  simpl. lia.
Defined.

(* ------------------------------------------------------------------------- *)
(** ** The two [searchComments], continued *)

Lemma jsSlice_length {A : Type} (start : Z) (n : nat) (l : list A) :
  (length (jsSlice start (start + Z.of_nat n) l) <= n)%nat.
Proof.
  unfold jsSlice. rewrite length_firstn.
  destruct (start <? 0) eqn:E1; destruct (start + Z.of_nat n <? 0) eqn:E2; lia.
Qed.

Lemma in_firstn {A : Type} n (l : list A) x : In x (firstn n l) -> In x l.
Proof.
  intros H. rewrite <- (firstn_skipn n l). apply in_or_app. now left.
Qed.

Lemma in_skipn {A : Type} n (l : list A) x : In x (skipn n l) -> In x l.
Proof.
  intros H. rewrite <- (firstn_skipn n l). apply in_or_app. now right.
Qed.

Lemma jsSlice_incl {A : Type} (start stop : Z) (l : list A) x :
  In x (jsSlice start stop l) -> In x l.
Proof.
  unfold jsSlice. intros H. apply in_firstn in H. now apply in_skipn in H.
Qed.

(** X20.  When the cache does not answer, the client copy returns at most [limit]
    comments, from the pipeline as from the fallback. *)
Theorem client_miss_respects_limit (loadTime : Z) (h : Client.Harvest)
  (params : Client.SearchParams) (page : nat) (now : Z) (c : SearchCache.t) :
  (forall key, Client.getCacheKey params page = Ok key ->
               fst (SearchCache.get now key c) = None) ->
  exists l c',
    Client.searchComments loadTime h params page now c = (Ok l, c') /\
    (length l <= Client.limit params)%nat.
Proof.
  intros Hmiss. unfold Client.searchComments, Client.searchComments_try.
  pose proof (fun l => jsSlice_length 0 (Client.limit params) (l : list RedditComment))
    as Hlen. simpl in Hlen.
  destruct (Client.getCacheKey params page) as [key|e]; [|eauto].
  specialize (Hmiss key eq_refl).
  destruct (SearchCache.get now key c) as [[cached|] c1]; [discriminate|].
  destruct (Client.query params) as [q|]; [|eauto].
  destruct (SearchCache.set _ _ _ _) as [c2|e]; eauto.
Qed.

Lemma client_miss_respects_limit_witness :
  exists l c',
    Client.searchComments 0 silentHarvest oneResultParams 1 1000 SearchCache.default
    = (Ok l, c') /\ (length l <= 1)%nat.
Proof.
  apply (client_miss_respects_limit 0 silentHarvest oneResultParams 1 1000
           SearchCache.default).
  intros key Hkey. reflexivity.
Defined.

Lemma client_searchComments_distinct_ids_witness :
  exists l c',
    Client.searchComments 0 silentHarvest oneResultParams 1 1000 SearchCache.default
    = (Ok l, c') /\ NoDup (ids l) /\ cacheUnique c'.
Proof.
  apply (client_searchComments_distinct_ids 0 silentHarvest oneResultParams 1 1000
           SearchCache.default).
  intros k e [].
Defined.

Lemma server_sortComments_perm sortBy l : Permutation l (Server.sortComments sortBy l).
Proof.
  unfold Server.sortComments.
  repeat match goal with |- context [if ?b then _ else _] => destruct b end;
    apply jsSort_perm.
Qed.

Lemma addMatchScore_same q c : sameButScores c (Server.addMatchScore q c).
Proof. unfold sameButScores. repeat split. Qed.

Lemma int_ge_not_lt a n : Num.int_ge a n = true -> Num.int_lt a n = false.
Proof.
  destruct n as [z| | |]; simpl; try discriminate; try reflexivity.
  intros H. apply Z.leb_le in H. apply Z.ltb_ge. lia.
Qed.

Lemma rankComments_sound q sortBy minUpvotes allComments x :
  In x (Server.rankComments q sortBy minUpvotes allComments) ->
  Num.int_lt (upvotes x) minUpvotes = false /\
  exists c, In c allComments /\ sameButScores c x.
Proof.
  unfold Server.rankComments. intros Hx.
  assert (Hin : exists c, In c allComments /\ Num.int_lt (upvotes c) minUpvotes = false /\
                          x = Server.addMatchScore (toLowerCase q) c).
  { destruct (Server.isNil _);
      apply (Permutation_in x (Permutation_sym (server_sortComments_perm sortBy _))) in Hx;
      apply in_map_iff in Hx; destruct Hx as [c [<- Hc]]; apply filter_In in Hc;
      destruct Hc as [Hc Hup]; exists c; (split; [exact Hc|split; [|reflexivity]]).
    - now apply int_ge_not_lt.
    - apply andb_true_iff in Hup. destruct Hup as [Hup _].
      now apply negb_true_iff in Hup. }
  destruct Hin as [c (Hc & Hup & ->)]. split; [exact Hup|].
  exists c. split; [exact Hc|apply addMatchScore_same].
Qed.

(** X22.  No comment the server copy ranks has upvotes below [minUpvotes],
    as far as [<] can tell, and each is a fetched comment (with a match score
    filled in); for a whole [minUpvotes] that is the bound
    [minUpvotes <= upvotes].  If some fetched comment that is not below
    [minUpvotes] contains the query, every ranked comment contains it; if
    none does, the query is ignored and every fetched comment whose upvotes
    are [>= minUpvotes] is ranked.  When [minUpvotes] is [NaN] the two
    comparisons part: a comment that contains the query is ranked whatever
    its upvotes, and if no comment contains it nothing is ranked. *)
Theorem server_ranking_filters (q sortBy : string) (minUpvotes : Num.t)
  (allComments : list RedditComment) :
  let ranked := Server.rankComments q sortBy minUpvotes allComments in
  let hasQuery c := includes (toLowerCase (body c)) (toLowerCase q) in
  (forall x, In x ranked ->
     Num.int_lt (upvotes x) minUpvotes = false /\
     exists c, In c allComments /\ sameButScores c x) /\
  (forall m, minUpvotes = Num.Int m -> forall x, In x ranked -> m <= upvotes x) /\
  ((exists c, In c allComments /\ Num.int_lt (upvotes c) minUpvotes = false /\
              hasQuery c = true) ->
   forall x, In x ranked -> hasQuery x = true) /\
  ((forall c, In c allComments -> Num.int_lt (upvotes c) minUpvotes = false ->
              hasQuery c = false) ->
   forall c, In c allComments -> Num.int_ge (upvotes c) minUpvotes = true ->
             In (id c) (ids ranked)) /\
  (minUpvotes = Num.NaN ->
   (forall c, In c allComments -> hasQuery c = true -> In (id c) (ids ranked)) /\
   ((forall c, In c allComments -> hasQuery c = false) -> ranked = [])).
Proof.
  cbv zeta. split; [intros x Hx; exact (rankComments_sound _ _ _ _ _ Hx)|].
  split.
  { intros m -> x Hx. apply rankComments_sound in Hx. destruct Hx as [Hlt _].
    simpl in Hlt. now apply Z.ltb_ge in Hlt. }
  unfold Server.rankComments.
  set (strict := filter (fun c => negb (Num.int_lt (upvotes c) minUpvotes)
                                  && includes (toLowerCase (body c)) (toLowerCase q))
                        allComments).
  set (loose := filter (fun c => Num.int_ge (upvotes c) minUpvotes) allComments).
  assert (Hstrict : forall c, In c strict <->
            In c allComments /\ Num.int_lt (upvotes c) minUpvotes = false /\
            includes (toLowerCase (body c)) (toLowerCase q) = true).
  { intros c. unfold strict. rewrite filter_In, andb_true_iff, negb_true_iff. tauto. }
  assert (Hloose : forall c, In c loose <->
            In c allComments /\ Num.int_ge (upvotes c) minUpvotes = true).
  { intros c. unfold loose. rewrite filter_In. tauto. }
  assert (Hin : forall l x, In x (Server.sortComments sortBy
                                    (map (Server.addMatchScore (toLowerCase q)) l)) ->
                            exists c, In c l /\ x = Server.addMatchScore (toLowerCase q) c).
  { intros l x Hx.
    apply (Permutation_in x (Permutation_sym (server_sortComments_perm sortBy _))) in Hx.
    apply in_map_iff in Hx. destruct Hx as [c [<- Hc]]. eauto. }
  assert (Hids : forall l c, In c l ->
            In (id c) (ids (Server.sortComments sortBy
                              (map (Server.addMatchScore (toLowerCase q)) l)))).
  { intros l c Hc. unfold ids.
    apply (Permutation_in (id c)
             (Permutation_map id (server_sortComments_perm sortBy _))).
    rewrite map_map. apply in_map_iff. exists c. split; [reflexivity|exact Hc]. }
  assert (Hnil : Server.isNil strict = true ->
                 forall c, In c allComments ->
                           Num.int_lt (upvotes c) minUpvotes = false ->
                           includes (toLowerCase (body c)) (toLowerCase q) = false).
  { intros Hs c Hc Hlt. destruct (includes _ _) eqn:E; [|reflexivity].
    assert (Hcs : In c strict) by (apply Hstrict; auto).
    destruct strict; [contradiction|discriminate]. }
  split; [|split].
  - intros [c0 Hc0] x Hx. apply Hstrict in Hc0.
    destruct (Server.isNil strict) eqn:Enil.
    { destruct strict; [contradiction|discriminate]. }
    apply Hin in Hx. destruct Hx as [c [Hc ->]].
    apply Hstrict in Hc. simpl. tauto.
  - intros Hnone c Hc Hup.
    assert (Hs : Server.isNil strict = true).
    { destruct (Server.isNil strict) eqn:Enil; [reflexivity|].
      assert (Hex : exists s0, In s0 strict).
      { destruct strict as [|s0 rest]; [discriminate|]. exists s0. now left. }
      destruct Hex as [s0 Hs0]. apply Hstrict in Hs0. destruct Hs0 as (H1 & H2 & H3).
      rewrite (Hnone s0 H1 H2) in H3. discriminate. }
    rewrite Hs. apply Hids. apply Hloose. auto.
  - intros HNaN. split.
    + intros c Hc Hq.
      assert (Hcs : In c strict).
      { apply Hstrict. rewrite HNaN. auto. }
      destruct (Server.isNil strict) eqn:Enil.
      { destruct strict; [contradiction|discriminate]. }
      now apply Hids.
    + intros Hnone.
      assert (Hs : Server.isNil strict = true).
      { destruct (Server.isNil strict) eqn:Enil; [reflexivity|].
        assert (Hex : exists s0, In s0 strict).
        { destruct strict as [|s0 rest]; [discriminate|]. exists s0. now left. }
        destruct Hex as [s0 Hs0]. apply Hstrict in Hs0. destruct Hs0 as (H1 & _ & H3).
        rewrite (Hnone s0 H1) in H3. discriminate. }
      rewrite Hs.
      assert (Hl : loose = []).
      { unfold loose. rewrite HNaN. clear. induction allComments as [|c r IH];
          [reflexivity|exact IH]. }
      rewrite Hl. unfold Server.sortComments. simpl.
      repeat match goal with |- context [if ?b then _ else _] => destruct b end;
        reflexivity.
Qed.

Lemma server_ranking_filters_witness :
  Forall (fun x => includes (toLowerCase (body x)) (toLowerCase "rust") = true)
         (Server.rankComments "rust" "upvotes" (Num.Int 100) (mockComments 0)).
Proof.
  apply Forall_forall.
  refine (proj1 (proj2 (proj2 (server_ranking_filters "rust" "upvotes" (Num.Int 100)
                                 (mockComments 0)))) _).
  exists (nth 0 (mockComments 0) (mkComment "" "" "" "" 0 0 None None None None None)).
  split; [simpl; auto|]. split; reflexivity.
Defined.

Lemma jsSliceNum_length {A : Type} (start : Num.t) (l : Z) (xs : list A) :
  0 <= l ->
  Z.of_nat (length (jsSliceNum start (Num.add start (Num.Int l)) xs)) <= l.
Proof.
  intros Hl. unfold jsSliceNum. rewrite length_firstn.
  destruct start as [a| | |]; cbn [Num.add Num.sliceIndex]; [|lia..].
  destruct (a <? 0) eqn:E1; destruct (a + l <? 0) eqn:E2; lia.
Qed.

Lemma jsSliceNum_incl {A : Type} (start stop : Num.t) (l : list A) x :
  In x (jsSliceNum start stop l) -> In x l.
Proof.
  unfold jsSliceNum. intros H. apply in_firstn in H. now apply in_skipn in H.
Qed.

Lemma jsSliceNum_shorter {A : Type} (start stop : Num.t) (l : list A) :
  (length (jsSliceNum start stop l) <= length l)%nat.
Proof. unfold jsSliceNum. rewrite length_firstn, length_skipn. lia. Qed.

Lemma jsSliceNum_all_but_last {A : Type} (l : list A) :
  jsSliceNum (Num.Int 0) (Num.Int (-1)) l = removelast l.
Proof.
  unfold jsSliceNum. cbn [Num.sliceIndex]. change (0 <? 0) with false.
  change (-1 <? 0) with true. cbv iota.
  rewrite removelast_firstn_len.
  replace (Z.to_nat (Z.min 0 (Z.of_nat (length l)))) with 0%nat by lia.
  cbn [skipn]. f_equal. lia.
Qed.

(** The shape of a successful run of the server copy that missed the cache. *)
Lemma server_try_miss w params page s c key r s' c' :
  Server.getCacheKey params page = Ok key ->
  fst (SearchCache.get (clock s) key c) = None ->
  Server.searchComments_try w params page s c = (Ok r, s', c') ->
  exists q allComments,
    Server.query params = QString q /\
    let ranked := Server.rankComments q (Server.sortBy params) (Server.minUpvotes params)
                    allComments in
    let startIndex := Num.mul (Num.sub page (Num.Int 1)) (Server.limit params) in
    Server.comments r
      = jsSliceNum startIndex (Num.add startIndex (Server.limit params)) ranked /\
    Server.totalResults r = length ranked /\
    Server.cacheSize r = SearchCache.size c' /\
    SearchCache.set (clock s') key (Server.comments r)
      (snd (SearchCache.get (clock s) key c)) = Ok c'.
Proof.
  intros Hkey Hmiss. unfold Server.searchComments_try. rewrite Hkey.
  destruct (SearchCache.get (clock s) key c) as [[cached|] c1]; [discriminate|].
  cbn [snd]. destruct (Server.query params) as [q|]; [|discriminate].
  destruct (getRedditAccessToken w s) as [[tok|e] s1]; [|discriminate].
  destruct (axiosGet w (Server.searchUrl q) s1) as [[d|status|] s2]; try discriminate.
  destruct (Server.postsOf d) as [posts|e]; [|discriminate].
  destruct (if Server.isNil posts then _ else _) as [posts' s3].
  destruct (Server.fetchAll w (firstn 10 posts') s3) as [allComments s4].
  destruct (SearchCache.set _ _ _ _) as [c2|e] eqn:Eset; [|discriminate].
  intros H. injection H as <- <- <-. exists q, allComments. cbv zeta. cbn.
  repeat split. exact Eset.
Qed.

(** X23.  On a cache miss that does not end in the fallback, the server copy
    returns a page of comments none of which is below [minUpvotes], reports
    a total that is not smaller than the page, and stores exactly the
    returned page under the key.  When [limit] is a whole number that is not
    negative the page has at most [limit] comments, whatever the page
    number.  A negative [limit] is no bound: with [limit = -1] on page 1 the
    page is the whole ranking but its last comment. *)
Theorem server_miss_returns_one_page (w : World) (params : Server.SearchParams)
  (page : Num.t) (s s' : State) (c c' : SearchCache.t) (key : string)
  (r : Server.SearchResult) :
  Server.getCacheKey params page = Ok key ->
  fst (SearchCache.get (clock s) key c) = None ->
  Server.searchComments_try w params page s c = (Ok r, s', c') ->
  (forall l, Server.limit params = Num.Int l -> 0 <= l ->
     Z.of_nat (length (Server.comments r)) <= l) /\
  (forall x, In x (Server.comments r) ->
     Num.int_lt (upvotes x) (Server.minUpvotes params) = false) /\
  (length (Server.comments r) <= Server.totalResults r)%nat /\
  SearchCache.map_get key (SearchCache.cache c')
  = Some (SearchCache.mkEntry (clock s') (Server.comments r)) /\
  (Server.limit params = Num.Int (-1) -> page = Num.Int 1 ->
     exists ranked, Server.comments r = removelast ranked /\
                    Server.totalResults r = length ranked).
Proof.
  intros Hkey Hmiss Htry.
  destruct (server_try_miss _ _ _ _ _ _ _ _ _ Hkey Hmiss Htry)
    as [q [allComments (Hq & Hcomments & Htotal & _ & Hset)]].
  cbv zeta in Hcomments, Htotal.
  split; [|split; [|split; [|split]]].
  - intros l Hl Hpos. rewrite Hcomments, Hl. now apply jsSliceNum_length.
  - intros x Hx. rewrite Hcomments in Hx. apply jsSliceNum_incl in Hx.
    now apply rankComments_sound in Hx.
  - rewrite Hcomments, Htotal. apply jsSliceNum_shorter.
  - eapply set_stores. exact Hset.
  - intros Hl Hpage. eexists. split; [|exact Htotal].
    rewrite Hcomments, Hl, Hpage. apply jsSliceNum_all_but_last.
Qed.

(** X24.  After such a run, the same request made again no later than [ttl]
    milliseconds after the page was stored gets the same comments back from
    the cache, without any outbound call. *)
Theorem server_cache_round_trip (loadTime : Z) (w w2 : World)
  (params : Server.SearchParams) (page : Num.t) (s s' s2 : State)
  (c c' : SearchCache.t) (key : string) (r : Server.SearchResult) :
  Server.getCacheKey params page = Ok key ->
  fst (SearchCache.get (clock s) key c) = None ->
  Server.searchComments_try w params page s c = (Ok r, s', c') ->
  clock s2 - clock s' <= SearchCache.ttl c' ->
  Server.searchComments loadTime w2 params page s2 c'
  = (Ok (Server.mkResult (Server.comments r) (length (Server.comments r) * 3)
           (Server.countSubreddits (Server.comments r)) (SearchCache.size c')),
     s2, c').
Proof.
  intros Hkey Hmiss Htry Hfresh.
  destruct (server_try_miss _ _ _ _ _ _ _ _ _ Hkey Hmiss Htry)
    as [q [allComments (_ & _ & _ & _ & Hset)]].
  unfold Server.searchComments, Server.searchComments_try.
  rewrite Hkey, (get_after_set_fresh _ _ _ _ _ _ Hset Hfresh). reflexivity.
Qed.

Lemma server_miss_returns_one_page_witness :
  exists r s' c',
    Server.searchComments_try repeatingWorld rustOneParams (Num.Int 1) (initialState 0)
      SearchCache.default = (Ok r, s', c') /\
    ids (Server.comments r) = ["c1"] /\
    Server.totalResults r = 2%nat /\
    Z.of_nat (length (Server.comments r)) <= 1.
Proof.
  do 3 eexists. split; [vm_compute; reflexivity|].
  split; [reflexivity|]. split; [reflexivity|].
  refine (proj1 (server_miss_returns_one_page repeatingWorld rustOneParams (Num.Int 1)
                   (initialState 0) _ SearchCache.default _ "rust_upvotes_0_1_1" _
                   _ _ _) 1 _ _).
  - vm_compute. reflexivity.
  - vm_compute. reflexivity.
  - vm_compute. reflexivity.
  - reflexivity.
  - lia.
Defined.

Lemma server_cache_round_trip_witness :
  exists r s' c',
    Server.searchComments_try quietWorld twoResultsParams (Num.Int 1) (initialState 0)
      SearchCache.default = (Ok r, s', c') /\
    Server.searchComments 0 failingWorld twoResultsParams (Num.Int 1) (initialState 1000) c'
    = (Ok (Server.mkResult (Server.comments r) (length (Server.comments r) * 3)
             (Server.countSubreddits (Server.comments r)) (SearchCache.size c')),
       initialState 1000, c').
Proof.
  do 3 eexists. split; [vm_compute; reflexivity|].
  refine (server_cache_round_trip 0 quietWorld failingWorld twoResultsParams (Num.Int 1)
            (initialState 0) _ (initialState 1000) SearchCache.default _
            "zzz_relevance_0_2_1" _ _ _ _ _).
  - vm_compute. reflexivity.
  - vm_compute. reflexivity.
  - vm_compute. reflexivity.
  - vm_compute. discriminate.
Defined.

Lemma axiosGet_counts w url s :
  gets (snd (axiosGet w url s)) = S (gets s) /\ posts (snd (axiosGet w url s)) = posts s.
Proof. unfold axiosGet. state_simpl. auto. Qed.

Lemma hotPosts_counts w subs :
  forall found s,
    (gets (snd (Server.hotPosts w subs found s)) <= gets s + length subs)%nat /\
    posts (snd (Server.hotPosts w subs found s)) = posts s.
Proof.
  induction subs as [|sub r IH]; intros found s; cbn [Server.hotPosts length];
    [state_simpl; split; lia|].
  destruct (axiosGet_counts w (Server.hotUrl sub) s) as [Hg Hp].
  destruct (axiosGet w (Server.hotUrl sub) s) as [[d|status|] s1]; state_simpl;
    try destruct (Server.postsOf d);
    match goal with
    | |- context [Server.hotPosts w r ?f s1] =>
        destruct (IH f s1) as [H1 H2]; split; lia
    end.
Qed.

Lemma fetchCommentsFromPost_counts w postId sub s :
  (gets (snd (fetchCommentsFromPost w postId sub s)) <= gets s + 3)%nat /\
  (posts (snd (fetchCommentsFromPost w postId sub s)) <= posts s + 3)%nat.
Proof.
  unfold fetchCommentsFromPost, drawRandom4.
  match goal with
  | |- context [redditApiRequest w ?u 1 ?st] =>
      pose proof (redditApiRequest_counts w u 1 st) as [Hg Hp];
      destruct (redditApiRequest w u 1 st) as [[d|e] s2]
  end; unfold maxAttempts in *; state_simpl.
  - destruct d as [children|elements|]; state_simpl; try (split; lia).
    destruct (length elements <? 2)%nat; state_simpl; [split; lia|].
    destruct (nth 1 elements None); state_simpl; [|split; lia].
    destruct (extractComments _ _ _); state_simpl; split; lia.
  - split; lia.
Qed.

Lemma fetchAll_counts w postRefs :
  forall s,
    (gets (snd (Server.fetchAll w postRefs s)) <= gets s + 3 * length postRefs)%nat /\
    (posts (snd (Server.fetchAll w postRefs s)) <= posts s + 3 * length postRefs)%nat.
Proof.
  induction postRefs as [|p r IH]; intros s; cbn [Server.fetchAll length];
    [state_simpl; split; lia|].
  pose proof (fetchCommentsFromPost_counts w (Server.post_id p) (Server.post_subreddit p) s)
    as [Hg Hp].
  destruct (fetchCommentsFromPost w _ _ s) as [cs s1]. state_simpl.
  destruct (IH s1) as [Hg1 Hp1].
  destruct (Server.fetchAll w r s1) as [rest s2]. state_simpl. split; lia.
Qed.

(** X25.  One call of the server copy issues at most 36 GET requests (the search,
    five listings, three attempts for each of ten posts) and at most 31
    token exchanges, whatever the outside world answers. *)
Theorem server_request_budget (loadTime : Z) (w : World) (params : Server.SearchParams)
  (page : Num.t) (s : State) (c : SearchCache.t) :
  let s' := snd (fst (Server.searchComments loadTime w params page s c)) in
  (gets s' <= gets s + 36)%nat /\ (posts s' <= posts s + 31)%nat.
Proof.
  cbv zeta.
  assert (H : (gets (snd (fst (Server.searchComments_try w params page s c)))
               <= gets s + 36)%nat /\
              (posts (snd (fst (Server.searchComments_try w params page s c)))
               <= posts s + 31)%nat).
  { unfold Server.searchComments_try.
    destruct (Server.getCacheKey params page) as [key|e]; [|state_simpl; split; lia].
    destruct (SearchCache.get (clock s) key c) as [[cached|] c1];
      [state_simpl; split; lia|].
    destruct (Server.query params) as [q|]; [|state_simpl; split; lia].
    destruct (getRedditAccessToken_counts w s) as (Hg0 & Hp0 & _).
    destruct (getRedditAccessToken w s) as [[tok|e] s1]; state_simpl; [|split; lia].
    destruct (axiosGet_counts w (Server.searchUrl q) s1) as [Hg1 Hp1].
    destruct (axiosGet w (Server.searchUrl q) s1) as [[d|status|] s2]; state_simpl;
      try (split; lia).
    destruct (Server.postsOf d) as [found|e]; state_simpl; [|split; lia].
    assert (H3 : (gets (snd (if Server.isNil found
                             then Server.hotPosts w (firstn 5 Server.popularSubreddits)
                                    found s2
                             else (found, s2))) <= gets s2 + 5)%nat /\
                 posts (snd (if Server.isNil found
                             then Server.hotPosts w (firstn 5 Server.popularSubreddits)
                                    found s2
                             else (found, s2))) = posts s2).
    { destruct (Server.isNil found); [|state_simpl; split; lia].
      apply (hotPosts_counts w (firstn 5 Server.popularSubreddits) found s2). }
    destruct (if Server.isNil found then _ else _) as [found' s3]. state_simpl.
    destruct H3 as [Hg3 Hp3].
    pose proof (fetchAll_counts w (firstn 10 found') s3) as [Hg4 Hp4].
    assert (Hten : (length (firstn 10 found') <= 10)%nat) by apply firstn_le_length.
    destruct (Server.fetchAll w (firstn 10 found') s3) as [allComments s4]. state_simpl.
    destruct (SearchCache.set _ _ _ _); state_simpl; split; lia. }
  unfold Server.searchComments.
  destruct (Server.searchComments_try w params page s c) as [[[r|e] s1] c1];
    state_simpl; exact H.
Qed.

(* ------------------------------------------------------------------------- *)
(** ** The choice of subreddits *)

Lemma uniqueFrom_spec l :
  forall seen,
    NoDup (uniqueFrom seen l) /\
    (forall x, In x (uniqueFrom seen l) <-> In x l /\ ~ In x seen) /\
    (length (uniqueFrom seen l) <= length l)%nat.
Proof.
  induction l as [|x r IH]; intros seen; simpl.
  - split; [constructor|]. split; [tauto|lia].
  - destruct (existsb (String.eqb x) seen) eqn:E.
    + destruct (IH seen) as (H1 & H2 & H3). split; [exact H1|]. split; [|lia].
      intros y. rewrite H2. apply existsb_exists in E. destruct E as [z [Hz Hxz]].
      apply String.eqb_eq in Hxz. subst z. split; [tauto|].
      intros [[<-|Hy] Hn]; tauto.
    + destruct (IH (x :: seen)) as (H1 & H2 & H3).
      assert (Hx : ~ In x seen).
      { intros Hin. assert (existsb (String.eqb x) seen = true).
        { apply existsb_exists. exists x. split; [exact Hin|apply String.eqb_refl]. }
        congruence. }
      split; [|split; [|simpl; lia]].
      * constructor; [|exact H1]. rewrite H2. simpl. tauto.
      * intros y. simpl. rewrite H2. simpl.
        destruct (string_dec x y) as [->|Hne]; tauto.
Qed.

Lemma pickTopics_spec rand searchTerms ts :
  forall draw,
    (length (pickTopics rand draw ts searchTerms) <= length ts)%nat /\
    forall x, In x (pickTopics rand draw ts searchTerms) ->
              exists topic related, In (topic, related) ts /\
                                    (related = [] /\ x = EmptyString \/ In x related).
Proof.
  induction ts as [|[topic related] r IH]; intros draw; simpl; [split; [lia|tauto]|].
  destruct (topicMatches related searchTerms).
  - destruct (IH (S draw)) as [H1 H2]. split; [simpl; lia|].
    intros x [<-|Hx].
    + exists topic, related. split; [now left|].
      destruct related as [|a rel];
        [left; split; [reflexivity|apply nth_overflow; simpl; lia]|].
      right. apply nth_In. apply Nat.mod_upper_bound. discriminate.
    + destruct (H2 x Hx) as [t [rel [Hin Hor]]]. exists t, rel. split; [now right|exact Hor].
  - destruct (IH draw) as [H1 H2]. split; [lia|].
    intros x Hx. destruct (H2 x Hx) as [t [rel [Hin Hor]]].
    exists t, rel. split; [now right|exact Hor].
Qed.

(** X26.  The names searched are distinct and at most eight.  In subreddit mode
    with a non-blank query the only one is the trimmed query; otherwise the
    first is [all], it is the only one after page 1, and on page 1 the others
    are [popular], [trending] and names from the topic table. *)
Theorem subreddit_selection (rand : nat -> nat) (filterType query : string) (page : nat)
  (searchTerms : list string) :
  let subs := selectSubreddits rand filterType query page searchTerms in
  NoDup subs /\
  (1 <= length subs <= 8)%nat /\
  (String.eqb filterType "subreddit" && nonEmpty (trim query) = true ->
     subs = [trim query]) /\
  (String.eqb filterType "subreddit" && nonEmpty (trim query) = false ->
     hd EmptyString subs = "all" /\
     (page <> 1%nat -> subs = ["all"]) /\
     forall x, In x subs ->
       x = "all" \/ x = "popular" \/ x = "trending" \/
       exists topic related, In (topic, related) topics /\ In x related).
Proof.
  cbv zeta. unfold selectSubreddits, unique.
  destruct (String.eqb filterType "subreddit" && nonEmpty (trim query)) eqn:Emode.
  - simpl. repeat split; try (constructor; [simpl; tauto|constructor]);
      try lia; try discriminate.
  - set (l := "all" :: _).
    destruct (uniqueFrom_spec l []) as (Hnd & Hin & Hlen).
    destruct (pickTopics_spec rand searchTerms topics 0) as [Hplen Hpin].
    simpl length in Hplen.
    assert (Hl : (length l <= 8)%nat).
    { unfold l. destruct (page =? 1)%nat; simpl; lia. }
    assert (Hhd : exists rest, uniqueFrom [] l = "all" :: rest).
    { unfold l. cbn [uniqueFrom existsb]. eauto. }
    destruct Hhd as [rest Hrest].
    split; [exact Hnd|]. split; [rewrite Hrest in *; simpl in *; lia|].
    split; [discriminate|]. intros _. split; [now rewrite Hrest|]. split.
    + intros Hpage. unfold l. destruct (Nat.eqb_spec page 1); [contradiction|].
      reflexivity.
    + intros x Hx. apply Hin in Hx. destruct Hx as [Hx _]. unfold l in Hx.
      destruct Hx as [<-|Hx]; [auto|].
      destruct (page =? 1)%nat; [|contradiction].
      destruct Hx as [<-|[<-|Hx]]; auto.
      destruct (Hpin x Hx) as [t [rel [Ht [[Hrel _]|Hor]]]].
      * exfalso. subst rel. simpl in Ht.
        repeat (destruct Ht as [Ht|Ht]; [discriminate|]). contradiction.
      * right. right. right. eauto.
Qed.

Lemma subreddit_selection_witness :
  selectSubreddits (fun _ => 1%nat) "subreddit" "  rust " 1 ["rust"] = ["rust"] /\
  selectSubreddits (fun _ => 1%nat) "all" "physics news" 1 ["physics"; "news"]
  = ["all"; "popular"; "trending"; "askscience"; "worldnews"].
Proof.
  split; [|reflexivity].
  refine (proj1 (proj2 (proj2 (subreddit_selection (fun _ => 1%nat) "subreddit" "  rust " 1
                                 ["rust"]))) _).
  reflexivity.
Defined.

(** Each subreddit is asked for enough posts that together they cover
    [limit], and for no more than one post too many. *)
Theorem posts_per_subreddit_covers_limit (limit : nat) (subreddits : list string) :
  subreddits <> [] ->
  (limit <= postsPerSubreddit limit subreddits * length subreddits)%nat /\
  (postsPerSubreddit limit subreddits * length subreddits < limit + length subreddits)%nat.
Proof.
  intros Hne. unfold postsPerSubreddit, ceilDiv.
  assert (Hn : (0 < length subreddits)%nat) by (destruct subreddits; [contradiction|simpl; lia]).
  set (n := length subreddits) in *.
  pose proof (Nat.div_mod_eq (limit + n - 1) n) as Hdm.
  pose proof (Nat.mod_upper_bound (limit + n - 1) n ltac:(lia)) as Hmod.
  nia.
Qed.

Lemma posts_per_subreddit_covers_limit_witness :
  (20 <= postsPerSubreddit 20 ["all"; "popular"; "trending"] * 3)%nat.
Proof.
  refine (proj1 (posts_per_subreddit_covers_limit 20 ["all"; "popular"; "trending"] _)).
  discriminate.
Defined.

(* ------------------------------------------------------------------------- *)
(** ** The list of comments on the page *)

Lemma findIndex_app {A : Type} (p : A -> bool) pre rest :
  findIndex p (pre ++ rest)
  = match findIndex p pre with
    | Some j => Some j
    | None => option_map (Nat.add (length pre)) (findIndex p rest)
    end.
Proof.
  induction pre as [|x r IH]; simpl.
  - destruct (findIndex p rest); reflexivity.
  - destruct (p x); [reflexivity|]. rewrite IH.
    destruct (findIndex p r); simpl; [reflexivity|].
    destruct (findIndex p rest); reflexivity.
Qed.

Lemma findIndex_lt {A : Type} (p : A -> bool) l :
  forall j, findIndex p l = Some j -> (j < length l)%nat.
Proof.
  induction l as [|x r IH]; simpl; intros j; [discriminate|].
  destruct (p x); [intros H; injection H as <-; lia|].
  destruct (findIndex p r) as [k|]; [|discriminate].
  intros H. injection H as <-. specialize (IH k eq_refl). lia.
Qed.

Lemma findIndex_existsb {A : Type} (p : A -> bool) l :
  existsb p l = match findIndex p l with
                | Some _ => true
                | None => false
                end.
Proof.
  induction l as [|x r IH]; simpl; [reflexivity|].
  destruct (p x); [reflexivity|]. simpl. rewrite IH.
  destruct (findIndex p r); reflexivity.
Qed.

Lemma existsb_ids i l :
  existsb (String.eqb i) (ids l) = existsb (fun d => String.eqb (id d) i) l.
Proof.
  induction l as [|c r IH]; simpl; [reflexivity|]. now rewrite IH, String.eqb_sym.
Qed.

Lemma existsb_mem x l : existsb (String.eqb x) l = true <-> In x l.
Proof.
  rewrite existsb_exists. split.
  - intros [y [Hy Hxy]]. apply String.eqb_eq in Hxy. now subst y.
  - intros Hin. exists x. split; [exact Hin|apply String.eqb_refl].
Qed.

Lemma firstOfItsId_here pre c rest :
  firstOfItsId (pre ++ c :: rest) (length pre, c)
  = negb (existsb (String.eqb (id c)) (ids pre)).
Proof.
  unfold firstOfItsId. cbn [fst snd]. rewrite findIndex_app, existsb_ids, findIndex_existsb.
  destruct (findIndex _ pre) as [j|] eqn:Ej.
  - apply findIndex_lt in Ej. simpl. apply Nat.eqb_neq. lia.
  - simpl. rewrite String.eqb_refl. simpl. rewrite Nat.add_0_r. apply Nat.eqb_refl.
Qed.

Lemma firstOccurrences_ext l :
  forall s1 s2,
    (forall x, existsb (String.eqb x) s1 = existsb (String.eqb x) s2) ->
    firstOccurrences s1 l = firstOccurrences s2 l.
Proof.
  induction l as [|c r IH]; intros s1 s2 H; simpl; [reflexivity|].
  rewrite <- H. destruct (existsb (String.eqb (id c)) s1).
  - apply IH, H.
  - f_equal. apply IH. intros x. simpl. now rewrite H.
Qed.

Lemma removeDuplicates_from r :
  forall pre,
    map snd (filter (firstOfItsId (pre ++ r)) (combine (seq (length pre) (length r)) r))
    = firstOccurrences (ids pre) r.
Proof.
  induction r as [|c r IH]; intros pre; [reflexivity|].
  cbn [length seq combine filter firstOccurrences]. rewrite firstOfItsId_here.
  specialize (IH (pre ++ [c])). rewrite <- app_assoc, length_app in IH.
  cbn [app length] in IH. rewrite Nat.add_1_r in IH.
  destruct (existsb (String.eqb (id c)) (ids pre)) eqn:E; cbn [negb map snd].
  - rewrite IH. apply firstOccurrences_ext. intros x. unfold ids.
    rewrite map_app, existsb_app. simpl. rewrite orb_false_r.
    destruct (String.eqb x (id c)) eqn:Ex; [|apply orb_false_r].
    apply String.eqb_eq in Ex. subst x. fold (ids pre). rewrite E. reflexivity.
  - f_equal. rewrite IH. apply firstOccurrences_ext. intros x. unfold ids.
    rewrite map_app, existsb_app. simpl. rewrite orb_false_r. apply orb_comm.
Qed.

Lemma removeDuplicates_firstOccurrences l : removeDuplicates l = firstOccurrences [] l.
Proof. exact (removeDuplicates_from l []). Qed.

Lemma firstOccurrences_seen l :
  forall s1 s2,
    firstOccurrences (s1 ++ s2) l
    = firstOccurrences s1 (filter (fun c => negb (existsb (String.eqb (id c)) s2)) l).
Proof.
  induction l as [|c r IH]; intros s1 s2; simpl; [reflexivity|].
  rewrite existsb_app. destruct (existsb (String.eqb (id c)) s2) eqn:E2; simpl.
  - rewrite orb_true_r. apply IH.
  - rewrite orb_false_r. destruct (existsb (String.eqb (id c)) s1); [apply IH|].
    f_equal. apply (IH (id c :: s1) s2).
Qed.

Lemma firstOccurrences_app prev :
  forall seen results,
    NoDup (ids prev) ->
    (forall i, In i (ids prev) -> existsb (String.eqb i) seen = false) ->
    firstOccurrences seen (prev ++ results)
    = prev ++ firstOccurrences (rev (ids prev) ++ seen) results.
Proof.
  induction prev as [|c r IH]; intros seen results Hnd Hseen; [reflexivity|].
  simpl. rewrite (Hseen (id c)) by (now left). f_equal.
  inversion Hnd as [|? ? Hnotin Hnd']; subst.
  rewrite IH.
  - now rewrite <- app_assoc.
  - exact Hnd'.
  - intros i Hi. simpl. rewrite (Hseen i) by (now right). rewrite orb_false_r.
    apply String.eqb_neq. intros ->. contradiction.
Qed.

(** X27.  When a further page arrives and the comments on display have distinct
    ids, the display keeps them, in place, and adds after them the first
    occurrence of every arriving comment whose id is not yet on display; the
    ids stay distinct. *)
Theorem next_page_is_appended (page : nat) (prevComments results : list RedditComment) :
  page <> 1%nat ->
  NoDup (ids prevComments) ->
  showResults page prevComments results
  = prevComments
    ++ removeDuplicates
         (filter (fun c => negb (Client.hasId prevComments (id c))) results) /\
  NoDup (ids (showResults page prevComments results)).
Proof.
  intros Hpage Hnd. split; [|apply removeDuplicates_NoDup].
  unfold showResults. destruct (Nat.eqb_spec page 1); [contradiction|].
  rewrite !removeDuplicates_firstOccurrences.
  rewrite firstOccurrences_app; [|exact Hnd|reflexivity].
  f_equal. rewrite app_nil_r.
  change (rev (ids prevComments)) with ([] ++ rev (ids prevComments)).
  rewrite (firstOccurrences_seen results [] (rev (ids prevComments))).
  f_equal. apply filter_ext. intros c. f_equal.
  apply eq_true_iff_eq. rewrite existsb_mem, hasId_In, <- in_rev. reflexivity.
Qed.

Lemma next_page_is_appended_witness :
  NoDup (ids (showResults 2 (firstn 2 (mockComments 0)) (skipn 1 (mockComments 0)))).
Proof.
  refine (proj2 (next_page_is_appended 2 (firstn 2 (mockComments 0))
                   (skipn 1 (mockComments 0)) _ _)).
  - discriminate.
  - simpl. repeat (constructor; [simpl; intuition discriminate|]). constructor.
Defined.

(* ------------------------------------------------------------------------- *)
(** ** Votes *)

Lemma withUpvotes_same c : withUpvotes c (upvotes c) = c.
Proof. now destruct c. Qed.

Lemma handleVote_comments i direction userVotes comments :
  snd (handleVote i direction (userVotes, comments))
  = map (fun c => if String.eqb (id c) i
                  then withUpvotes c (upvotes c + voteValue (Some direction)
                                      - voteValue (userVotes i))
                  else c) comments.
Proof.
  unfold handleVote. cbn [snd]. apply map_ext. intros c.
  destruct (String.eqb (id c) i); cbn [negb]; [|reflexivity]. f_equal.
  destruct (userVotes i) as [[|]|], direction; simpl; lia.
Qed.

Lemma handleVote_votes i direction userVotes comments :
  fst (handleVote i direction (userVotes, comments)) i
  = (if voteOf (userVotes i) direction then None else Some direction) /\
  forall j, j <> i -> fst (handleVote i direction (userVotes, comments)) j = userVotes j.
Proof.
  unfold handleVote. cbn [fst]. split.
  - destruct (voteOf (userVotes i) direction); now rewrite String.eqb_refl.
  - intros j Hj. apply String.eqb_neq in Hj.
    destruct (voteOf (userVotes i) direction); now rewrite Hj.
Qed.

(** X28.  Voting on a comment without a recorded vote and then clicking the same
    arrow again (the page having been drawn anew in between) leaves no
    recorded vote, but the count keeps the vote: the second click changes no
    count. *)
Theorem vote_taken_back_stays_counted (i : string) (direction : Direction)
  (userVotes : Votes) (comments : list RedditComment) :
  userVotes i = None ->
  let once := handleVote i direction (userVotes, comments) in
  let twice := handleVote i direction once in
  fst once i = Some direction /\
  fst twice i = None /\
  (forall j, j <> i -> fst twice j = userVotes j) /\
  snd twice = snd once /\
  snd once = map (fun c => if String.eqb (id c) i
                           then withUpvotes c (upvotes c + voteValue (Some direction))
                           else c) comments.
Proof.
  intros Hnone. cbv zeta.
  destruct (handleVote i direction (userVotes, comments)) as [votes1 comments1] eqn:E1.
  pose proof (handleVote_votes i direction userVotes comments) as [Hv1 Hother1].
  pose proof (handleVote_comments i direction userVotes comments) as Hc1.
  rewrite E1 in Hv1, Hother1, Hc1. cbn [fst snd] in *.
  rewrite Hnone in Hv1, Hc1. cbn [voteOf voteValue] in Hv1, Hc1.
  pose proof (handleVote_votes i direction votes1 comments1) as [Hv2 Hother2].
  pose proof (handleVote_comments i direction votes1 comments1) as Hc2.
  rewrite Hv1 in Hv2, Hc2.
  assert (Hsame : voteOf (Some direction) direction = true) by now destruct direction.
  rewrite Hsame in Hv2.
  split; [exact Hv1|]. split; [exact Hv2|]. split; [|split].
  - intros j Hj. now rewrite Hother2, Hother1.
  - rewrite Hc2. rewrite <- (map_id comments1) at 2. apply map_ext. intros c.
    destruct (String.eqb (id c) i); [|reflexivity].
    replace (upvotes c + voteValue (Some direction) - voteValue (Some direction))
      with (upvotes c) by lia.
    apply withUpvotes_same.
  - rewrite Hc1. apply map_ext. intros c. destruct (String.eqb (id c) i); [|reflexivity].
    destruct direction; cbn [voteValue]; f_equal; lia.
Qed.

Lemma vote_taken_back_stays_counted_witness :
  snd (handleVote "mock1" up (handleVote "mock1" up (noVotes, mockComments 0)))
  = snd (handleVote "mock1" up (noVotes, mockComments 0)).
Proof.
  refine (proj1 (proj2 (proj2 (proj2 (vote_taken_back_stays_counted "mock1" up noVotes
                                        (mockComments 0) _))))).
  reflexivity.
Defined.

(* ------------------------------------------------------------------------- *)
(** ** Highlighting *)

Lemma append_empty_r s : (s ++ EmptyString)%string = s.
Proof. induction s as [|c r IH]; simpl; [reflexivity|now rewrite IH]. Qed.

Lemma append_assoc' a b c : ((a ++ b) ++ c)%string = (a ++ b ++ c)%string.
Proof. induction a as [|x r IH]; simpl; [reflexivity|now rewrite IH]. Qed.

Lemma takeChars_dropChars n :
  forall s, (takeChars n s ++ dropChars n s)%string = s.
Proof.
  induction n as [|k IH]; intros [|c r]; simpl; try reflexivity. now rewrite IH.
Qed.

Lemma joinParts_app a b : joinParts (a ++ b) = (joinParts a ++ joinParts b)%string.
Proof.
  induction a as [|p r IH]; simpl; [reflexivity|]. now rewrite IH, append_assoc'.
Qed.

Lemma joinParts_plain plain : joinParts (plainPart plain) = plain.
Proof. destruct plain; simpl; [reflexivity|]. now rewrite append_empty_r. Qed.

Lemma highlightScan_text terms s :
  forall skip plain,
    joinParts (highlightScan terms skip plain s) = (plain ++ dropChars skip s)%string.
Proof.
  induction s as [|c r IH]; intros skip plain.
  - simpl. rewrite joinParts_plain. destruct skip; simpl; now rewrite append_empty_r.
  - cbn [highlightScan]. destruct skip as [|k]; [|now rewrite IH].
    destruct (firstMatch terms (String c r)) as [[|n]|].
    + rewrite IH. simpl. now rewrite append_assoc'.
    + rewrite joinParts_app, joinParts_plain. cbn [joinParts fold_right partText].
      fold (joinParts (highlightScan terms n EmptyString r)). rewrite IH.
      simpl. now rewrite takeChars_dropChars.
    + rewrite IH. simpl. now rewrite append_assoc'.
Qed.

Lemma firstMatch_Some terms s n :
  firstMatch terms s = Some n ->
  exists t, In t terms /\ n = String.length t /\
            startsWith (toLowerCase s) (toLowerCase t) = true.
Proof.
  induction terms as [|t r IH]; simpl; [discriminate|].
  destruct (startsWith (toLowerCase s) (toLowerCase t)) eqn:E.
  - intros H. injection H as <-. exists t. auto.
  - intros H. destruct (IH H) as [t' (Hin & Hn & Hs)]. exists t'. auto.
Qed.

Lemma startsWith_takeChars p :
  forall s, startsWith s p = true -> takeChars (String.length p) s = p.
Proof.
  induction p as [|a p IH]; intros s; simpl; [now destruct s|].
  destruct s as [|b s]; [discriminate|]. intros H.
  apply andb_true_iff in H. destruct H as [Hab Hs]. apply Ascii.eqb_eq in Hab.
  subst b. now rewrite (IH s Hs).
Qed.

Lemma toLowerCase_takeChars n :
  forall s, toLowerCase (takeChars n s) = takeChars n (toLowerCase s).
Proof.
  induction n as [|k IH]; intros [|c r]; simpl; try reflexivity. now rewrite IH.
Qed.

Lemma highlightScan_parts terms s :
  forall skip plain p,
    In p (highlightScan terms skip plain s) ->
    match p with
    | Plain t => t <> EmptyString
    | Highlight h => h <> EmptyString /\
                     exists t, In t terms /\ toLowerCase h = toLowerCase t
    end.
Proof.
  assert (Hplain : forall plain p, In p (plainPart plain) ->
                     match p with
                     | Plain t => t <> EmptyString
                     | Highlight h => h <> EmptyString /\
                         exists t, In t terms /\ toLowerCase h = toLowerCase t
                     end).
  { intros [|c r] p; simpl; [tauto|]. intros [<-|[]]. discriminate. }
  induction s as [|c r IH]; intros skip plain p; [apply Hplain|].
  cbn [highlightScan]. destruct skip as [|k]; [|apply IH].
  destruct (firstMatch terms (String c r)) as [[|n]|] eqn:Em; try apply IH.
  intros Hin. apply in_app_or in Hin. destruct Hin as [Hin|[<-|Hin]].
  - exact (Hplain plain p Hin).
  - split; [discriminate|].
    destruct (firstMatch_Some _ _ _ Em) as [t (Ht & Hn & Hs)]. exists t.
    split; [exact Ht|]. rewrite Hn, toLowerCase_takeChars, <- (toLowerCase_length t).
    now apply startsWith_takeChars.
  - exact (IH _ _ _ Hin).
Qed.

(** X29.  The fragments [highlightSearchTerms] produces spell the text: put
    together they are the text, and none of them is empty unless the text
    is.  When the text and the query are ASCII, every highlighted fragment
    is, up to case, one of the words of the query. *)
Theorem highlight_fragments_spell_text (text query : string) :
  let parts := highlightSearchTerms text query in
  joinParts parts = text /\
  (text <> EmptyString -> forall p, In p parts -> partText p <> EmptyString) /\
  (isAscii text = true -> isAscii query = true ->
   forall h, In (Highlight h) parts ->
     In (toLowerCase h) (splitWs (toLowerCase (trim query)))).
Proof.
  cbv zeta. unfold highlightSearchTerms.
  destruct (negb (nonEmpty (trim query))).
  { simpl. rewrite append_empty_r. split; [reflexivity|]. split.
    - intros Hne p [<-|[]]. exact Hne.
    - intros _ _ h [H|[]]. discriminate. }
  set (terms := filter _ _).
  assert (Hterms : forall t, In t terms ->
            In t (splitWs (toLowerCase (trim query))) /\ toLowerCase t = t).
  { intros t Ht. apply filter_In in Ht. destruct Ht as [Ht _]. split; [exact Ht|].
    apply allChars_lower_fixed.
    assert (Hp : allChars (fun c => Ascii.eqb (lowerChar c) c && negb (isSpace c)) t = true).
    { apply (splitWs_from_pieces (fun c => Ascii.eqb (lowerChar c) c)
               (toLowerCase (trim query)) EmptyString false t);
        [apply toLowerCase_lower|reflexivity|exact Ht]. }
    clear Ht. induction t as [|c r IHt]; simpl in *; [reflexivity|].
    apply andb_true_iff in Hp. destruct Hp as [Hc Hr].
    apply andb_true_iff in Hc. destruct Hc as [Hc _]. now rewrite Hc, IHt. }
  destruct terms as [|t0 rest] eqn:Et.
  { simpl. rewrite append_empty_r. split; [reflexivity|]. split.
    - intros Hne p [<-|[]]. exact Hne.
    - intros _ _ h [H|[]]. discriminate. }
  rewrite <- Et in *. clear Et. split; [|split].
  - rewrite highlightScan_text. reflexivity.
  - intros _ p Hp. apply highlightScan_parts in Hp. destruct p; simpl; tauto.
  - intros _ _ h Hh. apply highlightScan_parts in Hh.
    destruct Hh as [_ [t [Ht Heq]]].
    destruct (Hterms t Ht) as [Hin Hfix]. now rewrite Heq, Hfix.
Qed.

Lemma highlight_fragments_spell_text_witness :
  Forall (fun p => partText p <> EmptyString)
         (highlightSearchTerms "Rust is fast" " rust  FAST ") /\
  Forall (fun p => match p with
                   | Highlight h => In (toLowerCase h) ["rust"; "fast"]
                   | Plain _ => True
                   end)
         (highlightSearchTerms "Rust is fast" " rust  FAST ").
Proof.
  split; apply Forall_forall.
  - refine (proj1 (proj2 (highlight_fragments_spell_text "Rust is fast" " rust  FAST "))
              _).
    discriminate.
  - intros [t|h] Hin; [exact I|].
    refine (proj2 (proj2 (highlight_fragments_spell_text "Rust is fast" " rust  FAST "))
              _ _ h Hin); reflexivity.
Defined.

(* ------------------------------------------------------------------------- *)
(** ** The route *)

Lemma server_searchComments_Ok loadTime w params page s c :
  exists r, fst (fst (Server.searchComments loadTime w params page s c)) = Ok r.
Proof.
  unfold Server.searchComments.
  destruct (Server.searchComments_try w params page s c) as [[[r|e] s'] c']; cbn; eauto.
Qed.

(** X30.  The route answers 400, touching neither the credentials nor the cache,
    exactly when the [query] parameter is missing or empty; every other
    request is answered 200, never 500; a [query] given more than once is
    answered with the demonstration dataset. *)
Theorem route_never_answers_500 (loadTime : Z) (w : World) (query : RouteQuery)
  (sortBy : option string) (minUpvotes limit page : option Num.t)
  (s : State) (searchCache : SearchCache.t) :
  let out := commentsRoute loadTime w query sortBy minUpvotes limit page s searchCache in
  (query = QueryMissing \/ query = QueryText EmptyString ->
     out = (Status400 "Query parameter is required", s, searchCache)) /\
  (query <> QueryMissing -> query <> QueryText EmptyString ->
     exists body, fst (fst out) = Status200 body) /\
  (query = QueryRepeated ->
     out = (Status200 (Server.mkResult (mockComments loadTime) 5 5
                         (SearchCache.size searchCache)), s, searchCache)).
Proof.
  cbv zeta. split; [|split].
  - intros [->| ->]; reflexivity.
  - intros H1 H2. unfold commentsRoute.
    destruct query as [|[|a q]|]; try contradiction.
    + set (params := Server.mkParams _ _ _ _).
      destruct (server_searchComments_Ok loadTime w params (optOr page (Num.Int 1)) s
                  searchCache)
        as [r Hr].
      destruct (Server.searchComments _ _ _ _ _ _) as [[[r'|e] s'] c']; cbn in Hr |- *;
        [eauto|discriminate].
    + set (params := Server.mkParams _ _ _ _).
      destruct (server_searchComments_Ok loadTime w params (optOr page (Num.Int 1)) s
                  searchCache)
        as [r Hr].
      destruct (Server.searchComments _ _ _ _ _ _) as [[[r'|e] s'] c']; cbn in Hr |- *;
        [eauto|discriminate].
  - intros ->. reflexivity.
Qed.

Lemma route_never_answers_500_witness :
  commentsRoute 0 failingWorld (QueryText EmptyString) None None None None (initialState 0)
    SearchCache.default
  = (Status400 "Query parameter is required", initialState 0, SearchCache.default).
Proof.
  refine (proj1 (route_never_answers_500 0 failingWorld (QueryText EmptyString) None None
                   None None (initialState 0) SearchCache.default) _).
  right. reflexivity.
Defined.
